(** * Verification of the postcode ingestion script [postcode_parser.py]

    The script downloads a postcode data set, loads polygons, attribute
    records and vertical-street records into PostgreSQL through [ogr2ogr]
    and [psycopg2], and indexes the resulting tables.

    Layout of this development:
    - [PyStr]   : the Python [str] methods the script calls;
    - [Sql]     : the SQL statements the script sends, as syntax;
    - [Engine]  : a model of the relational store and of the converter;
    - [Py]      : exceptions and the state-and-exception monad;
    - [Env]     : the world the script runs in (files, archives, server);
    - [Script]  : the script itself, function by function;
    - [Obs]     : the notions used to state properties of runs;
    - [Samples] : concrete archives and worlds;
    - the properties proved about the script. *)

From Stdlib Require Import String Ascii List Arith Lia Bool.
From Stdlib Require Import DecimalString DecimalNat.
Import ListNotations.
Open Scope string_scope.
Open Scope list_scope.

(* ================================================================== *)
(** ** Python string methods *)

Module PyStr.

Definition newline : ascii := "010"%char.

(** [c.lower()] on one ASCII character. *)
Definition lower_char (c : ascii) : ascii :=
  let n := nat_of_ascii c in
  if ((65 <=? n) && (n <=? 90))%nat then ascii_of_nat (n + 32) else c.

(** [s.lower()], on ASCII text. *)
Fixpoint lower (s : string) : string :=
  match s with
  | EmptyString => EmptyString
  | String c r => String (lower_char c) (lower r)
  end.

(** [s.split(sep)] for a one-character separator: never empty, an empty
    string gives one empty token. *)
Fixpoint split (sep : ascii) (s : string) : list string :=
  match s with
  | EmptyString => [EmptyString]
  | String c r =>
      if Ascii.eqb c sep then EmptyString :: split sep r
      else match split sep r with
           | [] => [String c EmptyString]
           | t :: ts => String c t :: ts
           end
  end.

(** [f.readlines()] on the text of a file: every line keeps its
    terminator; a last line without terminator is a line too. *)
Fixpoint readlines (s : string) : list string :=
  match s with
  | EmptyString => []
  | String c r =>
      if Ascii.eqb c newline then String c EmptyString :: readlines r
      else match readlines r with
           | [] => [String c EmptyString]
           | l :: ls => String c l :: ls
           end
  end.

(** [s.startswith(p)] and [s.endswith(p)]. *)
Definition startswith (s p : string) : bool := String.prefix p s.

Definition endswith (s p : string) : bool :=
  (String.length p <=? String.length s)%nat &&
  (substring (String.length s - String.length p) (String.length p) s =? p).

(** [l[-1]]: the last element, [None] standing for IndexError. *)
Definition last_item {A : Type} (l : list A) : option A := hd_error (rev l).

(** An integer inside an f-string. *)
Definition str_of_nat (n : nat) : string :=
  NilZero.string_of_uint (Nat.to_uint n).

(** Membership in a list of strings: [x in [...]]. *)
Definition mem (x : string) (l : list string) : bool :=
  existsb (String.eqb x) l.

End PyStr.

(* ================================================================== *)
(** ** SQL statements sent by the script *)

Module Sql.

Inductive sqltype :=
| TText
| TVarchar (n : nat)
| TInteger
| TBigSerial
| TGeometry
| TGeography.

(** A column of a select list or of a join condition: [c] or [t.c]. *)
Inductive colref :=
| Col (c : string)
| QCol (t c : string).

(** [FROM t] and [FROM l RIGHT JOIN r ON a = b]. *)
Inductive from_clause :=
| FromTable (t : string)
| RightJoin (l r : string) (a b : colref).

Inductive index_method := Gist | Btree.

Inductive stmt :=
| DropTable (if_exists : bool) (t : string)
| CreateTable (t : string) (cols : list (string * sqltype))
| CreateTableAs (if_not_exists : bool) (t : string)
                (sel : list colref) (frm : from_clause)
| RenameColumn (t old new : string)
| AddPrimaryKey (t c : string)
| AlterColumnType (t c : string) (ty : sqltype) (using_cast : bool)
| AddColumn (t c : string) (ty : sqltype)
| CreateIndex (name schema t : string) (m : index_method) (c : string)
              (pattern_ops : bool)
| CopyFromStdin (t : string).

(** One string of the script may hold several statements; a batch is the
    tuple of strings handed to the statement runner. *)
Definition command := list stmt.
Definition batch := list command.

End Sql.

(* ================================================================== *)
(** ** The relational store and the converter

    PostgreSQL and [ogr2ogr] are outside the script.  This module fixes
    what the development assumes of them: tables are lists of rows, every
    value is kept in its text form ([None] is NULL), a statement either
    fails with an error and changes nothing or succeeds. *)

Module Engine.
Import Sql.

Definition datum := option string.

Record table := mkTable {
  columns : list (string * sqltype);
  rows : list (list datum);
  pkey : option string
}.

Record index := mkIndex {
  ix_name : string;
  ix_table : string;
  ix_method : index_method;
  ix_column : string;
  ix_pattern_ops : bool
}.

Record database := mkDb {
  tables : list (string * table);
  indexes : list index
}.

Inductive pg_error :=
| SyntaxError
| UndefinedTable (t : string)
| UndefinedColumn (c : string)
| DuplicateTable (t : string)
| DuplicateColumn (c : string)
| DuplicateAlias (t : string)
| AmbiguousColumn (c : string)
| InvalidSchemaName (s : string)
| InvalidTableDefinition
| CannotCoerce
| InvalidTextRepresentation
| StringDataRightTruncation
| NotNullViolation
| UniqueViolation
| BadCopyFileFormat
| CopyWithoutStdin.

(** *** The catalogue: an association list keyed by table name *)

Fixpoint lookup {A : Type} (k : string) (m : list (string * A)) : option A :=
  match m with
  | [] => None
  | (k', v) :: r => if k' =? k then Some v else lookup k r
  end.

Definition remove {A : Type} (k : string) (m : list (string * A))
  : list (string * A) :=
  filter (fun p => negb (fst p =? k)) m.

Definition put {A : Type} (k : string) (v : A) (m : list (string * A))
  : list (string * A) :=
  (k, v) :: remove k m.

Definition get_table (db : database) (t : string) : option table :=
  lookup t (tables db).

Definition set_table (db : database) (t : string) (T : table) : database :=
  mkDb (put t T (tables db)) (indexes db).

(** Dropping a table drops its indexes. *)
Definition del_table (db : database) (t : string) : database :=
  mkDb (remove t (tables db))
       (filter (fun i => negb (ix_table i =? t)) (indexes db)).

Definition empty_db : database := mkDb [] [].

(** *** Rows and columns *)

Fixpoint col_index (c : string) (cols : list (string * sqltype))
  : option nat :=
  match cols with
  | [] => None
  | (c', _) :: r => if c' =? c then Some 0 else option_map S (col_index c r)
  end.

Definition col_type (c : string) (cols : list (string * sqltype))
  : option sqltype := lookup c cols.

Definition cell (i : nat) (r : list datum) : datum := nth i r None.

Definition column_values (i : nat) (T : table) : list datum :=
  map (cell i) (rows T).

Fixpoint nodupb (l : list string) : bool :=
  match l with
  | [] => true
  | x :: r => negb (PyStr.mem x r) && nodupb r
  end.

Fixpoint first_dup (l : list string) : option string :=
  match l with
  | [] => None
  | x :: r => if PyStr.mem x r then Some x else first_dup r
  end.

Definition datum_eqb (a b : datum) : bool :=
  match a, b with
  | Some x, Some y => x =? y
  | None, None => true
  | _, _ => false
  end.

Fixpoint nodup_datum (l : list datum) : bool :=
  match l with
  | [] => true
  | x :: r => negb (existsb (datum_eqb x) r) && nodup_datum r
  end.

(** SQL [a = b]: never true when a side is NULL. *)
Definition sql_eqb (a b : datum) : bool :=
  match a, b with
  | Some x, Some y => x =? y
  | _, _ => false
  end.

(** *** Identifiers

    The script splices names into the statement text.  The server reads
    an unquoted identifier: blanks around it are skipped, its letters are
    folded to lower case, and anything that is not a plain identifier is
    taken as a syntax error.  This is the reading of plain ASCII names,
    which is what the script itself writes.  Quoted names and names with a
    dollar sign or a letter outside ASCII, which the server accepts, and
    the reserved words, which it refuses, are not told apart here: where a
    statement below rests on a header token being refused, the token is a
    blank one, which the server refuses too. *)

Definition is_space (c : ascii) : bool :=
  let n := nat_of_ascii c in
  ((n =? 32) || (n =? 9) || (n =? 10) || (n =? 13))%nat.

Definition is_digit (c : ascii) : bool :=
  let n := nat_of_ascii c in ((48 <=? n) && (n <=? 57))%nat.

Definition is_ident_start (c : ascii) : bool :=
  let n := nat_of_ascii c in
  (((65 <=? n) && (n <=? 90)) || ((97 <=? n) && (n <=? 122)) || (n =? 95))%nat.

Definition is_ident_char (c : ascii) : bool :=
  is_ident_start c || is_digit c.

Fixpoint lstrip (s : string) : string :=
  match s with
  | EmptyString => EmptyString
  | String c r => if is_space c then lstrip r else s
  end.

Definition string_rev (s : string) : string :=
  string_of_list_ascii (rev (list_ascii_of_string s)).

Definition strip (s : string) : string :=
  string_rev (lstrip (string_rev (lstrip s))).

Fixpoint all_chars (p : ascii -> bool) (s : string) : bool :=
  match s with
  | EmptyString => true
  | String c r => p c && all_chars p r
  end.

Definition ident_of (s : string) : option string :=
  match strip s with
  | EmptyString => None
  | String c r =>
      if is_ident_start c && all_chars is_ident_char r
      then Some (PyStr.lower (String c r))
      else None
  end.

Definition lex_colref (c : colref) : option colref :=
  match c with
  | Col c =>
      match ident_of c with Some c' => Some (Col c') | None => None end
  | QCol t c =>
      match ident_of t, ident_of c with
      | Some t', Some c' => Some (QCol t' c')
      | _, _ => None
      end
  end.

Fixpoint lex_list {A : Type} (f : A -> option A) (l : list A)
  : option (list A) :=
  match l with
  | [] => Some []
  | x :: r =>
      match f x, lex_list f r with
      | Some x', Some r' => Some (x' :: r')
      | _, _ => None
      end
  end.

Definition lex_from (f : from_clause) : option from_clause :=
  match f with
  | FromTable t =>
      match ident_of t with Some t' => Some (FromTable t') | None => None end
  | RightJoin l r a b =>
      match ident_of l, ident_of r, lex_colref a, lex_colref b with
      | Some l', Some r', Some a', Some b' => Some (RightJoin l' r' a' b')
      | _, _, _, _ => None
      end
  end.

Definition lex_coldef (d : string * sqltype) : option (string * sqltype) :=
  match ident_of (fst d) with
  | Some c => Some (c, snd d)
  | None => None
  end.

(** The statement with every name read as the server reads it. *)
Definition lex_stmt (s : stmt) : option stmt :=
  match s with
  | DropTable ife t =>
      match ident_of t with Some t' => Some (DropTable ife t') | None => None end
  | CreateTable t cols =>
      match ident_of t, lex_list lex_coldef cols with
      | Some t', Some cols' => Some (CreateTable t' cols')
      | _, _ => None
      end
  | CreateTableAs ine t sel frm =>
      match ident_of t, lex_list lex_colref sel, lex_from frm with
      | Some t', Some sel', Some frm' => Some (CreateTableAs ine t' sel' frm')
      | _, _, _ => None
      end
  | RenameColumn t old new =>
      match ident_of t, ident_of old, ident_of new with
      | Some t', Some old', Some new' => Some (RenameColumn t' old' new')
      | _, _, _ => None
      end
  | AddPrimaryKey t c =>
      match ident_of t, ident_of c with
      | Some t', Some c' => Some (AddPrimaryKey t' c')
      | _, _ => None
      end
  | AlterColumnType t c ty u =>
      match ident_of t, ident_of c with
      | Some t', Some c' => Some (AlterColumnType t' c' ty u)
      | _, _ => None
      end
  | AddColumn t c ty =>
      match ident_of t, ident_of c with
      | Some t', Some c' => Some (AddColumn t' c' ty)
      | _, _ => None
      end
  | CreateIndex n sch t m c p =>
      match ident_of n, ident_of sch, ident_of t, ident_of c with
      | Some n', Some sch', Some t', Some c' =>
          Some (CreateIndex n' sch' t' m c' p)
      | _, _, _, _ => None
      end
  | CopyFromStdin t =>
      match ident_of t with Some t' => Some (CopyFromStdin t') | None => None end
  end.

(** *** Queries *)

Inductive side := OnLeft | OnRight.

(** A select-list entry once resolved: output name, type, and where the
    value is read. *)
Record slot := mkSlot {
  slot_name : string;
  slot_type : sqltype;
  slot_side : side;
  slot_pos : nat
}.

Definition resolve_in (sd : side) (T : table) (c : string)
  : pg_error + slot :=
  match col_index c (columns T), col_type c (columns T) with
  | Some i, Some ty => inr (mkSlot c ty sd i)
  | _, _ => inl (UndefinedColumn c)
  end.

(** Resolution against [FROM t]. *)
Definition resolve_single (t : string) (T : table) (c : colref)
  : pg_error + slot :=
  match c with
  | Col c => resolve_in OnRight T c
  | QCol q c => if q =? t then resolve_in OnRight T c
                else inl (UndefinedTable q)
  end.

(** Resolution against [FROM l RIGHT JOIN r]. *)
Definition resolve_join (l r : string) (L R : table) (c : colref)
  : pg_error + slot :=
  match c with
  | QCol q c =>
      if q =? l then resolve_in OnLeft L c
      else if q =? r then resolve_in OnRight R c
      else inl (UndefinedTable q)
  | Col c =>
      match col_index c (columns L), col_index c (columns R) with
      | Some _, Some _ => inl (AmbiguousColumn c)
      | Some _, None => resolve_in OnLeft L c
      | None, Some _ => resolve_in OnRight R c
      | None, None => inl (UndefinedColumn c)
      end
  end.

Fixpoint resolve_all (f : colref -> pg_error + slot) (l : list colref)
  : pg_error + list slot :=
  match l with
  | [] => inr []
  | c :: r =>
      match f c with
      | inl e => inl e
      | inr s =>
          match resolve_all f r with
          | inl e => inl e
          | inr ss => inr (s :: ss)
          end
      end
  end.

(** The value of a slot on a pair (left row, right row). *)
Definition slot_value (s g : list datum) (x : slot) : datum :=
  match slot_side x with
  | OnLeft => cell (slot_pos x) s
  | OnRight => cell (slot_pos x) g
  end.

(** The value of a slot on a right row without partner: left columns are
    NULL. *)
Definition slot_value_unmatched (g : list datum) (x : slot) : datum :=
  match slot_side x with
  | OnLeft => None
  | OnRight => cell (slot_pos x) g
  end.

Definition partners (a b : slot) (Lrows : list (list datum))
  (g : list datum) : list (list datum) :=
  filter (fun s => sql_eqb (slot_value s g a) (slot_value s g b)) Lrows.

(** Rows of [l RIGHT JOIN r ON a = b]: every right row once per partner,
    and once with NULLs when it has none. *)
Definition right_join_rows (sel : list slot) (a b : slot)
  (Lrows Rrows : list (list datum)) : list (list datum) :=
  flat_map
    (fun g =>
       match partners a b Lrows g with
       | [] => [map (slot_value_unmatched g) sel]
       | ms => map (fun s => map (slot_value s g) sel) ms
       end)
    Rrows.

Definition out_columns (sel : list slot) : list (string * sqltype) :=
  map (fun x => (slot_name x, slot_type x)) sel.

Definition check_out_names (sel : list slot)
  (k : pg_error + (list (string * sqltype) * list (list datum)))
  : pg_error + (list (string * sqltype) * list (list datum)) :=
  match first_dup (map slot_name sel) with
  | Some c => inl (DuplicateColumn c)
  | None => k
  end.

Definition eval_select (sel : list colref) (frm : from_clause)
  (db : database)
  : pg_error + (list (string * sqltype) * list (list datum)) :=
  match frm with
  | FromTable t =>
      match get_table db t with
      | None => inl (UndefinedTable t)
      | Some T =>
          match resolve_all (resolve_single t T) sel with
          | inl e => inl e
          | inr ss =>
              check_out_names ss
                (inr (out_columns ss,
                      map (fun g => map (slot_value [] g) ss) (rows T)))
          end
      end
  | RightJoin l r a b =>
      match get_table db l, get_table db r with
      | None, _ => inl (UndefinedTable l)
      | _, None => inl (UndefinedTable r)
      | Some L, Some R =>
          if l =? r then inl (DuplicateAlias l)
          else
            match resolve_all (resolve_join l r L R) sel,
                  resolve_join l r L R a, resolve_join l r L R b with
            | inl e, _, _ => inl e
            | _, inl e, _ => inl e
            | _, _, inl e => inl e
            | inr ss, inr a', inr b' =>
                check_out_names ss
                  (inr (out_columns ss,
                        right_join_rows ss a' b' (rows L) (rows R)))
            end
      end
  end.

(** *** Types and casts *)

Definition is_int_literal (s : string) : bool :=
  match strip s with
  | EmptyString => false
  | String c r =>
      let digits := if (Ascii.eqb c "-" || Ascii.eqb c "+")%bool
                    then r else String c r in
      negb (digits =? EmptyString) && all_chars is_digit digits
  end.

(** Whether a stored value is acceptable for a column type.  A value
    longer than a [varchar(n)] column is refused here; the server refuses
    it too unless all of its excess is blank, in which case it stores the
    value cut to [n] characters: the statements about stored values are
    made for values that fit their column. *)
Definition conforms (ty : sqltype) (v : datum) : bool :=
  match v with
  | None => true
  | Some s =>
      match ty with
      | TInteger | TBigSerial => is_int_literal s
      | TVarchar n => (String.length s <=? n)%nat
      | TText | TGeometry | TGeography => true
      end
  end.

Definition is_spatial (ty : sqltype) : bool :=
  match ty with TGeometry | TGeography => true | _ => false end.

Definition is_integral (ty : sqltype) : bool :=
  match ty with TInteger | TBigSerial => true | _ => false end.

(** Whether [ALTER COLUMN ... TYPE ty] is accepted from type [from];
    text becomes integer only through an explicit [USING] cast. *)
Definition coercible (from ty : sqltype) (using_cast : bool) : bool :=
  match ty with
  | TBigSerial => false
  | TInteger => using_cast && negb (is_spatial from) || is_integral from
  | TText | TVarchar _ => negb (is_spatial from)
  | TGeometry | TGeography => is_spatial from
  end.

Definition cast_error (ty : sqltype) : pg_error :=
  match ty with
  | TVarchar _ => StringDataRightTruncation
  | _ => InvalidTextRepresentation
  end.

Fixpoint set_col_type (c : string) (ty : sqltype)
  (cols : list (string * sqltype)) : list (string * sqltype) :=
  match cols with
  | [] => []
  | (c', ty') :: r =>
      if c' =? c then (c', ty) :: r else (c', ty') :: set_col_type c ty r
  end.

Definition rename_col (old new : string) (cols : list (string * sqltype))
  : list (string * sqltype) :=
  map (fun d => if fst d =? old then (new, snd d) else d) cols.

Definition rename_in_index (t old new : string) (i : index) : index :=
  if (ix_table i =? t) && (ix_column i =? old)
  then mkIndex (ix_name i) (ix_table i) (ix_method i) new (ix_pattern_ops i)
  else i.

(** Value of a freshly added column on the [k]-th stored row: a serial
    column numbers the rows from 1 in storage order, any other column is
    NULL. *)
Definition fresh_value (ty : sqltype) (k : nat) : datum :=
  match ty with
  | TBigSerial => Some (PyStr.str_of_nat (S k))
  | _ => None
  end.

Fixpoint extend_rows (ty : sqltype) (k : nat) (rs : list (list datum))
  : list (list datum) :=
  match rs with
  | [] => []
  | r :: rest => (r ++ [fresh_value ty k]) :: extend_rows ty (S k) rest
  end.

(** A record offered to [COPY]: as many fields as the table has columns,
    each acceptable for its column. *)
Fixpoint record_ok (cols : list (string * sqltype)) (r : list datum) : bool :=
  match cols, r with
  | [], [] => true
  | (_, ty) :: cols', v :: r' => conforms ty v && record_ok cols' r'
  | _, _ => false
  end.

(** What the primary key of a table has against its rows, if anything:
    a NULL or a repeated value in the key column. *)
Definition key_error (T : table) : option pg_error :=
  match pkey T with
  | None => None
  | Some c =>
      match col_index c (columns T) with
      | None => None
      | Some i =>
          if existsb (datum_eqb None) (column_values i T)
          then Some NotNullViolation
          else if nodup_datum (column_values i T) then None
          else Some UniqueViolation
      end
  end.

(** *** Statements *)

(** [run s stdin db]: the effect of a statement whose names are already
    read; [stdin] is the data stream of a [COPY ... FROM STDIN]. *)
Definition run (s : stmt) (stdin : option (list (list datum)))
  (db : database) : pg_error + database :=
  match s with
  | DropTable ife t =>
      match get_table db t with
      | Some _ => inr (del_table db t)
      | None => if ife then inr db else inl (UndefinedTable t)
      end
  | CreateTable t cols =>
      match get_table db t, first_dup (map fst cols) with
      | Some _, _ => inl (DuplicateTable t)
      | None, Some c => inl (DuplicateColumn c)
      | None, None => inr (set_table db t (mkTable cols [] None))
      end
  | CreateTableAs ine t sel frm =>
      match eval_select sel frm db with
      | inl e => inl e
      | inr (cols, rws) =>
          match get_table db t with
          | Some _ => if ine then inr db else inl (DuplicateTable t)
          | None => inr (set_table db t (mkTable cols rws None))
          end
      end
  | RenameColumn t old new =>
      match get_table db t with
      | None => inl (UndefinedTable t)
      | Some T =>
          match col_index old (columns T), col_index new (columns T) with
          | None, _ => inl (UndefinedColumn old)
          | Some _, Some _ => inl (DuplicateColumn new)
          | Some _, None =>
              let T' :=
                mkTable (rename_col old new (columns T)) (rows T)
                  (match pkey T with
                   | Some k => Some (if k =? old then new else k)
                   | None => None
                   end) in
              inr (mkDb (put t T' (tables db))
                        (map (rename_in_index t old new) (indexes db)))
          end
      end
  | AddPrimaryKey t c =>
      match get_table db t with
      | None => inl (UndefinedTable t)
      | Some T =>
          match col_index c (columns T), pkey T with
          | None, _ => inl (UndefinedColumn c)
          | Some _, Some _ => inl InvalidTableDefinition
          | Some i, None =>
              if existsb (datum_eqb None) (column_values i T)
              then inl NotNullViolation
              else if nodup_datum (column_values i T)
              then inr (set_table db t
                          (mkTable (columns T) (rows T) (Some c)))
              else inl UniqueViolation
          end
      end
  | AlterColumnType t c ty u =>
      match get_table db t with
      | None => inl (UndefinedTable t)
      | Some T =>
          match col_index c (columns T), col_type c (columns T) with
          | Some i, Some from =>
              if negb (coercible from ty u) then inl CannotCoerce
              else if forallb (conforms ty) (column_values i T)
              then inr (set_table db t
                          (mkTable (set_col_type c ty (columns T))
                             (rows T) (pkey T)))
              else inl (cast_error ty)
          | _, _ => inl (UndefinedColumn c)
          end
      end
  | AddColumn t c ty =>
      match get_table db t with
      | None => inl (UndefinedTable t)
      | Some T =>
          match col_index c (columns T) with
          | Some _ => inl (DuplicateColumn c)
          | None =>
              inr (set_table db t
                     (mkTable (columns T ++ [(c, ty)])
                        (extend_rows ty 0 (rows T)) (pkey T)))
          end
      end
  | CreateIndex n sch t m c p =>
      if negb (sch =? "public") then inl (InvalidSchemaName sch)
      else
        match get_table db t with
        | None => inl (UndefinedTable t)
        | Some T =>
            match col_index c (columns T) with
            | None => inl (UndefinedColumn c)
            | Some _ =>
                if existsb (fun i => ix_name i =? n) (indexes db)
                   || PyStr.mem n (map fst (tables db))
                then inl (DuplicateTable n)
                else inr (mkDb (tables db)
                            (indexes db ++ [mkIndex n t m c p]))
            end
        end
  | CopyFromStdin t =>
      match stdin, get_table db t with
      | None, _ => inl CopyWithoutStdin
      | Some _, None => inl (UndefinedTable t)
      | Some recs, Some T =>
          if forallb (record_ok (columns T)) recs
          then
            let T' := mkTable (columns T) (rows T ++ recs) (pkey T) in
            match key_error T' with
            | Some e => inl e
            | None => inr (set_table db t T')
            end
          else inl BadCopyFileFormat
      end
  end.

(** What the server does with one statement of the script. *)
Definition execute (s : stmt) (stdin : option (list (list datum)))
  (db : database) : pg_error + database :=
  match lex_stmt s with
  | None => inl SyntaxError
  | Some s' => run s' stdin db
  end.

(** *** The converter ([ogr2ogr -f PostgreSQL ... -nln t -append])

    A layer is what the converter reads from one source file: whether it
    has geometry, its field names, and per feature the geometry and the
    field values. *)

Record layer := mkLayer {
  has_geometry : bool;
  fields : list string;
  features : list (datum * list datum)
}.

Fixpoint index_of (x : string) (l : list string) : option nat :=
  match l with
  | [] => None
  | y :: r => if y =? x then Some 0 else option_map S (index_of x r)
  end.

(** The columns of the table the converter creates for a layer. *)
Definition layer_columns (ly : layer) : list (string * sqltype) :=
  ("ogc_fid", TInteger)
    :: (if has_geometry ly then [("wkb_geometry", TGeometry)] else [])
    ++ map (fun f => (f, TText)) (fields ly).

(** The row stored for a feature: the serial identity, the geometry, and
    the fields matched to the table's columns by name. *)
Definition feature_row (cols : list (string * sqltype)) (fs : list string)
  (fid : nat) (ft : datum * list datum) : list datum :=
  map (fun d =>
         if fst d =? "ogc_fid" then Some (PyStr.str_of_nat fid)
         else if fst d =? "wkb_geometry" then fst ft
         else match index_of (fst d) fs with
              | Some i => nth i (snd ft) None
              | None => None
              end)
      cols.

Fixpoint feature_rows (cols : list (string * sqltype)) (fs : list string)
  (fid : nat) (fts : list (datum * list datum)) : list (list datum) :=
  match fts with
  | [] => []
  | ft :: r => feature_row cols fs fid ft :: feature_rows cols fs (S fid) r
  end.

(** Appending a layer to table [t], created when it does not exist. *)
Definition append_layer (ly : layer) (t : string) (db : database)
  : database :=
  let T := match get_table db t with
           | Some T => T
           | None => mkTable (layer_columns ly) [] (Some "ogc_fid")
           end in
  set_table db t
    (mkTable (columns T)
       (rows T ++ feature_rows (columns T) (fields ly)
                    (S (List.length (rows T))) (features ly))
       (pkey T)).

End Engine.

(* ================================================================== *)
(** ** Python exceptions and the monad of the script *)

Module Py.

Inductive exn :=
| NameError (name : string)
| UnboundLocalError (name : string)
| TypeError (msg : string)
| AttributeError (attr : string)
| IndexError
| KeyError (key : string)
| FileNotFoundError (path : string)
| BadZipFile
| UnicodeDecodeError
| OperationalError
| DatabaseError (e : Engine.pg_error).

(** A computation on a state [S]: it returns a value or raises, and the
    state it leaves is kept in both cases. *)
Definition M (S A : Type) : Type := S -> (exn + A) * S.

Definition ret {S A : Type} (a : A) : M S A := fun s => (inr a, s).

Definition raise {S A : Type} (e : exn) : M S A := fun s => (inl e, s).

Definition bind {S A B : Type} (m : M S A) (k : A -> M S B) : M S B :=
  fun s =>
    match m s with
    | (inl e, s') => (inl e, s')
    | (inr a, s') => k a s'
    end.

(** An outcome computed without touching the state. *)
Definition of_result {S A : Type} (r : exn + A) : M S A := fun s => (r, s).

Definition get {S : Type} : M S S := fun s => (inr s, s).

Definition modify {S : Type} (f : S -> S) : M S unit := fun s => (inr tt, f s).

(** [try: body / except Exception as error: handler error]. *)
Definition try_except {S A : Type} (body : M S A) (handler : exn -> M S A)
  : M S A :=
  fun s =>
    match body s with
    | (inl e, s') => handler e s'
    | (inr a, s') => (inr a, s')
    end.

(** [try: body / finally: final]: [final] runs on both exits; what it
    raises replaces the outcome of [body]. *)
Definition try_finally {S A : Type} (body : M S A) (final : M S unit)
  : M S A :=
  fun s =>
    match body s with
    | (r, s') =>
        match final s' with
        | (inl e, s'') => (inl e, s'')
        | (inr _, s'') => (r, s'')
        end
    end.

(** [for x in l: body x]. *)
Fixpoint for_each {S B : Type} (l : list B) (body : B -> M S unit)
  : M S unit :=
  match l with
  | [] => ret tt
  | x :: r => bind (body x) (fun _ => for_each r body)
  end.

(** Running a computation on a part of the state. *)
Definition zoom {S T A : Type} (proj : T -> S) (inj : S -> T -> T)
  (m : M S A) : M T A :=
  fun t => match m (proj t) with (r, s') => (r, inj s' t) end.

End Py.

Declare Scope py_scope.
Delimit Scope py_scope with py.
Notation "x <- m ;; k" := (Py.bind m (fun x => k))
  (at level 61, m at next level, right associativity) : py_scope.
Notation "m ;; k" := (Py.bind m (fun _ => k))
  (at level 61, right associativity) : py_scope.
Open Scope py_scope.

(* ================================================================== *)
(** ** The world of the script *)

Module Env.
Import Sql Engine Py.

(** An archive entry: a shapefile (field names, and per feature its
    geometry and field values), a delimited text file given by its
    records, an archive of its own, or anything else. *)
#[warnings="-register-all"]
Inductive entry :=
| Shapefile (fs : list string) (fts : list (datum * list datum))
| Delimited (records : list (list datum))
| Nested (entries : list (string * entry))
| Opaque.

Definition archive := list (string * entry).

Inductive file_data :=
| TextData (content : string)
| ZipData (a : archive)
| OtherData.

(** The converter's command line: the source as a [/vsizip/] path (how
    many archive levels, then the path components below the working
    directory), the layer name [-nln], the geometry type [-nlt], [-append]
    and the target reference system [-t_srs]. *)
Record ogr2ogr := mkOgr {
  vsizip_depth : nat;
  source : list string;
  nln : string;
  nlt : option string;
  append : bool;
  t_srs : option string
}.

Inductive output :=
| Text (s : string)
| Error (e : exn).

Record world := mkWorld {
  workdir : option (list (string * file_data));
  gdrive : list (string * file_data);
  server_up : bool;
  db : database;
  next_conn : nat;
  open_conns : list nat;
  stdout : list output;
  sql_log : list stmt;
  system_log : list ogr2ogr
}.

Definition with_workdir (d : option (list (string * file_data))) (w : world)
  : world :=
  mkWorld d (gdrive w) (server_up w) (db w) (next_conn w) (open_conns w)
    (stdout w) (sql_log w) (system_log w).

Definition with_db (d : database) (w : world) : world :=
  mkWorld (workdir w) (gdrive w) (server_up w) d (next_conn w)
    (open_conns w) (stdout w) (sql_log w) (system_log w).

Definition with_conns (n : nat) (o : list nat) (w : world) : world :=
  mkWorld (workdir w) (gdrive w) (server_up w) (db w) n o
    (stdout w) (sql_log w) (system_log w).

Definition with_stdout (o : list output) (w : world) : world :=
  mkWorld (workdir w) (gdrive w) (server_up w) (db w) (next_conn w)
    (open_conns w) o (sql_log w) (system_log w).

Definition with_sql_log (l : list stmt) (w : world) : world :=
  mkWorld (workdir w) (gdrive w) (server_up w) (db w) (next_conn w)
    (open_conns w) (stdout w) l (system_log w).

Definition with_system_log (l : list ogr2ogr) (w : world) : world :=
  mkWorld (workdir w) (gdrive w) (server_up w) (db w) (next_conn w)
    (open_conns w) (stdout w) (sql_log w) l.

(** *** Paths *)

(** What the script uses as a directory: a [str], which is what the module
    assigns to [DATASETS_DIR], or a path object ([pathlib.Path]). *)
Inductive pathlike :=
| StrObject (text : string)
| PathObject (text : string).

Definition path_text (p : pathlike) : string :=
  match p with
  | StrObject s => s
  | PathObject s => s
  end.

(** [base / name]: a path object has the operator, a [str] has not.  The
    working directory of the world stands for [base], so that the result
    is the name inside it. *)
Definition path_div (base : pathlike) (name : string) : M world string :=
  match base with
  | PathObject _ => ret name
  | StrObject _ =>
      raise (TypeError "unsupported operand type(s) for /: 'str' and 'str'")
  end.

(** *** Builtins and [os] *)

Definition print (s : string) : M world unit :=
  modify (fun w => with_stdout (stdout w ++ [Text s]) w).

Definition print_error (e : exn) : M world unit :=
  modify (fun w => with_stdout (stdout w ++ [Error e]) w).

(** [os.makedirs(base_path, exist_ok=True)]. *)
Definition os_makedirs : M world unit :=
  modify (fun w => match workdir w with
                   | Some _ => w
                   | None => with_workdir (Some []) w
                   end).

(** [os.listdir(base_path)]. *)
Definition os_listdir (base : string) : M world (list string) :=
  fun w => match workdir w with
           | Some d => (inr (map fst d), w)
           | None => (inl (FileNotFoundError base), w)
           end.

(** [os.remove(p)] for a file [p] of the working directory. *)
Definition os_remove (f : string) : M world unit :=
  fun w => match workdir w with
           | Some d =>
               match lookup f d with
               | Some _ => (inr tt, with_workdir (Some (remove f d)) w)
               | None => (inl (FileNotFoundError f), w)
               end
           | None => (inl (FileNotFoundError f), w)
           end.

(** Writing a file into the working directory. *)
Definition write_file (f : string) (c : file_data) : M world unit :=
  fun w => match workdir w with
           | Some d => (inr tt, with_workdir (Some (put f c d)) w)
           | None => (inl (FileNotFoundError f), w)
           end.

(** [open(p)] for a file [p] of the working directory, followed by
    reading the whole text. *)
Definition open_text (f : string) : M world string :=
  fun w => match workdir w with
           | Some d =>
               match lookup f d with
               | Some (TextData c) => (inr c, w)
               | Some _ => (inl UnicodeDecodeError, w)
               | None => (inl (FileNotFoundError f), w)
               end
           | None => (inl (FileNotFoundError f), w)
           end.

(** *** [zipfile] *)

(** [ZipFile(p, 'r')] for a file [p] of the working directory. *)
Definition zip_open (f : string) : M world archive :=
  fun w => match workdir w with
           | Some d =>
               match lookup f d with
               | Some (ZipData a) => (inr a, w)
               | Some _ => (inl BadZipFile, w)
               | None => (inl (FileNotFoundError f), w)
               end
           | None => (inl (FileNotFoundError f), w)
           end.

Definition namelist (a : archive) : list string := map fst a.

(** [z.open(name)]. *)
Definition zip_entry (a : archive) (name : string) : M world entry :=
  match lookup name a with
  | Some e => ret e
  | None => raise (KeyError name)
  end.

(** [ZipFile(zp, 'r')] on an opened entry. *)
Definition zip_open_entry (e : entry) : M world archive :=
  match e with
  | Nested a => ret a
  | _ => raise BadZipFile
  end.

(** *** The converter, through [os.system] *)

Definition resolve_source (d : list (string * file_data)) (depth : nat)
  (path : list string) : option entry :=
  match depth, path with
  | 1, [z; f] =>
      match lookup z d with
      | Some (ZipData a) => lookup f a
      | _ => None
      end
  | 2, [z; n; f] =>
      match lookup z d with
      | Some (ZipData a) =>
          match lookup n a with
          | Some (Nested b) => lookup f b
          | _ => None
          end
      | _ => None
      end
  | _, _ => None
  end.

Definition generic_fields (n : nat) : list string :=
  map (fun j => ("field_" ++ PyStr.str_of_nat (S j))%string) (seq 0 n).

(** The layer the converter finds in an entry: shapefile fields are
    laundered to lower case; a delimited file without header line gets
    the generic field names, as many as its first record has fields. *)
Definition layer_of (e : entry) : option layer :=
  match e with
  | Shapefile fs fts => Some (mkLayer true (map PyStr.lower fs) fts)
  | Delimited recs =>
      Some (mkLayer false
              (generic_fields (List.length (hd [] recs)))
              (map (fun r => (None, r)) recs))
  | _ => None
  end.

(** What one converter run does to the store; a run that fails (source
    not found or unreadable, server unreachable, existing layer without
    [-append]) changes nothing. *)
Definition converter (c : ogr2ogr) (w : world) : database :=
  match workdir w with
  | Some d =>
      match resolve_source d (vsizip_depth c) (source c) with
      | Some e =>
          match layer_of e with
          | Some ly =>
              if server_up w
                 && (append c
                     || match get_table (db w) (nln c) with
                        | None => true
                        | Some _ => false
                        end)
              then append_layer ly (nln c) (db w)
              else db w
          | None => db w
          end
      | None => db w
      end
  | None => db w
  end.

(** [os.system(command)]: blocks until the converter ends; its exit
    status is the discarded return value. *)
Definition os_system (c : ogr2ogr) : M world unit :=
  modify (fun w =>
            with_system_log (system_log w ++ [c])
              (with_db (converter c w) w)).

(** *** [psycopg2] *)

(** [psycopg2.connect(...)]. *)
Definition connect : M world nat :=
  fun w =>
    if server_up w
    then (inr (next_conn w),
          with_conns (S (next_conn w)) (next_conn w :: open_conns w) w)
    else (inl OperationalError, w).

(** [conn.close()]: closing twice is allowed. *)
Definition conn_close (h : nat) : M world unit :=
  modify (fun w =>
            with_conns (next_conn w)
              (filter (fun h' => negb (h' =? h)%nat) (open_conns w)) w).

(** One statement on the server, with its input stream if any. *)
Definition server_execute (s : stmt) (stdin : option (list (list datum)))
  : M world unit :=
  fun w =>
    match execute s stdin (db w) with
    | inl e => (inl (DatabaseError e), w)
    | inr d => (inr tt, with_sql_log (sql_log w ++ [s]) (with_db d w))
    end.

(** [cursor.execute(command)]: the statements of one string, in order. *)
Definition cursor_execute (c : command) : M world unit :=
  for_each c (fun s => server_execute s None).

(** [cursor.copy_expert(sql, file)]: one [COPY] fed from [file]. *)
Definition copy_expert (c : command) (file : list (list datum))
  : M world unit :=
  match c with
  | [s] => server_execute s (Some file)
  | _ => raise (DatabaseError SyntaxError)
  end.

End Env.

(* ================================================================== *)
(** ** The script *)

Module Script.
Import Sql Engine Py Env.

(** *** Module-level names

    The configuration constants are the placeholders of the source.
    [DATASETS_DIR] is a [str]; it names the working directory of the
    world. *)

Definition DATASETS_DIR : string := "{path to dataset}".
Definition GDRIVE_TEAM_ID : string :=
  "gdrive id for the team id that data are downloaded from".
Definition GDRIVE_FOLDER_ID : string :=
  "gdrive id for the folder containing postcode data".

(** Values passed to the module's functions. *)
Inductive pyvalue :=
| PyNone
| PyStr (s : string)
| PyPath (s : string)
| PySql (c : command)
| PyTuple (b : batch)
| PyStream (records : list (list datum)).

(** A [def]: its positional parameters and its body. *)
Record pyfunction := mkFun {
  fn_params : list string;
  fn_body : list pyvalue -> M world pyvalue
}.

(** What a module-level name is bound to: a function, or something that
    is not one (an imported module or class, a constant, a class). *)
Inductive binding :=
| BFunction (f : pyfunction)
| BObject.

Definition globals := list (string * binding).

(** A call [name(args)] from a method: the name is looked up in the
    module's globals when the call is evaluated, then the arguments are
    bound to the parameters, none of which has a default. *)
Definition call_global (g : globals) (name : string) (args : list pyvalue)
  : M world pyvalue :=
  match lookup name g with
  | None => raise (NameError name)
  | Some BObject => raise (TypeError "object is not callable")
  | Some (BFunction f) =>
      if (List.length args =? List.length (fn_params f))%nat
      then fn_body f args
      else raise (TypeError "wrong number of positional arguments")
  end.

(** [create_service()]: authentication against the remote drive, which
    leaves the world of this model unchanged. *)
Definition create_service : M world unit := ret tt.

(** A directory as an argument of a call. *)
Definition dir_value (p : pathlike) : pyvalue :=
  match p with
  | StrObject s => PyStr s
  | PathObject s => PyPath s
  end.

(** [download_gdrive_folder(folder_id, dest_path, team_drive_id)]: every
    file listed in the remote folder is written to [dest_path / title]. *)
Definition download_gdrive_folder (folder_id : string) (dest_path : pathlike)
  (team_drive_id : string) : M world unit :=
  create_service ;;
  gdrive_list <- (fun w => (inr (gdrive w), w)) ;;
  for_each gdrive_list (fun file_i =>
    f <- path_div dest_path (fst file_i) ;;
    write_file f (snd file_i)).

(** The frame of [copy_from_csv]: its local [conn], [None] while the
    name is still unbound (which is not Python's [None]). *)
Definition frame : Type := option nat * world.

Definition lift {A : Type} (m : M world A) : M frame A :=
  zoom snd (fun w' s => (fst s, w')) m.

Definition store_conn (h : nat) : M frame unit :=
  modify (fun s => (Some h, snd s)).

Definition load_conn : M frame nat :=
  fun s => match fst s with
           | Some h => (inr h, s)
           | None => (inl (UnboundLocalError "conn"), s)
           end.

Definition in_frame {A : Type} (m : M frame A) : M world A :=
  fun w => match m (None, w) with (r, s) => (r, snd s) end.

(** [copy_from_csv(sql_command, csv_file)]. *)
Definition copy_from_csv (sql_command : command)
  (csv_file : list (list datum)) : M world unit :=
  in_frame
    (try_finally
       (try_except
          ((* conn = psycopg2.connect(...) *)
           h <- lift connect ;;
           store_conn h ;;
           (* cursor = conn.cursor(); cursor.copy_expert(sql_command, csv_file) *)
           lift (copy_expert sql_command csv_file) ;;
           (* cursor.close(); conn.commit(); conn.close() *)
           conn <- load_conn ;;
           lift (conn_close conn))
          ((* except (Exception, psycopg2.DatabaseError) as error *)
           fun error => lift (print_error error)))
       ((* finally: if conn is not None: conn.close() *)
        conn <- load_conn ;;
        lift (conn_close conn))).

(** The names the module binds, in source order, up to the class
    definition. *)
Definition module_globals : globals :=
  [ ("os", BObject); ("ZipFile", BObject); ("config", BObject);
    ("GoogleAuth", BObject); ("GoogleDrive", BObject);
    ("psycopg2", BObject);
    ("DATASETS_DIR", BObject); ("GDRIVE_SETTINGS_FILE", BObject);
    ("GDRIVE_TEAM_ID", BObject); ("GDRIVE_FOLDER_ID", BObject);
    ("DB_HOST", BObject); ("DB_PORT", BObject); ("DB_USER", BObject);
    ("DB_PASS", BObject); ("DB_NAME", BObject); ("DB_CONN_STR", BObject);
    ("create_service",
     BFunction (mkFun [] (fun _ => create_service ;; ret PyNone)));
    ("download_gdrive_folder",
     BFunction
       (mkFun ["folder_id"; "dest_path"; "team_drive_id"]
          (fun args =>
             match args with
             | [PyStr a; PyStr b; PyStr c] =>
                 download_gdrive_folder a (StrObject b) c ;; ret PyNone
             | [PyStr a; PyPath b; PyStr c] =>
                 download_gdrive_folder a (PathObject b) c ;; ret PyNone
             | _ => raise (TypeError "unsupported operand")
             end)));
    ("copy_from_csv",
     BFunction
       (mkFun ["sql_command"; "csv_file"]
          (fun args =>
             match args with
             | [PySql c; PyStream f] => copy_from_csv c f ;; ret PyNone
             | _ => raise (TypeError "unsupported operand")
             end)));
    ("PostcodeParser", BObject) ].

(** Modelled from the spec: the statement-batch primitive
    [exec_sql_statements], which the script calls and does not define.
    It "executes an ordered batch of statements as one logical unit,
    surfacing the first failure and aborting remaining statements in the
    batch"; "every database interaction opens a dedicated connection,
    executes its batch or copy operation, and closes the connection before
    returning"; statements applied before a failure persist ("all
    previously-applied casts on other columns retained"); "failures are
    logged and re-raised to the caller". *)
Definition exec_sql_statements (b : batch) : M world unit :=
  try_except
    (conn <- connect ;;
     try_finally (for_each b cursor_execute) (conn_close conn))
    (fun error => print_error error ;; raise error).

(** The module's globals with that primitive bound. *)
Definition globals_with_loader : globals :=
  module_globals ++
  [ ("exec_sql_statements",
     BFunction
       (mkFun ["sql_commands"]
          (fun args =>
             match args with
             | [PyTuple b] => exec_sql_statements b ;; ret PyNone
             | _ => raise (TypeError "unsupported operand")
             end))) ].

(** *** The class [PostcodeParser] *)

(** The instance attributes; [zip_file] and [header_file] exist only once
    [prepare] has assigned them. *)
Record PostcodeParser := mkParser {
  base_path : pathlike;
  staging_table : string;
  geom_table : string;
  target_table : string;
  vstreet_table : string;
  vstreet_target : string;
  folder_id : string;
  team_drive_id : string;
  zip_file : option string;
  header_file : option string
}.

(** [__init__]. *)
Definition init : PostcodeParser :=
  mkParser (StrObject DATASETS_DIR) "postcode_staging" "postcode_polygons"
    "postcode"
    "vstreet_table" "vstreetlookup" GDRIVE_FOLDER_ID GDRIVE_TEAM_ID
    None None.

Definition set_zip_file (z : string) (self : PostcodeParser) : PostcodeParser :=
  mkParser (base_path self) (staging_table self) (geom_table self)
    (target_table self) (vstreet_table self) (vstreet_target self)
    (folder_id self) (team_drive_id self) (Some z) (header_file self).

Definition set_header_file (z : string) (self : PostcodeParser)
  : PostcodeParser :=
  mkParser (base_path self) (staging_table self) (geom_table self)
    (target_table self) (vstreet_table self) (vstreet_target self)
    (folder_id self) (team_drive_id self) (zip_file self) (Some z).

(** Reading an attribute that may not have been assigned. *)
Definition attr {A : Type} (name : string) (v : option A) : M world A :=
  match v with
  | Some a => ret a
  | None => raise (AttributeError name)
  end.

(** The loop of [prepare] over the directory listing. *)
Definition scan_listing (names : list string) (self : PostcodeParser)
  : PostcodeParser :=
  fold_left
    (fun self z =>
       let self := if PyStr.endswith z ".zip" then set_zip_file z self
                   else self in
       if PyStr.endswith z ".csv" then set_header_file z self else self)
    names self.

(** [prepare(self)]; the object as the call leaves it is returned with
    the result. *)
Definition prepare (g : globals) (self : PostcodeParser)
  : M world (PostcodeParser * (bool * string)) :=
  os_makedirs ;;
  call_global g "download_gdrive_folder"
    [PyStr (folder_id self); dir_value (base_path self)] ;;
  names <- os_listdir (path_text (base_path self)) ;;
  ret (scan_listing names self, (false, EmptyString)).

(** The final batch of [parse_polys]. *)
Definition polys_commands (self : PostcodeParser) : batch :=
  [ [RenameColumn (staging_table self) "ogc_fid" "id"];
    [RenameColumn (staging_table self) "wkb_geometry" "polygon"];
    [CreateTableAs true (geom_table self)
       [Col "id"; Col "postcode"; Col "pc_area"; Col "polygon"]
       (FromTable (staging_table self))];
    [AddPrimaryKey (geom_table self) "id"];
    [AlterColumnType (geom_table self) "polygon" TGeography false];
    [DropTable false (staging_table self)] ].

(** The [with] block of [parse_polys]: the loop over the nested
    archives and their shapefiles. *)
Definition polys_ingest (g : globals) (self : PostcodeParser) : M world unit :=
  zf <- attr "zip_file" (zip_file self) ;;
  zip_path <- path_div (base_path self) zf ;;
  z <- zip_open zip_path ;;
  let ZIP_FILES := filter (fun f => PyStr.endswith f ".zip") (namelist z) in
  for_each ZIP_FILES (fun z_file =>
    zp <- zip_entry z z_file ;;
    z_shp <- zip_open_entry zp ;;
    let SHP_FILES :=
      filter (fun f => PyStr.endswith f ".shp") (namelist z_shp) in
    call_global g "exec_sql_statements"
      [PyTuple [[DropTable true (staging_table self)]]] ;;
    (* SHP_DIR = self.base_path / self.zip_file / z_file and
       FILE_PATH = SHP_DIR / file: the operator on the base on which the
       [with] line has applied it *)
    for_each SHP_FILES (fun file =>
      print ("Parsing Postcode >> " ++ file)%string ;;
      os_system (mkOgr 2 [zf; z_file; file] (staging_table self)
                   (Some "MULTIPOLYGON") true (Some "EPSG:4326")))).

(** [parse_polys(self)]. *)
Definition parse_polys (g : globals) (self : PostcodeParser) : M world unit :=
  polys_ingest g self ;;
  print "renaming columns..." ;;
  call_global g "exec_sql_statements" [PyTuple (polys_commands self)] ;;
  ret tt.

(** The names left out of the final projection in [parse_info]. *)
Definition excluded : list string :=
  ["postcode"; "eastings"; "northings";
   "delivery_points_used_to_create_the_cplc"].

(** One round of the loop [for j in range(len(column_names))]: the
    accumulators are [SQL_COMMANDS] and [fields]. *)
Definition mapping_step (self : PostcodeParser) (column_names : list string)
  (acc : batch * list colref) (j : nat) : batch * list colref :=
  let name := PyStr.lower (nth j column_names EmptyString) in
  let cmds :=
    fst acc ++
    [[RenameColumn (staging_table self)
        ("field_" ++ PyStr.str_of_nat (j + 1))%string name]] in
  if negb (PyStr.mem name excluded)
  then (cmds, snd acc ++ [QCol (staging_table self) name])
  else (cmds, snd acc).

(** The rename commands and the select list [fields] that [parse_info]
    builds from the column names. *)
Definition mapping_plan (self : PostcodeParser) (column_names : list string)
  : batch * list colref :=
  let acc :=
    fold_left (mapping_step self column_names)
      (seq 0 (List.length column_names))
      ([], [QCol (geom_table self) "id"; QCol (geom_table self) "postcode";
            QCol (geom_table self) "pc_area"]) in
  (fst acc, snd acc ++ [QCol (geom_table self) "polygon"]).

(** The statements [parse_info] appends after the renames. *)
Definition merge_commands (self : PostcodeParser) (fields : list colref)
  : batch :=
  let t := target_table self in
  [ [DropTable true t];
    [CreateTableAs false t fields
       (RightJoin (staging_table self) (geom_table self)
          (QCol (geom_table self) "postcode")
          (QCol (staging_table self) "postcode"))];
    [AlterColumnType t "positional_quality_indicator" TInteger true];
    [AlterColumnType t "po_box_indicator" (TVarchar 2) false];
    [AlterColumnType t "total_number_of_delivery_points" TInteger true];
    [AlterColumnType t "domestic_delivery_points" TInteger true];
    [AlterColumnType t "non_domestic_delivery_points" TInteger true];
    [AlterColumnType t "po_box_delivery_points" TInteger true];
    [AlterColumnType t "matched_address_premises" TInteger true];
    [AlterColumnType t "unmatched_delivery_points" TInteger true];
    [AlterColumnType t "country_code" (TVarchar 16) false];
    [AlterColumnType t "nhs_regional_ha_code" (TVarchar 16) false];
    [AlterColumnType t "nhs_ha_code" (TVarchar 16) false];
    [AlterColumnType t "admin_county_code" (TVarchar 16) false];
    [AlterColumnType t "admin_district_code" (TVarchar 16) false];
    [AlterColumnType t "admin_ward_code" (TVarchar 16) false];
    [AlterColumnType t "postcode_type" (TVarchar 2) false];
    [AddPrimaryKey t "id"];
    [DropTable false (geom_table self)];
    [DropTable false (staging_table self)] ].

(** The whole batch of [parse_info]. *)
Definition info_commands (self : PostcodeParser) (column_names : list string)
  : batch :=
  let plan := mapping_plan self column_names in
  fst plan ++ merge_commands self (snd plan).

(** [header_file.readlines()[-1].split(',')]. *)
Definition header_columns (content : string) : exn + list string :=
  match PyStr.last_item (PyStr.readlines content) with
  | Some line => inr (PyStr.split "," line)
  | None => inl IndexError
  end.

(** The first part of [parse_info]: the header file, then the [with]
    block up to the loop over the attribute files. *)
Definition info_ingest (g : globals) (self : PostcodeParser)
  : M world (list string) :=
  hf <- attr "header_file" (header_file self) ;;
  header_path <- path_div (base_path self) hf ;;
  content <- open_text header_path ;;
  column_names <- of_result (header_columns content) ;;
  zf <- attr "zip_file" (zip_file self) ;;
  zip_path <- path_div (base_path self) zf ;;
  z <- zip_open zip_path ;;
  let CSV_FILES :=
    filter (fun f => PyStr.endswith f ".csv"
                     && PyStr.startswith f "Code-Point/Data/CSV")
      (namelist z) in
  call_global g "exec_sql_statements"
    [PyTuple [[DropTable true (staging_table self)]]] ;;
  (* FILE_PATH = self.base_path / self.zip_file / csv_file: the operator on
     the base on which the [with] line has applied it *)
  for_each CSV_FILES (fun csv_file =>
    print ("Parsing Postcode >> " ++ csv_file)%string ;;
    os_system (mkOgr 1 [zf; csv_file] (staging_table self) None true None)) ;;
  ret column_names.

(** [parse_info(self)]. *)
Definition parse_info (g : globals) (self : PostcodeParser) : M world unit :=
  column_names <- info_ingest g self ;;
  print "merging tables..." ;;
  call_global g "exec_sql_statements"
    [PyTuple (info_commands self column_names)] ;;
  ret tt.

(** The batches of [parse_vstreets]. *)
Definition vstreets_drop (self : PostcodeParser) : batch :=
  [ [DropTable true (vstreet_table self);
     DropTable true (vstreet_target self)] ].

Definition vstreets_create (self : PostcodeParser) : batch :=
  [ [CreateTable (vstreet_table self)
       [("postcode", TVarchar 8); ("vstreet_ref", TVarchar 8)]] ].

Definition vstreets_clean (self : PostcodeParser) : batch :=
  [ [AddColumn (vstreet_table self) "id" TBigSerial];
    [CreateTableAs false (vstreet_target self)
       [Col "id"; Col "postcode"; Col "vstreet_ref"]
       (FromTable (vstreet_table self))];
    [AddPrimaryKey (vstreet_target self) "id"] ].

Definition vstreets_final (self : PostcodeParser) : batch :=
  [ [DropTable false (vstreet_table self)] ].

(** What [z.open(txt_file)] yields to the copy: the records of a
    delimited entry; any other entry holds no record the copy can read. *)
Definition stream_of (e : entry) : list (list datum) :=
  match e with
  | Delimited recs => recs
  | _ => []
  end.

(** [parse_vstreets(self)]. *)
Definition parse_vstreets (g : globals) (self : PostcodeParser)
  : M world unit :=
  zf <- attr "zip_file" (zip_file self) ;;
  zip_path <- path_div (base_path self) zf ;;
  z <- zip_open zip_path ;;
  let TXT_FILES :=
    filter (fun f => PyStr.endswith f ".TXT"
                     && PyStr.startswith f "Polygons/Data/VERTICAL_STREETS")
      (namelist z) in
  call_global g "exec_sql_statements" [PyTuple (vstreets_drop self)] ;;
  call_global g "exec_sql_statements" [PyTuple (vstreets_create self)] ;;
  for_each TXT_FILES (fun txt_file =>
    txt <- zip_entry z txt_file ;;
    call_global g "copy_from_csv"
      [PySql [CopyFromStdin (vstreet_table self)]; PyStream (stream_of txt)] ;;
    ret tt) ;;
  call_global g "exec_sql_statements" [PyTuple (vstreets_clean self)] ;;
  call_global g "exec_sql_statements" [PyTuple (vstreets_final self)] ;;
  ret tt.

(** The batch of [index_tables]: its statements name their tables and
    indexes literally. *)
Definition index_commands : batch :=
  [ [CreateIndex "core_postcode_polygon_id" "public" "core_postcode"
       Gist "polygon" false];
    [CreateIndex "core_postcode_postcode_36243775" "public" "core_postcode"
       Btree "postcode" false];
    [CreateIndex "core_postcode_postcode_36243775_like" "public"
       "core_postcode" Btree "postcode" true];
    [CreateIndex "core_vstreetlookup_postcode_4a092989" "public"
       "core_vstreetlookup" Btree "postcode" false];
    [CreateIndex "core_vstreetlookup_postcode_4a092989_like" "public"
       "core_vstreetlookup" Btree "postcode" true];
    [CreateIndex "core_vstreetlookup_vstreet_ref_b613262c" "public"
       "core_vstreetlookup" Btree "vstreet_ref" false];
    [CreateIndex "core_vstreetlookup_vstreet_ref_b613262c_like" "public"
       "core_vstreetlookup" Btree "vstreet_ref" true] ].

(** [index_tables(self)]. *)
Definition index_tables (g : globals) (self : PostcodeParser) : M world unit :=
  call_global g "exec_sql_statements" [PyTuple index_commands] ;;
  ret tt.

(** [cleanup(self)]. *)
Definition cleanup (self : PostcodeParser) : M world unit :=
  names <- os_listdir (path_text (base_path self)) ;;
  for_each names (fun f =>
    p <- path_div (base_path self) f ;;
    os_remove p).

(** *** The orchestrator *)

Inductive stage :=
| Prepare | GeometryIngest | AttributeIngest | StreetIngest | Index | Cleanup.


(** A method call made by [parse]: the callee runs on the world, and the
    call is recorded in the list of stages entered so far. *)
Definition enter {A : Type} (s : stage) (m : M world A)
  : M (list stage * world) A :=
  fun st =>
    match m (snd st) with
    | (r, w') => (r, (fst st ++ [s], w'))
    end.

Section Orchestrator.

(** The methods [parse] calls on [self]. *)
Variable prepare_m :
  PostcodeParser -> M world (PostcodeParser * (bool * string)).
Variables polys_m info_m vstreets_m index_m cleanup_m :
  PostcodeParser -> M world unit.

(** [parse(self)]. *)
Definition parse_with (self : PostcodeParser)
  : M (list stage * world) (bool * string) :=
  r <- enter Prepare (prepare_m self) ;;
  let self := fst r in
  if fst (snd r) then ret (snd r)
  else
    enter GeometryIngest (polys_m self) ;;
    enter AttributeIngest (info_m self) ;;
    enter StreetIngest (vstreets_m self) ;;
    enter Index (index_m self) ;;
    enter Cleanup (cleanup_m self) ;;
    ret (false, EmptyString).

End Orchestrator.

(** [parse] of the class, with the methods the class defines. *)
Definition parse (g : globals) (self : PostcodeParser)
  : M (list stage * world) (bool * string) :=
  parse_with (prepare g) (parse_polys g) (parse_info g) (parse_vstreets g)
    (index_tables g) cleanup self.

End Script.

(* ================================================================== *)
(** ** Observations used to state the properties *)

Module Obs.
Import Sql Engine Py Env Script.

(** An instance as [__init__] builds it but for [base_path], which is a
    path object here, as every [self.base_path / name] of the stages needs;
    the two attributes that [prepare] assigns are given explicitly. *)
Definition instance (zf hf : option string) : PostcodeParser :=
  mkParser (PathObject DATASETS_DIR) (staging_table init) (geom_table init)
    (target_table init) (vstreet_table init) (vstreet_target init)
    (folder_id init) (team_drive_id init) zf hf.

(** The statements of a batch, in the order the server receives them. *)
Definition statements (b : batch) : list stmt := concat b.

(** The (generic name, target name) pairs of the renames of a batch. *)
Definition rename_pairs (b : batch) : list (string * string) :=
  flat_map (fun s => match s with
                     | RenameColumn _ old new => [(old, new)]
                     | _ => []
                     end)
           (statements b).

(** The columns a select list takes from table [t]. *)
Definition columns_from (t : string) (sel : list colref) : list string :=
  flat_map (fun c => match c with
                     | QCol q c => if q =? t then [c] else []
                     | Col _ => []
                     end)
           sel.

(** The tables on which a batch creates indexes. *)
Definition indexed_tables (b : batch) : list string :=
  flat_map (fun s => match s with
                     | CreateIndex _ _ t _ _ _ => [t]
                     | _ => []
                     end)
           (statements b).

(** The server running a list of statements in order, stopping at the
    first error. *)
Fixpoint exec_all (l : list stmt) (d : database) : pg_error + database :=
  match l with
  | [] => inr d
  | s :: r =>
      match execute s None d with
      | inl e => inl e
      | inr d' => exec_all r d'
      end
  end.

(** The value of column [c] in a row of table [T]. *)
Definition field (T : table) (c : string) (r : list datum) : datum :=
  match col_index c (columns T) with
  | Some i => cell i r
  | None => None
  end.

(** The header line as the specification words it: the last line of the
    file that is not empty. *)
Definition blank (line : string) : bool :=
  (line =? EmptyString) || (line =? String PyStr.newline EmptyString).

Definition spec_header_columns (content : string) : exn + list string :=
  match PyStr.last_item
          (filter (fun l => negb (blank l)) (PyStr.readlines content)) with
  | Some line => inr (PyStr.split "," line)
  | None => inl IndexError
  end.


(** The Column Mapping Plan as the specification words it: one rename
    per header token, generic name [field_(j+1)] to the lower-cased token,
    in order. *)
Definition plan_renames (self : PostcodeParser) (first : nat)
  (cols : list string) : batch :=
  map (fun jc =>
         [RenameColumn (staging_table self)
            ("field_" ++ PyStr.str_of_nat (fst jc + 1))%string
            (PyStr.lower (snd jc))])
      (combine (seq first (List.length cols)) cols).

(** The attribute columns of the final projection as the specification
    words them: every mapped name but the excluded ones. *)
Definition plan_kept (self : PostcodeParser) (cols : list string)
  : list colref :=
  map (QCol (staging_table self))
      (filter (fun n => negb (PyStr.mem n excluded)) (map PyStr.lower cols)).

(** Two worlds with the same files, the same server availability and the
    same converter runs. *)
Definition same_env (w w' : world) : Prop :=
  workdir w' = workdir w
  /\ server_up w' = server_up w
  /\ system_log w' = system_log w.

(** The statements of a list sent one by one, as a cursor does. *)
Definition run_stmts (l : list stmt) : M world unit :=
  for_each l (fun s => server_execute s None).

Section Stages.

(** The methods [parse] calls on [self]. *)
Variable prepare_m :
  PostcodeParser -> M world (PostcodeParser * (bool * string)).
Variables polys_m info_m vstreets_m index_m cleanup_m :
  PostcodeParser -> M world unit.




End Stages.

(** The server running statements whose names are already read. *)
Fixpoint run_all (l : list stmt) (d : database) : pg_error + database :=
  match l with
  | [] => inr d
  | s :: r =>
      match run s None d with
      | inl e => inl e
      | inr d' => run_all r d'
      end
  end.

(** *** The vertical-street files of an archive *)

Definition street_columns : list (string * sqltype) :=
  [("postcode", TVarchar 8); ("vstreet_ref", TVarchar 8)].

(** The names [parse_vstreets] selects in an archive. *)
Definition street_files (a : archive) : list string :=
  filter (fun f => PyStr.endswith f ".TXT"
                   && PyStr.startswith f "Polygons/Data/VERTICAL_STREETS")
    (namelist a).

(** The records the copy reads from an entry of the archive. *)
Definition entry_stream (a : archive) (f : string) : list (list datum) :=
  match lookup f a with
  | Some e => stream_of e
  | None => []
  end.

(** A copy is all or nothing: the records of a file are stored when each
    of them has two fields of at most eight characters, and none is
    stored otherwise.  (A longer field whose excess is blank, which the
    server would cut to eight characters, is not considered: see
    [street_fields_fit].) *)
Definition accepted (recs : list (list datum)) : list (list datum) :=
  if forallb (record_ok street_columns) recs then recs else [].

(** The records stored from the street files of an archive, in archive
    order. *)
Definition street_rows (a : archive) : list (list datum) :=
  flat_map (fun f => accepted (entry_stream a f)) (street_files a).

(** The [COPY] statements that succeeded, one per accepted file. *)
Definition street_copies (a : archive) : list stmt :=
  flat_map (fun f =>
              if forallb (record_ok street_columns) (entry_stream a f)
              then [CopyFromStdin "vstreet_table"] else [])
           (street_files a).

(** A value of at most [n] characters. *)
Definition fits (n : nat) (v : datum) : bool :=
  match v with
  | Some s => (String.length s <=? n)%nat
  | None => true
  end.

(** The street files of an archive hold no field longer than the eight
    characters of the two columns. *)
Definition street_fields_fit (a : archive) : Prop :=
  forall f r, In f (street_files a) -> In r (entry_stream a f) ->
              forallb (fits 8) r = true.

(** *** The target table against the geometry and the attribute rows *)

(** The columns the target table takes from the geometry table. *)
Definition key_columns : list string :=
  ["id"; "postcode"; "pc_area"; "polygon"].

(** Row [t] of [T] carries the geometry row [g] of [G]: the same id,
    postcode, area code and polygon. *)
Definition carries (G T : table) (g t : list datum) : Prop :=
  forall c, In c key_columns -> field T c t = field G c g.

(** A column of the target table that comes from the attribute rows. *)
Definition attribute_column (T : table) (c : string) : Prop :=
  In c (map fst (columns T)) /\ ~ In c key_columns.

(** The join condition between a geometry row and an attribute row:
    equal postcodes, none of them NULL. *)
Definition matches (G S : table) (g s : list datum) : bool :=
  sql_eqb (field G "postcode" g) (field S "postcode" s).

(** A geometry row without any attribute row of the same postcode. *)
Definition unmatched (G S : table) (g : list datum) : Prop :=
  forall s, In s (rows S) -> matches G S g s = false.

(** The attribute columns of [t] are all NULL. *)
Definition null_attributes (T : table) (t : list datum) : Prop :=
  forall c, attribute_column T c -> field T c t = None.

(** The attribute columns of [t] are those of the attribute row [s]. *)
Definition attributes_of (S T : table) (s t : list datum) : Prop :=
  forall c, attribute_column T c -> field T c t = field S c s.

(** What a right join of [S] onto [G] on the postcode leaves in [T]:
    every geometry row is carried by a row of [T], with NULL attributes
    when it has no partner; and every row of [T] carries a geometry row,
    with NULL attributes when that row has no partner and with the
    attributes of one of its partners otherwise. *)
Definition right_joined (S G T : table) : Prop :=
  (forall g, In g (rows G) ->
     exists t, In t (rows T) /\ carries G T g t
               /\ (unmatched G S g -> null_attributes T t))
  /\ (forall t, In t (rows T) ->
        exists g, In g (rows G) /\ carries G T g t
          /\ ((unmatched G S g /\ null_attributes T t)
              \/ exists s, In s (rows S) /\ matches G S g s = true
                           /\ attributes_of S T s t)).

(** The statements that drop a table. *)
Definition is_drop (s : stmt) : bool :=
  match s with DropTable _ _ => true | _ => false end.

(** The statements that change the type of a column of table [t]. *)
Definition alters (t : string) (s : stmt) : bool :=
  match s with AlterColumnType t' _ _ _ => t' =? t | _ => false end.

(** The type changes and the primary key that [parse_info] sends between
    the creation of the target table and the final drops. *)
Definition merge_casts (self : PostcodeParser) : list stmt :=
  firstn 15 (skipn 2 (statements (merge_commands self []))).

(** *** The files the geometry and attribute stages select *)

(** The nested archives [parse_polys] selects in an archive. *)
Definition nested_files (a : archive) : list string :=
  filter (fun f => PyStr.endswith f ".zip") (namelist a).

(** The shapefiles it selects in the nested archive [n]. *)
Definition shape_files (a : archive) (n : string) : list string :=
  match lookup n a with
  | Some (Nested b) => filter (fun f => PyStr.endswith f ".shp") (namelist b)
  | _ => []
  end.

(** The converter run for the shapefile [f] of the nested archive [n]. *)
Definition shape_command (z n f : string) : ogr2ogr :=
  mkOgr 2 [z; n; f] "postcode_staging" (Some "MULTIPOLYGON") true
    (Some "EPSG:4326").

(** The layer the converter finds under a name of an archive, if any. *)
Definition layers_at (b : archive) (f : string) : list layer :=
  match lookup f b with
  | Some e => match layer_of e with Some ly => [ly] | None => [] end
  | None => []
  end.

(** The layers of the shapefiles of the nested archive [n]. *)
Definition shape_layers (a : archive) (n : string) : list layer :=
  match lookup n a with
  | Some (Nested b) =>
      flat_map (layers_at b)
        (filter (fun f => PyStr.endswith f ".shp") (namelist b))
  | _ => []
  end.

(** The staging table made of a list of layers alone, appended one after
    the other to a store that holds nothing. *)
Definition staged (lys : list layer) : option table :=
  get_table
    (fold_left (fun d ly => append_layer ly "postcode_staging" d) lys empty_db)
    "postcode_staging".

(** The attribute files [parse_info] selects in an archive. *)
Definition attribute_files (a : archive) : list string :=
  filter (fun f => PyStr.endswith f ".csv"
                   && PyStr.startswith f "Code-Point/Data/CSV")
    (namelist a).

(** The converter run for the attribute file [f]. *)
Definition attribute_command (z f : string) : ogr2ogr :=
  mkOgr 1 [z; f] "postcode_staging" None true None.

(** Rows numbered from 1 in an added first column. *)
Fixpoint numbered (k : nat) (rs : list (list datum)) : list (list datum) :=
  match rs with
  | [] => []
  | r :: rest => (Some (PyStr.str_of_nat (S k)) :: r) :: numbered (S k) rest
  end.

End Obs.

(* ================================================================== *)
(** ** Sample inputs *)

Module Samples.
Import Sql Engine Py Env Script Obs.

Definition nl : string := String PyStr.newline EmptyString.

(** A header description file: the short codes, then the full names. *)
Definition header_text : string :=
  ("PC,PQ,PR,TP,DQ,RP,BP,PD,MP,UM,EA,NO,CY,RH,LH,CC,DC,WC,LS" ++ nl ++
   "Postcode,Positional_quality_indicator,PO_Box_indicator," ++
   "Total_number_of_delivery_points," ++
   "Delivery_points_used_to_create_the_CPLC,Domestic_delivery_points," ++
   "Non_domestic_delivery_points,PO_Box_delivery_points," ++
   "Matched_address_premises,Unmatched_delivery_points,Eastings,Northings," ++
   "Country_code,NHS_regional_HA_code,NHS_HA_code,Admin_county_code," ++
   "Admin_district_code,Admin_ward_code,Postcode_type" ++ nl)%string.

(** One attribute record for a postcode. *)
Definition attribute_record (pc : string) : list datum :=
  [Some pc; Some "10"; Some "N"; Some "3"; Some "3"; Some "2"; Some "1";
   Some "0"; Some "3"; Some "0"; Some "394235"; Some "806529";
   Some "S92000003"; Some "S08000020"; Some "S080"; None;
   Some "S12000033"; Some "S13002842"; Some "S"].

(** A shapefile with one postcode polygon. *)
Definition polygon_file (pc area geometry : string) : entry :=
  Shapefile ["POSTCODE"; "UPP"; "PC_AREA"]
    [(Some geometry, [Some pc; Some "u"; Some area])].

(** An archive with two nested archives of one shapefile each, one
    attribute file and one vertical-street file. *)
Definition sample_archive : archive :=
  [ ("Polygons/Data/ab.zip",
     Nested [("AB.shp", polygon_file "AB1 2CD" "AB" "POLYGON-1")]);
    ("Polygons/Data/ac.zip",
     Nested [("AC.shp", polygon_file "AB1 2CE" "AB" "POLYGON-2");
             ("AC.dbf", Opaque)]);
    ("Code-Point/Data/CSV/ab.csv",
     Delimited [attribute_record "AB1 2CE"; attribute_record "ZZ9 9ZZ"]);
    ("Polygons/Data/VERTICAL_STREETS/ab_vstreet_lookup.TXT",
     Delimited [[Some "AB1 2CD"; Some "VS01"]; [Some "AB1 2CE"; Some "VS02"]]) ].

Definition sample_workdir : list (string * file_data) :=
  [("codepoint.zip", ZipData sample_archive);
   ("headers.csv", TextData header_text)].

(** The working directory downloaded, the server reachable and empty. *)
Definition sample_world : world :=
  mkWorld (Some sample_workdir) [] true empty_db 0 [] [] [] [].

(** The same with the server unreachable. *)
Definition offline_world : world :=
  mkWorld (Some sample_workdir) [] false empty_db 0 [] [] [] [].

(** An instance whose [base_path] is a path object, once [prepare]'s loop
    has seen the working directory. *)
Definition sample_self : PostcodeParser :=
  scan_listing (map fst sample_workdir) (instance None None).

(** The world the three ingestion stages leave behind when the statement
    runner is bound. *)
Definition after_polys : world :=
  snd (parse_polys globals_with_loader sample_self sample_world).

Definition after_info : world :=
  snd (parse_info globals_with_loader sample_self after_polys).

Definition after_vstreets : world :=
  snd (parse_vstreets globals_with_loader sample_self after_info).

(** A header file whose last column is one of the excluded names, with an
    attribute file to match and the geometry table in place. *)
Definition short_header : string := ("postcode,eastings" ++ nl)%string.

Definition short_world : world :=
  with_workdir
    (Some [("codepoint.zip",
            ZipData [("Code-Point/Data/CSV/ab.csv",
                      Delimited [[Some "AB1 2CE"; Some "394235"]])]);
           ("headers.csv", TextData short_header)])
    after_polys.

(** An archive whose two shapefiles sit in one nested archive, with an
    attribute file that knows one of the two postcodes and one postcode
    without polygon; and the world the geometry stage makes of it. *)
Definition joined_archive : archive :=
  [ ("Polygons/Data/ab.zip",
     Nested [("AB.shp", polygon_file "AB1 2CD" "AB" "POLYGON-1");
             ("AC.shp", polygon_file "AB1 2CE" "AB" "POLYGON-2")]);
    ("Code-Point/Data/CSV/ab.csv",
     Delimited [attribute_record "AB1 2CE"; attribute_record "ZZ9 9ZZ"]) ].

Definition join_world : world :=
  snd (parse_polys globals_with_loader sample_self
         (mkWorld (Some [("codepoint.zip", ZipData joined_archive);
                         ("headers.csv", TextData header_text)])
            [] true empty_db 0 [] [] [] [])).

(** A server that holds the two tables the index statements name. *)
Definition core_world : world :=
  mkWorld (Some sample_workdir) [] true
    (mkDb [("core_postcode",
            mkTable [("id", TInteger); ("postcode", TText);
                     ("polygon", TGeography)] [] (Some "id"));
           ("core_vstreetlookup",
            mkTable [("id", TBigSerial); ("postcode", TVarchar 8);
                     ("vstreet_ref", TVarchar 8)] [] (Some "id"))] [])
    0 [] [] [] [].

(** A header file whose last line ends with the delimiter, in the world
    the geometry stage left. *)
Definition trailing_comma_world : world :=
  with_workdir
    (Some [("codepoint.zip",
            ZipData [("Code-Point/Data/CSV/ab.csv",
                      Delimited [[Some "AB1 2CE"; Some "394235"]])]);
           ("headers.csv", TextData "postcode,eastings,")])
    after_polys.

(** An archive whose last nested archive holds no shapefile. *)
Definition hollow_archive : archive :=
  [ ("Polygons/Data/ab.zip",
     Nested [("AB.shp", polygon_file "AB1 2CD" "AB" "POLYGON-1")]);
    ("Polygons/Data/docs.zip", Nested [("readme.txt", Opaque)]) ].

Definition hollow_world : world :=
  mkWorld (Some [("codepoint.zip", ZipData hollow_archive);
                 ("headers.csv", TextData header_text)])
    [] true empty_db 0 [] [] [] [].

(** An archive whose attribute file lies outside the folder [parse_info]
    reads, in the world the geometry stage left. *)
Definition misplaced_archive : archive :=
  [("Data/CSV/ab.csv", Delimited [attribute_record "AB1 2CE"])].

Definition misplaced_world : world :=
  with_workdir
    (Some [("codepoint.zip", ZipData misplaced_archive);
           ("headers.csv", TextData header_text)])
    after_polys.

(** A header file that ends with an empty line, and the world the
    geometry stage left with that header file and an attribute file of
    two fields. *)
Definition blank_tail_header : string := ("a,b" ++ nl ++ nl)%string.

Definition blank_tail_world : world :=
  with_workdir
    (Some [("codepoint.zip",
            ZipData [("Code-Point/Data/CSV/ab.csv",
                      Delimited [[Some "AB1 2CE"; Some "394235"]])]);
           ("headers.csv", TextData blank_tail_header)])
    after_polys.

End Samples.

Import PyStr Sql Engine Py Env Script Obs.

(* ================================================================== *)
(** ** The call protocol and the missing definitions *)

Lemma call_loader (b : batch) :
  call_global globals_with_loader "exec_sql_statements" [PyTuple b]
  = (exec_sql_statements b ;; ret PyNone).
Proof. reflexivity. Qed.

Lemma call_copy_with_loader (c : command) (f : list (list datum)) :
  call_global globals_with_loader "copy_from_csv" [PySql c; PyStream f]
  = (copy_from_csv c f ;; ret PyNone).
Proof. reflexivity. Qed.


Lemma prepare_outcome (self : PostcodeParser) (w : world) :
  prepare module_globals self w
  = (inl (TypeError "wrong number of positional arguments"),
     snd (os_makedirs w)).
Proof. reflexivity. Qed.

Lemma os_makedirs_frame (w : world) :
  db (snd (os_makedirs w)) = db w
  /\ sql_log (snd (os_makedirs w)) = sql_log w
  /\ system_log (snd (os_makedirs w)) = system_log w.
Proof.
  unfold os_makedirs, modify; cbn [snd].
  destruct (workdir w); repeat split; reflexivity.
Qed.

(** C5: [download_gdrive_folder] has three positional parameters without
    default and [prepare] passes two, so every call of [prepare] raises
    TypeError at that call; [parse] then ends with that exception having
    entered no stage but [Prepare], with the store, the statement log and
    the converter log untouched. *)
Theorem prepare_always_raises_TypeError :
  (exists body,
     lookup "download_gdrive_folder" module_globals
     = Some (BFunction
               (mkFun ["folder_id"; "dest_path"; "team_drive_id"] body)))
  /\ forall (self : PostcodeParser) (w : world),
       (exists msg w',
          prepare module_globals self w = (inl (TypeError msg), w'))
       /\ forall log,
          exists msg w',
            parse module_globals self (log, w)
            = (inl (TypeError msg), (log ++ [Prepare], w'))
            /\ db w' = db w /\ sql_log w' = sql_log w
            /\ system_log w' = system_log w.
Proof.
  split.
  - eexists. reflexivity.
  - intros self w. split.
    + eexists. eexists. apply prepare_outcome.
    + intros log. eexists. exists (snd (os_makedirs w)). split.
      * unfold parse, parse_with, bind, enter. cbn [snd fst].
        rewrite prepare_outcome. reflexivity.
      * apply os_makedirs_frame.
Qed.


(* ================================================================== *)
(** ** The bulk-copy primitive *)

Lemma filter_twice {A : Type} (p : A -> bool) (l : list A) :
  filter p (filter p l) = filter p l.
Proof.
  induction l as [| x l IH]; cbn; auto.
  destruct (p x) eqn:E; cbn; rewrite ?E, IH; auto.
Qed.

(** What a statement leaves alone, whether it succeeds or not. *)
Lemma server_execute_frame s stdin w r w1 :
  server_execute s stdin w = (r, w1) ->
  open_conns w1 = open_conns w /\ next_conn w1 = next_conn w
  /\ server_up w1 = server_up w /\ workdir w1 = workdir w
  /\ system_log w1 = system_log w /\ stdout w1 = stdout w.
Proof.
  unfold server_execute.
  destruct (execute s stdin (db w)); intros H; inversion H; subst; cbn;
    auto 10.
Qed.

Lemma copy_expert_frame sql csv w r w1 :
  copy_expert sql csv w = (r, w1) ->
  open_conns w1 = open_conns w /\ next_conn w1 = next_conn w
  /\ server_up w1 = server_up w /\ workdir w1 = workdir w
  /\ system_log w1 = system_log w /\ stdout w1 = stdout w.
Proof.
  unfold copy_expert. destruct sql as [| s [| s' r']].
  - intros H; inversion H; subst; auto 10.
  - apply server_execute_frame.
  - intros H; inversion H; subst; auto 10.
Qed.

Ltac unfold_copy :=
  unfold copy_from_csv, in_frame, try_finally, try_except, bind, lift, zoom,
    connect, store_conn, load_conn, modify, conn_close, print_error;
  cbn [fst snd].

(** With the server reachable, [copy_from_csv] returns normally whatever
    the copy does, and the connection it opened is closed again. *)
Lemma copy_from_csv_reachable (sql : command) (csv : list (list datum))
  (w : world) :
  server_up w = true ->
  exists w',
    copy_from_csv sql csv w = (inr tt, w')
    /\ open_conns w'
       = filter (fun h => negb (h =? next_conn w)%nat) (open_conns w)
    /\ server_up w' = true
    /\ workdir w' = workdir w
    /\ system_log w' = system_log w.
Proof.
  intros Hup. unfold_copy. rewrite Hup. cbn [fst snd].
  destruct (copy_expert sql csv _) as [[e | []] w1] eqn:Hc; cbn;
    apply copy_expert_frame in Hc; cbn in Hc;
    destruct Hc as (Ho & Hn & Hs & Hd & Hl & _);
    eexists; (split; [reflexivity |]); cbn; rewrite Ho; cbn;
    rewrite Nat.eqb_refl; cbn; rewrite ?filter_twice;
    repeat split; congruence.
Qed.

(** C3, evaluated where the specification breaks: when the server cannot be
    reached, [psycopg2.connect] raises before [conn] is bound; the handler
    prints the error, and the [finally] clause then reads the unbound
    [conn], so UnboundLocalError leaves [copy_from_csv] instead of a
    normal return.  Nothing else changes: no connection was opened. *)
Theorem copy_from_csv_raises_when_unreachable
  (sql : command) (csv : list (list datum)) (w : world) :
  server_up w = false ->
  copy_from_csv sql csv w
  = (inl (UnboundLocalError "conn"),
     with_stdout (stdout w ++ [Error OperationalError]) w).
Proof.
  intros Hup. unfold_copy. rewrite Hup. reflexivity.
Qed.

Lemma copy_from_csv_raises_when_unreachable_witness :
  server_up Samples.offline_world = false
  /\ fst (copy_from_csv [CopyFromStdin "vstreet_table"]
            [[Some "AB1 2CD"; Some "VS01"]] Samples.offline_world)
     = inl (UnboundLocalError "conn").
Proof.
  split; [reflexivity |].
  rewrite (copy_from_csv_raises_when_unreachable _ _ Samples.offline_world);
    reflexivity.
Defined.

(* ================================================================== *)
(** ** The undefined statement runner *)


Lemma zip_open_frame f w r w' :
  zip_open f w = (r, w') -> w' = w.
Proof.
  unfold zip_open. destruct (workdir w) as [d |]; [destruct (lookup f d) as [[] |] |];
    intros H; inversion H; reflexivity.
Qed.

Lemma open_text_frame f w r w' :
  open_text f w = (r, w') -> w' = w.
Proof.
  unfold open_text. destruct (workdir w) as [d |]; [destruct (lookup f d) as [[] |] |];
    intros H; inversion H; reflexivity.
Qed.

Lemma attr_frame {A : Type} n (v : option A) w r w' :
  attr n v w = (r, w') -> w' = w.
Proof. destruct v; intros H; inversion H; reflexivity. Qed.


Lemma lookup_listed {A : Type} k (m : list (string * A)) :
  In k (map fst m) -> exists v, lookup k m = Some v.
Proof.
  induction m as [| [k' v'] m IH]; cbn; [contradiction |].
  destruct (k' =? k) eqn:E; [eexists; reflexivity |].
  intros [H | H]; [| auto].
  subst. rewrite String.eqb_refl in E. discriminate.
Qed.

Lemma path_div_frame base n w r w' :
  path_div base n w = (r, w') -> w' = w.
Proof. destruct base; intros H; inversion H; reflexivity. Qed.





Lemma zip_open_found zf d a w :
  workdir w = Some d -> lookup zf d = Some (ZipData a) ->
  zip_open zf w = (inr a, w).
Proof. intros Hd Hl. unfold zip_open. rewrite Hd, Hl. reflexivity. Qed.




(* ================================================================== *)
(** ** Batches of statements *)

Lemma same_env_refl w : same_env w w.
Proof. repeat split. Qed.

Lemma same_env_trans w1 w2 w3 :
  same_env w1 w2 -> same_env w2 w3 -> same_env w1 w3.
Proof.
  unfold same_env. intros (A & B & C) (D & E & F).
  repeat split; congruence.
Qed.

Lemma for_each_app {S B : Type} (l1 l2 : list B) (f : B -> M S unit) (s : S) :
  for_each (l1 ++ l2) f s = (for_each l1 f ;; for_each l2 f) s.
Proof.
  revert s. induction l1 as [| x l1 IH]; intros s; cbn.
  - reflexivity.
  - unfold bind. destruct (f x s) as [[e | []] s']; [reflexivity |].
    rewrite IH. reflexivity.
Qed.

Lemma cursor_batch (b : batch) (w : world) :
  for_each b cursor_execute w = run_stmts (statements b) w.
Proof.
  revert w. induction b as [| c b IH]; intros w; cbn; [reflexivity |].
  unfold run_stmts, statements. cbn [concat]. rewrite for_each_app.
  unfold bind. fold (cursor_execute c).
  destruct (cursor_execute c w) as [[e | []] w']; [reflexivity |].
  apply IH.
Qed.

(** A list of statements that all succeed. *)
Lemma run_stmts_ok (l : list stmt) (w w' : world) :
  run_stmts l w = (inr tt, w') ->
  exec_all l (db w) = inr (db w')
  /\ sql_log w' = sql_log w ++ l
  /\ same_env w w'.
Proof.
  revert w. induction l as [| s l IH]; intros w; cbn.
  - intros H; inversion H; subst. rewrite app_nil_r.
    repeat split.
  - unfold run_stmts in *. cbn [for_each]. unfold bind.
    unfold server_execute at 1.
    destruct (execute s None (db w)) as [e | d]; [discriminate |].
    intros H. apply IH in H. cbn in H. destruct H as (He & Hl & Hs).
    split; [exact He |]. split.
    + rewrite Hl, <- app_assoc. reflexivity.
    + exact Hs.
Qed.

(** A list of statements stopped by an error: the statements before the
    failing one have been applied and logged. *)
Lemma run_stmts_fail (l : list stmt) (w w' : world) (e : exn) :
  run_stmts l w = (inl e, w') ->
  exists pre s post pe,
    l = pre ++ s :: post
    /\ exec_all pre (db w) = inr (db w')
    /\ execute s None (db w') = inl pe
    /\ e = DatabaseError pe
    /\ sql_log w' = sql_log w ++ pre
    /\ same_env w w'.
Proof.
  revert w. induction l as [| s l IH]; intros w; cbn.
  - discriminate.
  - unfold run_stmts in *. cbn [for_each]. unfold bind.
    unfold server_execute at 1.
    destruct (execute s None (db w)) as [pe | d] eqn:Hx.
    + intros H; inversion H; subst.
      exists [], s, l, pe. cbn. rewrite app_nil_r.
      repeat split; auto.
    + intros H. apply IH in H. cbn in H.
      destruct H as (pre & s' & post & pe & Hl & He & Hf & Hd & Hlog & Hs).
      exists (s :: pre), s', post, pe. cbn. rewrite Hx.
      repeat split; auto; try apply Hs.
      * rewrite Hl. reflexivity.
      * rewrite Hlog, <- app_assoc. reflexivity.
Qed.

Ltac unfold_loader :=
  unfold exec_sql_statements, try_except, try_finally, bind, connect,
    conn_close, print_error, modify;
  cbn [fst snd].

(** The statement runner returning normally. *)
Lemma exec_sql_ok (b : batch) (w w' : world) :
  exec_sql_statements b w = (inr tt, w') ->
  server_up w = true
  /\ exec_all (statements b) (db w) = inr (db w')
  /\ sql_log w' = sql_log w ++ statements b
  /\ same_env w w'.
Proof.
  unfold_loader.
  destruct (server_up w) eqn:Hup; [| discriminate].
  rewrite cursor_batch.
  destruct (run_stmts (statements b) _) as [[e | []] w1] eqn:Hr;
    [discriminate |].
  intros H; inversion H; subst; clear H.
  apply run_stmts_ok in Hr. cbn in Hr. destruct Hr as (He & Hl & Hs).
  repeat split; cbn; auto; apply Hs.
Qed.

(** The statement runner raising. *)
Lemma exec_sql_fail (b : batch) (w w' : world) (e : exn) :
  exec_sql_statements b w = (inl e, w') ->
  (server_up w = false /\ e = OperationalError
   /\ w' = with_stdout (stdout w ++ [Error OperationalError]) w)
  \/ (server_up w = true /\
      exists pre s post pe,
        statements b = pre ++ s :: post
        /\ exec_all pre (db w) = inr (db w')
        /\ execute s None (db w') = inl pe
        /\ e = DatabaseError pe
        /\ sql_log w' = sql_log w ++ pre
        /\ same_env w w').
Proof.
  unfold_loader.
  destruct (server_up w) eqn:Hup.
  - rewrite cursor_batch.
    destruct (run_stmts (statements b) _) as [[e' | []] w1] eqn:Hr;
      [| discriminate].
    intros H; inversion H; subst; clear H. right. split; [reflexivity |].
    apply run_stmts_fail in Hr. cbn in Hr.
    destruct Hr as (pre & s & post & pe & Hl & He & Hf & Hd & Hlog & Hs).
    exists pre, s, post, pe. repeat split; cbn; auto; apply Hs.
  - intros H; inversion H; subst. left. auto.
Qed.

(** The statement runner on statements that all succeed. *)
Lemma exec_sql_run (b : batch) (w : world) (d : database) :
  server_up w = true ->
  exec_all (statements b) (db w) = inr d ->
  exists w',
    exec_sql_statements b w = (inr tt, w')
    /\ db w' = d
    /\ sql_log w' = sql_log w ++ statements b
    /\ same_env w w'.
Proof.
  intros Hup Hx.
  destruct (exec_sql_statements b w) as [[e | []] w'] eqn:Hr.
  - exfalso. apply exec_sql_fail in Hr.
    destruct Hr as [(Hd & _) | (_ & pre & s & post & pe & Hl & He & Hf & _)];
      [congruence |].
    rewrite Hl in Hx. clear Hl.
    revert Hx He Hf. generalize (db w). generalize (db w').
    induction pre as [| p pre IH]; intros d1 d0; cbn.
    + intros Hx He Hf. inversion He; subst. rewrite Hf in Hx. discriminate.
    + destruct (execute p None d0); [discriminate |]. apply IH.
  - apply exec_sql_ok in Hr. destruct Hr as (_ & He & Hl & Hs).
    exists w'. repeat split; auto; try apply Hs. congruence.
Qed.

(* ================================================================== *)
(** ** The column mapping plan *)

Lemma mapping_fold (self : PostcodeParser) (rest pre : list string)
  (acc : batch * list colref) :
  fold_left (mapping_step self (pre ++ rest))
    (seq (List.length pre) (List.length rest)) acc
  = (fst acc ++ plan_renames self (List.length pre) rest,
     snd acc ++ plan_kept self rest).
Proof.
  revert pre acc. induction rest as [| c rest IH]; intros pre acc.
  - cbn. unfold plan_kept. cbn. rewrite !app_nil_r. destruct acc; reflexivity.
  - cbn [List.length seq fold_left].
    replace (pre ++ c :: rest) with ((pre ++ [c]) ++ rest)
      by (rewrite <- app_assoc; reflexivity).
    replace (S (List.length pre)) with (List.length (pre ++ [c]))
      by (rewrite length_app; cbn; lia).
    rewrite IH. clear IH.
    unfold mapping_step.
    replace (nth (List.length pre) ((pre ++ [c]) ++ rest) EmptyString) with c.
    2:{ rewrite <- app_assoc. cbn [app]. rewrite nth_middle. reflexivity. }
    unfold plan_renames, plan_kept. cbn [List.length seq combine map filter fst snd].
    rewrite length_app. cbn [List.length].
    replace (List.length pre + 1) with (S (List.length pre)) by lia.
    destruct (mem (lower c) excluded) eqn:Hm; cbn [negb fst snd map];
      rewrite <- ?app_assoc; reflexivity.
Qed.

(** The loop of [parse_info] builds the plan as the specification words
    it. *)
Lemma mapping_plan_spec (self : PostcodeParser) (cols : list string) :
  mapping_plan self cols
  = (plan_renames self 0 cols,
     [QCol (geom_table self) "id"; QCol (geom_table self) "postcode";
      QCol (geom_table self) "pc_area"]
     ++ plan_kept self cols ++ [QCol (geom_table self) "polygon"]).
Proof.
  unfold mapping_plan.
  rewrite (mapping_fold self cols [] _). reflexivity.
Qed.

Lemma rename_pairs_app (b1 b2 : batch) :
  rename_pairs (b1 ++ b2) = rename_pairs b1 ++ rename_pairs b2.
Proof.
  unfold rename_pairs, statements.
  rewrite concat_app, flat_map_app. reflexivity.
Qed.

Lemma rename_pairs_plan (self : PostcodeParser) (cols : list string) (k : nat) :
  rename_pairs (plan_renames self k cols)
  = map (fun jc => (("field_" ++ str_of_nat (fst jc + 1))%string,
                    lower (snd jc)))
        (combine (seq k (List.length cols)) cols).
Proof.
  unfold plan_renames, rename_pairs, statements.
  revert k. induction cols as [| c cols IH]; intros k; cbn; [reflexivity |].
  f_equal. apply IH.
Qed.

Lemma rename_pairs_info (self : PostcodeParser) (cols : list string) :
  rename_pairs (info_commands self cols)
  = map (fun jc => (("field_" ++ str_of_nat (fst jc + 1))%string,
                    lower (snd jc)))
        (combine (seq 0 (List.length cols)) cols).
Proof.
  unfold info_commands. rewrite mapping_plan_spec. cbn [fst snd].
  rewrite rename_pairs_app, rename_pairs_plan.
  cbn. rewrite app_nil_r. reflexivity.
Qed.

Lemma map_snd_combine_seq {A : Type} (l : list A) (k : nat) :
  map snd (combine (seq k (List.length l)) l) = l.
Proof.
  revert k. induction l as [| x l IH]; intros k; cbn; [reflexivity |].
  f_equal. apply IH.
Qed.

Lemma last_item_app {A : Type} (l : list A) (x : A) :
  last_item (l ++ [x]) = Some x.
Proof. unfold last_item. rewrite rev_app_distr. reflexivity. Qed.

(** The column names come from the last line that [readlines] yields,
    empty or not and with its terminator: split on the delimiter, and each
    token lower-cased where it is used as the target of a rename. *)
Lemma header_names_from_last_line
  (content : string) (lines : list string) (line : string) :
  readlines content = lines ++ [line] ->
  header_columns content = inr (split "," line)
  /\ forall self : PostcodeParser,
       map snd (rename_pairs (info_commands self (split "," line)))
       = map lower (split "," line).
Proof.
  intros Hr. split.
  - unfold header_columns. rewrite Hr, last_item_app. reflexivity.
  - intros self. rewrite rename_pairs_info, map_map. cbn [snd].
    rewrite <- (map_map snd lower), map_snd_combine_seq. reflexivity.
Qed.

(** C6, evaluated where the specification breaks: a header file whose
    line [a,b] is followed by an empty last line.  The code takes
    [readlines()[-1]], which is that empty line with its terminator, where
    the last line that is not empty would give the two names.  The only
    column name is then the line terminator, the only rename of the plan
    has it as its target, and the run of [parse_info] ends in a syntax
    error at that rename: the staging table was dropped and filled, and no
    target table is made. *)
Theorem header_taken_from_blank_last_line :
  header_columns Samples.blank_tail_header = inr [Samples.nl]
  /\ spec_header_columns Samples.blank_tail_header
     = inr ["a"; ("b" ++ Samples.nl)%string]
  /\ rename_pairs (info_commands Samples.sample_self [Samples.nl])
     = [("field_1", Samples.nl)]
  /\ fst (parse_info globals_with_loader Samples.sample_self
            Samples.blank_tail_world)
     = inl (DatabaseError SyntaxError)
  /\ sql_log (snd (parse_info globals_with_loader Samples.sample_self
                     Samples.blank_tail_world))
     = sql_log Samples.blank_tail_world ++ [DropTable true "postcode_staging"]
  /\ get_table (db (snd (parse_info globals_with_loader Samples.sample_self
                           Samples.blank_tail_world))) "postcode"
     = None.
Proof.
  split; [reflexivity |]. split; [reflexivity |]. split; [reflexivity |].
  split; [vm_compute; reflexivity |]. split; vm_compute; reflexivity.
Qed.

(** C7, evaluated where the specification breaks: the header line
    [postcode,eastings] followed by its line terminator.  The last token
    keeps the terminator, so it is not found in the exclusion list and the
    projection takes it from the staging table; the server reads it as the
    column [eastings], which is one of the excluded names, and the table
    created by the join has that column. *)
Theorem exclusion_misses_last_column :
  let cols := ["postcode"; ("eastings" ++ Samples.nl)%string] in
  let r := parse_info globals_with_loader Samples.sample_self
             Samples.short_world in
  header_columns Samples.short_header = inr cols
  /\ rename_pairs (info_commands Samples.sample_self cols)
     = [("field_1", "postcode"); ("field_2", ("eastings" ++ Samples.nl)%string)]
  /\ columns_from "postcode_staging" (snd (mapping_plan Samples.sample_self cols))
     = [("eastings" ++ Samples.nl)%string]
  /\ ident_of ("eastings" ++ Samples.nl)%string = Some "eastings"
  /\ mem "eastings" excluded = true
  /\ option_map (fun T => map fst (columns T))
       (get_table (db (snd r)) "postcode")
     = Some ["id"; "postcode"; "pc_area"; "eastings"; "polygon"].
Proof.
  cbv zeta. repeat split; vm_compute; reflexivity.
Qed.

(** What the loop of [parse_info] decides for each token: the projection
    takes from the staging table exactly the lower-cased tokens that are
    not, as strings, in the exclusion list, in header order. *)
Lemma projection_keeps_unlisted_names (self : PostcodeParser)
  (cols : list string) :
  staging_table self <> geom_table self ->
  List.length (rename_pairs (info_commands self cols)) = List.length cols
  /\ columns_from (staging_table self) (snd (mapping_plan self cols))
     = filter (fun n => negb (mem n excluded)) (map lower cols).
Proof.
  intros Hne. split.
  - rewrite rename_pairs_info, length_map, length_combine, length_seq.
    apply Nat.min_id.
  - rewrite mapping_plan_spec. cbn [snd]. unfold columns_from, plan_kept.
    assert (Hg : (geom_table self =? staging_table self) = false)
      by (apply String.eqb_neq; congruence).
    cbn [app flat_map]. rewrite Hg. cbn [app].
    rewrite flat_map_app. cbn [flat_map]. rewrite Hg. cbn [app].
    rewrite app_nil_r.
    induction (filter _ (map lower cols)) as [| n l IH]; cbn; [reflexivity |].
    rewrite String.eqb_refl. cbn. f_equal. exact IH.
Qed.

(* ================================================================== *)
(** ** The indexing stage *)

Lemma index_first_fails (d : database) :
  get_table d "core_postcode" = None ->
  execute (CreateIndex "core_postcode_polygon_id" "public" "core_postcode"
             Gist "polygon" false) None d
  = inl (UndefinedTable "core_postcode").
Proof.
  intros Hno. unfold execute.
  change (lex_stmt _)
    with (Some (CreateIndex "core_postcode_polygon_id" "public"
                  "core_postcode" Gist "polygon" false)).
  cbn -[get_table]. rewrite Hno. reflexivity.
Qed.

(** C2, evaluated on the code: every index statement of [index_tables]
    names [core_postcode] or [core_vstreetlookup]; none names the tables
    the pipeline creates, [postcode] and [vstreetlookup].  Whenever the
    server holds no table [core_postcode], the stage fails on its first
    statement and leaves the store as it was: no index is created. *)
Theorem index_tables_names_other_tables :
  indexed_tables index_commands
  = ["core_postcode"; "core_postcode"; "core_postcode";
     "core_vstreetlookup"; "core_vstreetlookup"; "core_vstreetlookup";
     "core_vstreetlookup"]
  /\ mem (target_table init) (indexed_tables index_commands) = false
  /\ mem (vstreet_target init) (indexed_tables index_commands) = false
  /\ forall (self : PostcodeParser) (w : world),
       server_up w = true ->
       get_table (db w) "core_postcode" = None ->
       exists w',
         index_tables globals_with_loader self w
         = (inl (DatabaseError (UndefinedTable "core_postcode")), w')
         /\ db w' = db w
         /\ sql_log w' = sql_log w.
Proof.
  split; [reflexivity |]. split; [reflexivity |]. split; [reflexivity |].
  intros self w Hup Hno.
  unfold index_tables, bind. rewrite call_loader. unfold bind.
  destruct (exec_sql_statements index_commands w) as [[e | []] w'] eqn:Hr.
  - apply exec_sql_fail in Hr.
    destruct Hr as [(Hd & _) | (_ & pre & s & post & pe & Hl & He & Hf & -> & Hlog & _)];
      [congruence |].
    destruct pre as [| p pre].
    + cbn in Hl. inversion Hl; subst s post. cbn in He. inversion He as [Hdb].
      rewrite <- Hdb in Hf. rewrite (index_first_fails _ Hno) in Hf.
      inversion Hf; subst pe.
      exists w'. rewrite app_nil_r in Hlog. auto.
    + exfalso. cbn in Hl. inversion Hl; subst p. cbn [exec_all] in He.
      rewrite (index_first_fails _ Hno) in He. discriminate.
  - exfalso. apply exec_sql_ok in Hr. destruct Hr as (_ & He & _).
    cbn [statements index_commands concat app exec_all] in He.
    rewrite (index_first_fails _ Hno) in He. discriminate.
Qed.

Lemma index_tables_names_other_tables_witness :
  (exists T, get_table (db Samples.after_vstreets) "postcode" = Some T)
  /\ (exists T, get_table (db Samples.after_vstreets) "vstreetlookup" = Some T)
  /\ exists w',
       index_tables globals_with_loader Samples.sample_self
         Samples.after_vstreets
       = (inl (DatabaseError (UndefinedTable "core_postcode")), w')
       /\ db w' = db Samples.after_vstreets
       /\ sql_log w' = sql_log Samples.after_vstreets.
Proof.
  split; [eexists; vm_compute; reflexivity |].
  split; [eexists; vm_compute; reflexivity |].
  destruct index_tables_names_other_tables as (_ & _ & _ & H).
  apply H; vm_compute; reflexivity.
Defined.

(* ================================================================== *)
(** ** The geometry stage *)

(** C1, evaluated on an archive with two nested archives of one shapefile
    each: the staging table is dropped once per nested archive, inside the
    loop, so the second drop discards the rows of the first shapefile.
    Both shapefiles were handed to the converter, yet the staging table
    ends with the rows of the second only, and so does the geometry table
    built from it. *)
Theorem parse_polys_drops_per_nested_archive :
  let r := polys_ingest globals_with_loader Samples.sample_self
             Samples.sample_world in
  fst r = inr tt
  /\ sql_log (snd r)
     = [DropTable true "postcode_staging"; DropTable true "postcode_staging"]
  /\ map source (system_log (snd r))
     = [["codepoint.zip"; "Polygons/Data/ab.zip"; "AB.shp"];
        ["codepoint.zip"; "Polygons/Data/ac.zip"; "AC.shp"]]
  /\ option_map rows (get_table (db (snd r)) "postcode_staging")
     = Some [[Some "1"; Some "POLYGON-2"; Some "AB1 2CE"; Some "u"; Some "AB"]]
  /\ fst (parse_polys globals_with_loader Samples.sample_self
            Samples.sample_world) = inr tt
  /\ option_map rows (get_table (db Samples.after_polys) "postcode_polygons")
     = Some [[Some "1"; Some "AB1 2CE"; Some "AB"; Some "POLYGON-2"]].
Proof.
  cbv zeta. repeat split; vm_compute; reflexivity.
Qed.

(* ================================================================== *)
(** ** The orchestrator *)

Section OrchestratorOrder.

Variable prepare_m :
  PostcodeParser -> M world (PostcodeParser * (bool * string)).
Variables polys_m info_m vstreets_m index_m cleanup_m :
  PostcodeParser -> M world unit.

Let run (self : PostcodeParser) (w : world) :=
  parse_with prepare_m polys_m info_m vstreets_m index_m cleanup_m self
    ([], w).





End OrchestratorOrder.

(* ================================================================== *)
(** ** The catalogue *)

Lemma lookup_remove_same {A : Type} k (m : list (string * A)) :
  lookup k (remove k m) = None.
Proof.
  induction m as [| [k' v] m IH]; cbn; [reflexivity |].
  destruct (k' =? k) eqn:E; cbn; [exact IH |]. rewrite E. exact IH.
Qed.

Lemma lookup_remove_other {A : Type} k k' (m : list (string * A)) :
  (k =? k') = false -> lookup k' (remove k m) = lookup k' m.
Proof.
  intros Hne. induction m as [| [k0 v] m IH]; cbn; [reflexivity |].
  destruct (k0 =? k) eqn:E; cbn.
  - apply String.eqb_eq in E. subst k0. rewrite Hne. exact IH.
  - destruct (k0 =? k'); [reflexivity | exact IH].
Qed.

Lemma get_set_same d t T : get_table (set_table d t T) t = Some T.
Proof. unfold get_table, set_table, put. cbn. rewrite String.eqb_refl. reflexivity. Qed.

Lemma get_set_other d t t' T :
  (t =? t') = false -> get_table (set_table d t T) t' = get_table d t'.
Proof.
  intros Hne. unfold get_table, set_table, put. cbn. rewrite Hne.
  apply lookup_remove_other. exact Hne.
Qed.

Lemma get_del_same d t : get_table (del_table d t) t = None.
Proof. unfold get_table, del_table. cbn. apply lookup_remove_same. Qed.

Lemma get_del_other d t t' :
  (t =? t') = false -> get_table (del_table d t) t' = get_table d t'.
Proof.
  intros Hne. unfold get_table, del_table. cbn.
  apply lookup_remove_other. exact Hne.
Qed.

(** *** What each kind of statement does to the tables *)

Lemma run_drop ife t d d' :
  run (DropTable ife t) None d = inr d' ->
  get_table d' t = None
  /\ (forall t', (t =? t') = false -> get_table d' t' = get_table d t')
  /\ (ife = false -> exists T, get_table d t = Some T).
Proof.
  cbn. destruct (get_table d t) as [T |] eqn:Hg.
  - intros H; inversion H; subst. split; [apply get_del_same |].
    split; [intros; apply get_del_other; auto | eauto].
  - destruct ife; [| discriminate]. intros H; inversion H; subst.
    split; [exact Hg |]. split; [auto | discriminate].
Qed.

Lemma run_create t cols d d' :
  run (CreateTable t cols) None d = inr d' ->
  get_table d t = None
  /\ get_table d' t = Some (mkTable cols [] None)
  /\ (forall t', (t =? t') = false -> get_table d' t' = get_table d t').
Proof.
  cbn. destruct (get_table d t) as [T |] eqn:Hg; [discriminate |].
  destruct (first_dup (map fst cols)); [discriminate |].
  intros H; inversion H; subst. split; [reflexivity |].
  split; [apply get_set_same | intros; apply get_set_other; auto].
Qed.

Lemma run_copy t recs d d' :
  run (CopyFromStdin t) (Some recs) d = inr d' ->
  exists T, get_table d t = Some T
    /\ forallb (record_ok (columns T)) recs = true
    /\ get_table d' t = Some (mkTable (columns T) (rows T ++ recs) (pkey T))
    /\ (forall t', (t =? t') = false -> get_table d' t' = get_table d t').
Proof.
  cbn -[key_error]. destruct (get_table d t) as [T |] eqn:Hg; [| discriminate].
  destruct (forallb _ recs) eqn:Hf; [| discriminate].
  destruct (key_error _); [discriminate |].
  intros H; inversion H; subst. exists T. split; [reflexivity |].
  split; [exact Hf |].
  split; [apply get_set_same | intros; apply get_set_other; auto].
Qed.

Lemma run_copy_error t recs d e :
  run (CopyFromStdin t) (Some recs) d = inl e ->
  forall T, get_table d t = Some T ->
            pkey T = None ->
            forallb (record_ok (columns T)) recs = false.
Proof.
  cbn -[key_error]. intros H T Hg Hk. rewrite Hg in H.
  destruct (forallb _ recs); [| reflexivity].
  unfold key_error in H. cbn [pkey] in H. rewrite Hk in H. discriminate.
Qed.

Lemma run_add_column t c ty d d' :
  run (AddColumn t c ty) None d = inr d' ->
  exists T, get_table d t = Some T
    /\ col_index c (columns T) = None
    /\ get_table d' t
       = Some (mkTable (columns T ++ [(c, ty)]) (extend_rows ty 0 (rows T))
                 (pkey T))
    /\ (forall t', (t =? t') = false -> get_table d' t' = get_table d t').
Proof.
  cbn. destruct (get_table d t) as [T |] eqn:Hg; [| discriminate].
  destruct (col_index c (columns T)) eqn:Hc; [discriminate |].
  intros H; inversion H; subst. exists T. split; [reflexivity |].
  split; [exact Hc |].
  split; [apply get_set_same | intros; apply get_set_other; auto].
Qed.

Lemma run_create_as ine t sel frm d d' :
  run (CreateTableAs ine t sel frm) None d = inr d' ->
  exists cols rws,
    eval_select sel frm d = inr (cols, rws)
    /\ (get_table d t = None ->
        get_table d' t = Some (mkTable cols rws None))
    /\ (forall t', (t =? t') = false -> get_table d' t' = get_table d t').
Proof.
  cbn. destruct (eval_select sel frm d) as [e | [cols rws]]; [discriminate |].
  destruct (get_table d t) as [T |] eqn:Hg.
  - destruct ine; [| discriminate]. intros H; inversion H; subst.
    exists cols, rws. split; [reflexivity |]. split; [discriminate | auto].
  - intros H; inversion H; subst. exists cols, rws.
    split; [reflexivity |].
    split; [intros _; apply get_set_same | intros; apply get_set_other; auto].
Qed.

Lemma run_primary_key t c d d' :
  run (AddPrimaryKey t c) None d = inr d' ->
  exists T, get_table d t = Some T
    /\ get_table d' t = Some (mkTable (columns T) (rows T) (Some c))
    /\ (forall t', (t =? t') = false -> get_table d' t' = get_table d t').
Proof.
  cbn. destruct (get_table d t) as [T |] eqn:Hg; [| discriminate].
  destruct (col_index c (columns T)) as [i |]; [| discriminate].
  destruct (pkey T); [discriminate |].
  destruct (existsb _ _); [discriminate |].
  destruct (nodup_datum _); [| discriminate].
  intros H; inversion H; subst. exists T. split; [reflexivity |].
  split; [apply get_set_same | intros; apply get_set_other; auto].
Qed.

Lemma run_alter_type t c ty u d d' :
  run (AlterColumnType t c ty u) None d = inr d' ->
  exists T, get_table d t = Some T
    /\ get_table d' t
       = Some (mkTable (set_col_type c ty (columns T)) (rows T) (pkey T))
    /\ (forall t', (t =? t') = false -> get_table d' t' = get_table d t').
Proof.
  cbn. destruct (get_table d t) as [T |] eqn:Hg; [| discriminate].
  destruct (col_index c (columns T)) as [i |]; [| discriminate].
  destruct (col_type c (columns T)) as [from |]; [| discriminate].
  destruct (negb _); [discriminate |].
  destruct (forallb _ _); [| discriminate].
  intros H; inversion H; subst. exists T. split; [reflexivity |].
  split; [apply get_set_same | intros; apply get_set_other; auto].
Qed.

Lemma run_rename t old new d d' :
  run (RenameColumn t old new) None d = inr d' ->
  exists T, get_table d t = Some T
    /\ get_table d' t
       = Some (mkTable (rename_col old new (columns T)) (rows T)
                 (match pkey T with
                  | Some k => Some (if k =? old then new else k)
                  | None => None
                  end))
    /\ (forall t', (t =? t') = false -> get_table d' t' = get_table d t').
Proof.
  cbn. destruct (get_table d t) as [T |] eqn:Hg; [| discriminate].
  destruct (col_index old (columns T)); [| discriminate].
  destruct (col_index new (columns T)); [discriminate |].
  intros H; inversion H; subst. exists T. split; [reflexivity |].
  unfold get_table, put. cbn. rewrite String.eqb_refl.
  split; [reflexivity |].
  intros t' Hne. rewrite Hne. apply lookup_remove_other. exact Hne.
Qed.

(* ================================================================== *)
(** ** The vertical-street stage *)

Lemma exec_all_lexed (l : list stmt) (d : database) :
  lex_list lex_stmt l = Some l -> exec_all l d = run_all l d.
Proof.
  revert d. induction l as [| s l IH]; intros d; cbn; [reflexivity |].
  destruct (lex_stmt s) as [s' |] eqn:Hs; [| discriminate].
  destruct (lex_list lex_stmt l) as [l' |] eqn:Hl; [| discriminate].
  intros H; inversion H; subst s' l'.
  unfold execute. rewrite Hs.
  destruct (run s None d); [reflexivity |]. apply IH. reflexivity.
Qed.

(** The copy of one file: it returns normally, and the records are
    stored when the server accepts them all. *)
Lemma copy_from_csv_result (t : string) (recs : list (list datum))
  (w : world) :
  ident_of t = Some t ->
  server_up w = true ->
  exists w',
    copy_from_csv [CopyFromStdin t] recs w = (inr tt, w')
    /\ same_env w w'
    /\ match run (CopyFromStdin t) (Some recs) (db w) with
       | inr d => db w' = d /\ sql_log w' = sql_log w ++ [CopyFromStdin t]
       | inl _ => db w' = db w /\ sql_log w' = sql_log w
       end.
Proof.
  intros Hid Hup. unfold_copy. rewrite Hup. cbn [fst snd].
  unfold copy_expert, server_execute, execute.
  cbn [lex_stmt]. rewrite Hid. cbn [db with_conns].
  destruct (run (CopyFromStdin t) (Some recs) (db w)) as [e | d];
    cbn; eexists; (split; [reflexivity |]); cbn;
    repeat split; reflexivity.
Qed.

Lemma record_ok_street (r : list datum) :
  record_ok street_columns r = true -> exists p v, r = [p; v].
Proof.
  destruct r as [| p [| v [| x r]]]; cbn; try discriminate.
  - destruct (conforms _ p); discriminate.
  - intros _. eauto.
  - destruct (conforms _ p), (conforms _ v); discriminate.
Qed.

Lemma accepted_pairs (recs : list (list datum)) :
  Forall (fun r => exists p v, r = [p; v]) (accepted recs).
Proof.
  unfold accepted. destruct (forallb _ recs) eqn:H; [| constructor].
  rewrite forallb_forall in H. apply Forall_forall. intros r Hr.
  apply record_ok_street. auto.
Qed.

Lemma street_rows_pairs_gen (a : archive) (fs : list string) :
  Forall (fun r => exists p v, r = [p; v])
    (flat_map (fun f => accepted (entry_stream a f)) fs).
Proof.
  induction fs as [| f fs IH]; cbn; [constructor |].
  apply Forall_app. split; [apply accepted_pairs | exact IH].
Qed.

(** The select list of the final table on rows extended by the serial
    column numbers them. *)
Lemma project_numbered (k : nat) (rs : list (list datum)) :
  Forall (fun r => exists p v, r = [p; v]) rs ->
  map (fun g => [cell 2 g; cell 0 g; cell 1 g]) (extend_rows TBigSerial k rs)
  = numbered k rs.
Proof.
  intros H. revert k. induction H as [| r rs (p & v & ->) _ IH]; intros k.
  - reflexivity.
  - cbn. f_equal. apply IH.
Qed.

(** The loop of [parse_vstreets] over the selected files. *)
Lemma street_loop (a : archive) (fs : list string) (w w' : world)
  (T : table) :
  for_each fs
    (fun txt_file =>
       txt <- zip_entry a txt_file ;;
       call_global globals_with_loader "copy_from_csv"
         [PySql [CopyFromStdin "vstreet_table"]; PyStream (stream_of txt)] ;;
       ret tt) w = (inr tt, w') ->
  server_up w = true ->
  get_table (db w) "vstreet_table" = Some T ->
  columns T = street_columns ->
  pkey T = None ->
  get_table (db w') "vstreet_table"
  = Some (mkTable street_columns
            (rows T ++ flat_map (fun f => accepted (entry_stream a f)) fs)
            (pkey T))
  /\ (forall t', ("vstreet_table" =? t') = false ->
                 get_table (db w') t' = get_table (db w) t')
  /\ sql_log w'
     = sql_log w
       ++ flat_map (fun f =>
                      if forallb (record_ok street_columns) (entry_stream a f)
                      then [CopyFromStdin "vstreet_table"] else []) fs
  /\ same_env w w'.
Proof.
  revert w T. induction fs as [| f fs IH]; intros w T Hrun Hup Hg Hc Hk.
  - cbn in Hrun. inversion Hrun; subst w'. cbn. rewrite !app_nil_r.
    split; [rewrite Hg; destruct T; cbn in *; subst; reflexivity |].
    split; [auto |]. split; [reflexivity | apply same_env_refl].
  - cbn [for_each] in Hrun. unfold bind at 1 2 in Hrun.
    unfold zip_entry, entry_stream in *. cbn [flat_map].
    destruct (lookup f a) as [e |] eqn:Hl; [| discriminate].
    cbn [ret] in Hrun. rewrite call_copy_with_loader in Hrun.
    unfold bind at 1 2 in Hrun.
    destruct (copy_from_csv_result "vstreet_table" (stream_of e) w
                eq_refl Hup) as (w1 & Hcopy & Henv & Hres).
    rewrite Hcopy in Hrun. cbn [ret] in Hrun.
    assert (Hup1 : server_up w1 = true)
      by (destruct Henv as (_ & Hs & _); congruence).
    destruct (run (CopyFromStdin "vstreet_table") (Some (stream_of e)) (db w))
      as [pe | d] eqn:Hx.
    + destruct Hres as [Hdb Hlog].
      pose proof (run_copy_error _ _ _ _ Hx T Hg Hk) as Hbad.
      rewrite Hc in Hbad. unfold accepted. rewrite Hbad. cbn [app].
      rewrite <- Hdb in Hg.
      destruct (IH w1 T Hrun Hup1 Hg Hc Hk) as (Ht & Ho & Hlg & He).
      split; [exact Ht |].
      split; [intros t' Hne; rewrite Ho, Hdb; auto |].
      split; [rewrite Hlg, Hlog; reflexivity |].
      eapply same_env_trans; eauto.
    + destruct Hres as [Hdb Hlog].
      destruct (run_copy _ _ _ _ Hx) as (T0 & Hg0 & Hok & Hg1 & Hoth).
      rewrite Hg in Hg0. inversion Hg0; subst T0. rewrite Hc in Hok.
      unfold accepted. rewrite Hok.
      rewrite <- Hdb in Hg1.
      destruct (IH w1 _ Hrun Hup1 Hg1 Hc Hk) as (Ht & Ho & Hlg & He).
      cbn [rows pkey] in Ht.
      split; [rewrite Ht, <- app_assoc; reflexivity |].
      split; [intros t' Hne; rewrite Ho, Hdb; auto |].
      split; [rewrite Hlg, Hlog, <- app_assoc; reflexivity |].
      eapply same_env_trans; eauto.
Qed.

Lemma bind_ok {S A B : Type} (m : M S A) (k : A -> M S B) (s s' : S) (b : B) :
  (x <- m ;; k x) s = (inr b, s') ->
  exists a s1, m s = (inr a, s1) /\ k a s1 = (inr b, s').
Proof.
  unfold bind. destruct (m s) as [[e | a] s1]; [discriminate |]. eauto.
Qed.

Lemma loader_ok (b : batch) (w w' : world) (v : pyvalue) :
  call_global globals_with_loader "exec_sql_statements" [PyTuple b] w
  = (inr v, w') ->
  exec_sql_statements b w = (inr tt, w').
Proof.
  rewrite call_loader. intros H. apply bind_ok in H.
  destruct H as ([] & w1 & H1 & H2). inversion H2; subst. exact H1.
Qed.

(** What [parse_vstreets] has done when it returns. *)
Lemma vstreets_result (zf hf : option string) (w w' : world) :
  parse_vstreets globals_with_loader (instance zf hf) w = (inr tt, w') ->
  exists (z : string) (a : archive),
    zf = Some z
    /\ zip_open z w = (inr a, w)
    /\ get_table (db w') "vstreetlookup"
       = Some (mkTable [("id", TBigSerial); ("postcode", TVarchar 8);
                        ("vstreet_ref", TVarchar 8)]
                 (numbered 0 (street_rows a)) (Some "id"))
    /\ get_table (db w') "vstreet_table" = None
    /\ sql_log w'
       = sql_log w
         ++ [DropTable true "vstreet_table"; DropTable true "vstreetlookup";
             CreateTable "vstreet_table" street_columns]
         ++ street_copies a
         ++ [AddColumn "vstreet_table" "id" TBigSerial;
             CreateTableAs false "vstreetlookup"
               [Col "id"; Col "postcode"; Col "vstreet_ref"]
               (FromTable "vstreet_table");
             AddPrimaryKey "vstreetlookup" "id";
             DropTable false "vstreet_table"]
    /\ system_log w' = system_log w.
Proof.
  intros Hrun. unfold parse_vstreets in Hrun.
  apply bind_ok in Hrun. destruct Hrun as (z & w0 & Hattr & Hrun).
  destruct zf as [z0 |]; [| discriminate].
  cbn in Hattr. inversion Hattr; subst z0 w0. clear Hattr.
  apply bind_ok in Hrun. destruct Hrun as (zp & wp & Hpath & Hrun).
  cbn in Hpath. inversion Hpath; subst zp wp. clear Hpath.
  apply bind_ok in Hrun. destruct Hrun as (a & w0 & Hzip & Hrun).
  pose proof (zip_open_frame _ _ _ _ Hzip) as ->.
  exists z, a. split; [reflexivity |]. split; [exact Hzip |].
  (* the two drops *)
  apply bind_ok in Hrun. destruct Hrun as (v1 & w1 & H1 & Hrun).
  apply loader_ok, exec_sql_ok in H1.
  destruct H1 as (Hup & X1 & L1 & E1).
  rewrite exec_all_lexed in X1 by reflexivity. cbn [statements vstreets_drop
    instance vstreet_table vstreet_target init concat app run_all] in X1.
  destruct (run (DropTable true "vstreet_table") None (db w)) as [|d1] eqn:D1;
    [discriminate |].
  destruct (run (DropTable true "vstreetlookup") None d1) as [|d2] eqn:D2;
    [discriminate |].
  inversion X1 as [Hd2]. clear X1.
  apply run_drop in D1. destruct D1 as (_ & O1 & _).
  apply run_drop in D2. destruct D2 as (N2 & O2 & _).
  (* the creation of the staging table *)
  apply bind_ok in Hrun. destruct Hrun as (v2 & w2 & H2 & Hrun).
  apply loader_ok, exec_sql_ok in H2.
  destruct H2 as (Hup1 & X2 & L2 & E2).
  rewrite exec_all_lexed in X2 by reflexivity. cbn [statements vstreets_create
    instance vstreet_table vstreet_target init concat app run_all] in X2.
  destruct (run (CreateTable "vstreet_table" _) None (db w1)) as [|d3] eqn:D3;
    [discriminate |].
  inversion X2 as [Hd3]. clear X2.
  apply run_create in D3. destruct D3 as (_ & G3 & O3).
  (* the copies *)
  apply bind_ok in Hrun. destruct Hrun as ([] & w3 & H3 & Hrun).
  assert (Hup2 : server_up w2 = true)
    by (destruct E2 as (_ & Hs & _); congruence).
  rewrite Hd3 in G3.
  cbn [instance vstreet_table init] in H3.
  destruct (street_loop a _ w2 w3 _ H3 Hup2 G3 eq_refl eq_refl)
    as (G4 & O4 & L4 & E4).
  cbn [rows pkey app] in G4. fold (street_files a) in G4, L4.
  fold (street_rows a) in G4. fold (street_copies a) in L4.
  (* the serial column, the projection and the key *)
  apply bind_ok in Hrun. destruct Hrun as (v4 & w4 & H4 & Hrun).
  apply loader_ok, exec_sql_ok in H4.
  destruct H4 as (Hup3 & X4 & L5 & E5).
  rewrite exec_all_lexed in X4 by reflexivity. cbn [statements vstreets_clean
    instance vstreet_table vstreet_target init concat app run_all] in X4.
  destruct (run (AddColumn "vstreet_table" "id" TBigSerial) None (db w3))
    as [|d5] eqn:D5; [discriminate |].
  destruct (run (CreateTableAs false "vstreetlookup" _ _) None d5)
    as [|d6] eqn:D6; [discriminate |].
  destruct (run (AddPrimaryKey "vstreetlookup" "id") None d6)
    as [|d7] eqn:D7; [discriminate |].
  inversion X4 as [Hd7]. clear X4.
  apply run_add_column in D5. destruct D5 as (T5 & G5 & _ & G5' & O5).
  rewrite G4 in G5. inversion G5; subst T5. clear G5.
  cbn [columns rows pkey street_columns app] in G5'.
  assert (N5 : get_table d5 "vstreetlookup" = None).
  { rewrite O5 by reflexivity. rewrite O4 by reflexivity.
    rewrite <- Hd3, O3 by reflexivity. rewrite <- Hd2. exact N2. }
  apply run_create_as in D6. destruct D6 as (cols & rws & Hsel & G6 & O6).
  specialize (G6 N5).
  unfold eval_select in Hsel. rewrite G5' in Hsel. cbn in Hsel.
  inversion Hsel; subst cols rws. clear Hsel.
  rewrite project_numbered in G6 by apply street_rows_pairs_gen.
  apply run_primary_key in D7. destruct D7 as (T7 & G7 & G7' & O7).
  rewrite G6 in G7. inversion G7; subst T7. clear G7.
  cbn [columns rows] in G7'.
  (* the drop of the staging table *)
  apply bind_ok in Hrun. destruct Hrun as (v5 & w5 & H5 & Hrun).
  inversion Hrun; subst w5. clear Hrun.
  apply loader_ok, exec_sql_ok in H5.
  destruct H5 as (Hup4 & X5 & L6 & E6).
  rewrite exec_all_lexed in X5 by reflexivity. cbn [statements vstreets_final
    instance vstreet_table vstreet_target init concat app run_all] in X5.
  destruct (run (DropTable false "vstreet_table") None (db w4))
    as [|d8] eqn:D8; [discriminate |].
  inversion X5 as [Hd8]. clear X5.
  apply run_drop in D8. destruct D8 as (N8 & O8 & _).
  split; [rewrite <- Hd8, O8 by reflexivity; rewrite <- Hd7; exact G7' |].
  split; [rewrite <- Hd8; exact N8 |].
  split.
  - rewrite L6, L5, L4, L2, L1.
    cbn [statements vstreets_drop vstreets_create vstreets_clean
           vstreets_final instance vstreet_table vstreet_target init
           concat app].
    rewrite <- !app_assoc. reflexivity.
  - destruct E1 as (_ & _ & S1), E2 as (_ & _ & S2), E4 as (_ & _ & S4),
      E5 as (_ & _ & S5), E6 as (_ & _ & S6). congruence.
Qed.



(* ================================================================== *)
(** ** The right join *)

Lemma col_index_bound c cols i :
  col_index c cols = Some i ->
  i < List.length cols /\ fst (nth i cols (EmptyString, TText)) = c.
Proof.
  revert i. induction cols as [| [c' ty] cols IH]; intros i; cbn;
    [discriminate |].
  destruct (c' =? c) eqn:E.
  - intros H; inversion H; subst. apply String.eqb_eq in E.
    split; [lia | exact E].
  - destruct (col_index c cols) as [j |]; [| discriminate].
    intros H; inversion H; subst. destruct (IH j eq_refl). split; [lia | auto].
Qed.

Lemma col_index_names c cols cols' :
  map fst cols = map fst cols' -> col_index c cols = col_index c cols'.
Proof.
  revert cols'. induction cols as [| [c1 t1] cols IH];
    intros [| [c2 t2] cols']; cbn; try discriminate; [reflexivity |].
  intros H; inversion H; subst. rewrite (IH cols'); auto.
Qed.

Lemma col_index_some c cols :
  In c (map fst cols) -> exists i, col_index c cols = Some i.
Proof.
  induction cols as [| [c' ty] cols IH]; cbn; [contradiction |].
  destruct (c' =? c) eqn:E; [eauto |].
  intros [H | H]; [subst; rewrite String.eqb_refl in E; discriminate |].
  destruct (IH H) as [i ->]. cbn. eauto.
Qed.

Lemma col_index_in c cols i :
  col_index c cols = Some i -> In c (map fst cols).
Proof.
  revert i. induction cols as [| [c' ty] cols IH]; intros i; cbn;
    [discriminate |].
  destruct (c' =? c) eqn:E.
  - apply String.eqb_eq in E. auto.
  - destruct (col_index c cols) as [j |]; [| discriminate]. eauto.
Qed.

(** The cell of an output row at the position of output column [c] is the
    value of a slot named [c]. *)
Lemma out_cell (ss : list slot) (c : string) (i : nat) :
  col_index c (out_columns ss) = Some i ->
  exists x, In x ss /\ slot_name x = c
            /\ forall f : slot -> datum, cell i (map f ss) = f x.
Proof.
  unfold out_columns.
  revert i. induction ss as [| y ss IH]; intros i; cbn; [discriminate |].
  destruct (slot_name y =? c) eqn:E.
  - intros H; inversion H; subst. apply String.eqb_eq in E.
    exists y. auto.
  - destruct (col_index c (map _ ss)) as [j |]; [| discriminate].
    intros H; inversion H; subst.
    destruct (IH j eq_refl) as (x & Hin & Hn & Hf).
    exists x. split; [auto |]. split; [exact Hn |].
    intros f. cbn. apply Hf.
Qed.

Lemma first_dup_none (l : list string) :
  first_dup l = None -> NoDup l.
Proof.
  induction l as [| x l IH]; cbn; [constructor |].
  destruct (mem x l) eqn:E; [discriminate |].
  intros H. constructor; [| auto].
  intros Hin. unfold mem in E.
  assert (existsb (String.eqb x) l = true)
    by (apply existsb_exists; exists x; split; [auto | apply String.eqb_refl]).
  congruence.
Qed.

Lemma same_name_same_slot (ss : list slot) (x y : slot) :
  NoDup (map slot_name ss) -> In x ss -> In y ss ->
  slot_name x = slot_name y -> x = y.
Proof.
  induction ss as [| z ss IH]; cbn; [contradiction |].
  intros Hnd Hx Hy Hn. inversion Hnd as [| ? ? Hnot Hnd']; subst.
  destruct Hx as [-> | Hx], Hy as [-> | Hy]; auto.
  - exfalso. apply Hnot. rewrite Hn. apply in_map. exact Hy.
  - exfalso. apply Hnot. rewrite <- Hn. apply in_map. exact Hx.
Qed.

(** *** Resolution of the select list *)

Lemma resolve_in_spec sd T c x :
  resolve_in sd T c = inr x ->
  slot_side x = sd /\ slot_name x = c
  /\ col_index c (columns T) = Some (slot_pos x).
Proof.
  unfold resolve_in.
  destruct (col_index c (columns T)) as [i |]; [| discriminate].
  destruct (col_type c (columns T)); [| discriminate].
  intros H; inversion H; subst. auto.
Qed.

Lemma resolve_right l r L R c x :
  (r =? l) = false ->
  resolve_join l r L R (QCol r c) = inr x ->
  slot_side x = OnRight /\ slot_name x = c
  /\ col_index c (columns R) = Some (slot_pos x).
Proof.
  intros Hne. cbn. rewrite Hne, String.eqb_refl. apply resolve_in_spec.
Qed.

Lemma resolve_left l r L R c x :
  resolve_join l r L R (QCol l c) = inr x ->
  slot_side x = OnLeft /\ slot_name x = c
  /\ col_index c (columns L) = Some (slot_pos x).
Proof. cbn. rewrite String.eqb_refl. apply resolve_in_spec. Qed.

Lemma resolve_all_app f l1 l2 ss :
  resolve_all f (l1 ++ l2) = inr ss ->
  exists ss1 ss2, ss = ss1 ++ ss2
                  /\ resolve_all f l1 = inr ss1
                  /\ resolve_all f l2 = inr ss2.
Proof.
  revert ss. induction l1 as [| c l1 IH]; intros ss; cbn.
  - intros H. exists [], ss. auto.
  - destruct (f c) as [e | s]; [discriminate |].
    destruct (resolve_all f (l1 ++ l2)) as [e | ss'] eqn:Hr; [discriminate |].
    intros H; inversion H; subst.
    destruct (IH ss' eq_refl) as (ss1 & ss2 & -> & H1 & H2).
    rewrite H1. exists (s :: ss1), ss2. auto.
Qed.

Lemma resolve_all_left l r L R names ks :
  resolve_all (resolve_join l r L R) (map (QCol l) names) = inr ks ->
  Forall (fun x => slot_side x = OnLeft
                   /\ col_index (slot_name x) (columns L) = Some (slot_pos x))
         ks.
Proof.
  revert ks. induction names as [| n names IH]; intros ks; cbn -[resolve_join].
  - intros H; inversion H. constructor.
  - destruct (resolve_join l r L R (QCol l n)) as [e | x] eqn:Hx;
      [discriminate |].
    destruct (resolve_all _ (map (QCol l) names)) as [e | ks'];
      [discriminate |].
    intros H; inversion H; subst. constructor; [| apply IH; reflexivity].
    apply resolve_left in Hx. destruct Hx as (Hs & Hn & Hc).
    rewrite Hn. auto.
Qed.

(** *** Rows of the join *)

Lemma right_join_in (ss : list slot) (a b : slot) (L R : list (list datum))
  (r : list datum) :
  In r (right_join_rows ss a b L R) <->
  exists g, In g R
    /\ ((partners a b L g = [] /\ r = map (slot_value_unmatched g) ss)
        \/ exists s, In s (partners a b L g) /\ r = map (slot_value s g) ss).
Proof.
  unfold right_join_rows. rewrite in_flat_map. split.
  - intros (g & Hg & Hr). exists g. split; [exact Hg |].
    destruct (partners a b L g) as [| s0 ms] eqn:Hp.
    + left. destruct Hr as [<- | []]. auto.
    + right. apply in_map_iff in Hr. destruct Hr as (s & <- & Hs). eauto.
  - intros (g & Hg & [(Hp & ->) | (s & Hs & ->)]); exists g; (split; [exact Hg |]).
    + rewrite Hp. left. reflexivity.
    + destruct (partners a b L g) as [| s0 ms]; [contradiction |].
      apply in_map_iff. exists s. auto.
Qed.

Lemma right_join_covers (ss : list slot) (a b : slot)
  (L R : list (list datum)) (g : list datum) :
  In g R ->
  exists r, In r (right_join_rows ss a b L R)
    /\ ((partners a b L g = [] /\ r = map (slot_value_unmatched g) ss)
        \/ exists s, In s (partners a b L g) /\ r = map (slot_value s g) ss).
Proof.
  intros Hg. destruct (partners a b L g) as [| s0 ms] eqn:Hp.
  - exists (map (slot_value_unmatched g) ss). split; [| left; auto].
    apply right_join_in. exists g. rewrite Hp. auto.
  - exists (map (slot_value s0 g) ss).
    split; [| right; exists s0; split; [left; reflexivity | reflexivity]].
    apply right_join_in. exists g. rewrite Hp. split; [exact Hg |].
    right. exists s0. split; [left; reflexivity | reflexivity].
Qed.

Lemma filter_nil_iff {A : Type} (p : A -> bool) (l : list A) :
  filter p l = [] <-> forall x, In x l -> p x = false.
Proof.
  induction l as [| y l IH]; cbn.
  - split; [intros _ x [] | reflexivity].
  - destruct (p y) eqn:E.
    + split; [discriminate |]. intros H. specialize (H y (or_introl eq_refl)).
      congruence.
    + rewrite IH. split.
      * intros H x [<- | Hx]; auto.
      * intros H x Hx. auto.
Qed.

Section JoinOnPostcode.

Variables (l r : string) (L R : table) (names : list string).
Variables (ss : list slot) (a b : slot).

Hypothesis distinct : (r =? l) = false.
Hypothesis Hsel :
  resolve_all (resolve_join l r L R)
    ([QCol r "id"; QCol r "postcode"; QCol r "pc_area"]
     ++ map (QCol l) names ++ [QCol r "polygon"]) = inr ss.
Hypothesis Ha : resolve_join l r L R (QCol r "postcode") = inr a.
Hypothesis Hb : resolve_join l r L R (QCol l "postcode") = inr b.
Hypothesis Hnodup : first_dup (map slot_name ss) = None.

Variable T : table.
Hypothesis Hcols : map fst (columns T) = map fst (out_columns ss).

Lemma join_shape :
  exists s1 s2 s3 s4 ks,
    ss = [s1; s2; s3] ++ ks ++ [s4]
    /\ (slot_side s1 = OnRight /\ slot_name s1 = "id"
        /\ col_index "id" (columns R) = Some (slot_pos s1))
    /\ (slot_side s2 = OnRight /\ slot_name s2 = "postcode"
        /\ col_index "postcode" (columns R) = Some (slot_pos s2))
    /\ (slot_side s3 = OnRight /\ slot_name s3 = "pc_area"
        /\ col_index "pc_area" (columns R) = Some (slot_pos s3))
    /\ (slot_side s4 = OnRight /\ slot_name s4 = "polygon"
        /\ col_index "polygon" (columns R) = Some (slot_pos s4))
    /\ Forall (fun x => slot_side x = OnLeft
                 /\ col_index (slot_name x) (columns L) = Some (slot_pos x))
         ks.
Proof.
  pose proof Hsel as H.
  apply (resolve_all_app _ [_; _; _]) in H.
  destruct H as (h & t & -> & Hh & Ht).
  apply resolve_all_app in Ht. destruct Ht as (ks & t4 & -> & Hk & H4).
  cbn -[resolve_join] in Hh, H4.
  destruct (resolve_join l r L R (QCol r "id")) as [| s1] eqn:E1;
    [discriminate |].
  destruct (resolve_join l r L R (QCol r "postcode")) as [| s2] eqn:E2;
    [discriminate |].
  destruct (resolve_join l r L R (QCol r "pc_area")) as [| s3] eqn:E3;
    [discriminate |].
  destruct (resolve_join l r L R (QCol r "polygon")) as [| s4] eqn:E4;
    [discriminate |].
  inversion Hh; subst h. inversion H4; subst t4.
  exists s1, s2, s3, s4, ks. split; [reflexivity |].
  split; [eapply resolve_right; eauto |].
  split; [eapply resolve_right; eauto |].
  split; [eapply resolve_right; eauto |].
  split; [eapply resolve_right; eauto |].
  eapply resolve_all_left; eauto.
Qed.

(** The value of a column of [T] on an output row. *)
Lemma field_out (c : string) (f : slot -> datum) :
  In c (map fst (columns T)) ->
  exists x, In x ss /\ slot_name x = c /\ field T c (map f ss) = f x.
Proof.
  intros Hin. destruct (col_index_some _ _ Hin) as [i Hi].
  unfold field. rewrite Hi.
  rewrite (col_index_names c _ _ Hcols) in Hi.
  destruct (out_cell ss c i Hi) as (x & Hx & Hn & Hf).
  exists x. auto.
Qed.

Lemma out_names : map fst (out_columns ss) = map slot_name ss.
Proof. unfold out_columns. rewrite map_map. reflexivity. Qed.

(** A key column of an output row is read in the geometry row. *)
Lemma key_of_row (c : string) (g : list datum) (f : slot -> datum) :
  (forall x, slot_side x = OnRight -> f x = cell (slot_pos x) g) ->
  In c key_columns ->
  field T c (map f ss) = field R c g.
Proof.
  intros Hf Hc.
  destruct join_shape as (s1 & s2 & s3 & s4 & ks & Hss & K1 & K2 & K3 & K4 & _).
  assert (Hkey : exists x, In x ss /\ slot_name x = c /\ slot_side x = OnRight
                           /\ col_index c (columns R) = Some (slot_pos x)).
  { rewrite Hss. cbn in Hc.
    destruct Hc as [<- | [<- | [<- | [<- | []]]]].
    - exists s1. cbn. intuition.
    - exists s2. cbn. intuition.
    - exists s3. cbn. intuition.
    - exists s4. split; [| intuition].
      apply in_or_app. right. apply in_or_app. right. left. reflexivity. }
  destruct Hkey as (x & Hx & Hn & Hs & Hi).
  assert (Hin : In c (map fst (columns T))).
  { rewrite Hcols, out_names, <- Hn. apply in_map. exact Hx. }
  destruct (field_out c f Hin) as (y & Hy & Hny & ->).
  assert (y = x).
  { apply (same_name_same_slot ss); auto.
    - apply first_dup_none. exact Hnodup.
    - congruence. }
  subst y. rewrite (Hf x Hs). unfold field. rewrite Hi. reflexivity.
Qed.

(** An attribute column of an output row is read in the attribute row. *)
Lemma attribute_of_row (c : string) (f : slot -> datum) :
  attribute_column T c ->
  exists x, slot_side x = OnLeft
            /\ col_index c (columns L) = Some (slot_pos x)
            /\ field T c (map f ss) = f x.
Proof.
  intros [Hin Hnk].
  destruct join_shape as (s1 & s2 & s3 & s4 & ks & Hss & K1 & K2 & K3 & K4 & Hk).
  destruct (field_out c f Hin) as (x & Hx & Hn & Hf).
  exists x. rewrite Hss in Hx.
  assert (Hxk : In x ks).
  { cbn in Hx. destruct Hx as [<- | [<- | [<- | Hx]]].
    - exfalso. apply Hnk. destruct K1 as (_ & K & _).
      rewrite <- Hn, K. cbn. auto.
    - exfalso. apply Hnk. destruct K2 as (_ & K & _).
      rewrite <- Hn, K. cbn. auto.
    - exfalso. apply Hnk. destruct K3 as (_ & K & _).
      rewrite <- Hn, K. cbn. auto.
    - apply in_app_or in Hx. destruct Hx as [Hx | [<- | []]]; [exact Hx |].
      exfalso. apply Hnk. destruct K4 as (_ & K & _).
      rewrite <- Hn, K. cbn. auto. }
  rewrite Forall_forall in Hk. destruct (Hk x Hxk) as [Hs Hi].
  rewrite Hn in Hi. auto.
Qed.

Lemma partners_matches (g s : list datum) :
  sql_eqb (slot_value s g a) (slot_value s g b) = matches R L g s.
Proof.
  apply resolve_right in Ha; [| exact distinct].
  apply resolve_left in Hb.
  destruct Ha as (Sa & _ & Ia), Hb as (Sb & _ & Ib).
  unfold slot_value, matches, field. rewrite Sa, Sb, Ia, Ib. reflexivity.
Qed.

Lemma partners_nil (g : list datum) :
  partners a b (rows L) g = [] <-> unmatched R L g.
Proof.
  unfold partners, unmatched. rewrite filter_nil_iff.
  split; intros H s Hs; specialize (H s Hs);
    rewrite partners_matches in *; exact H.
Qed.

Lemma partners_in (g s : list datum) :
  In s (partners a b (rows L) g) <-> In s (rows L) /\ matches R L g s = true.
Proof.
  unfold partners. rewrite filter_In, partners_matches. reflexivity.
Qed.

Lemma unmatched_row (g : list datum) :
  carries R T g (map (slot_value_unmatched g) ss)
  /\ null_attributes T (map (slot_value_unmatched g) ss).
Proof.
  split.
  - intros c Hc. apply key_of_row; [| exact Hc].
    intros x Hs. unfold slot_value_unmatched. rewrite Hs. reflexivity.
  - intros c Hc.
    destruct (attribute_of_row c (slot_value_unmatched g) Hc)
      as (x & Hs & _ & ->).
    unfold slot_value_unmatched. rewrite Hs. reflexivity.
Qed.

Lemma matched_row (g s : list datum) :
  carries R T g (map (slot_value s g) ss)
  /\ attributes_of L T s (map (slot_value s g) ss).
Proof.
  split.
  - intros c Hc. apply key_of_row; [| exact Hc].
    intros x Hs. unfold slot_value. rewrite Hs. reflexivity.
  - intros c Hc.
    destruct (attribute_of_row c (slot_value s g) Hc) as (x & Hs & Hi & ->).
    unfold slot_value, field. rewrite Hs, Hi. reflexivity.
Qed.

(** The rows of the join, read column by column. *)
Lemma join_is_right_joined :
  rows T = right_join_rows ss a b (rows L) (rows R) ->
  right_joined L R T.
Proof.
  intros Hrows. split.
  - intros g Hg.
    destruct (right_join_covers ss a b (rows L) (rows R) g Hg)
      as (t & Ht & [(Hp & ->) | (s & Hs & ->)]);
      rewrite <- Hrows in Ht; eexists; (split; [exact Ht |]).
    + destruct (unmatched_row g). auto.
    + destruct (matched_row g s) as [Hc _]. split; [exact Hc |].
      intros Hu. apply partners_in in Hs. destruct Hs as [Hin Hm].
      rewrite (Hu s Hin) in Hm. discriminate.
  - intros t Ht. rewrite Hrows in Ht. apply right_join_in in Ht.
    destruct Ht as (g & Hg & [(Hp & ->) | (s & Hs & ->)]);
      exists g; (split; [exact Hg |]).
    + destruct (unmatched_row g) as [Hc Hn]. split; [exact Hc |].
      left. split; [apply partners_nil; exact Hp | exact Hn].
    + destruct (matched_row g s) as [Hc Hat]. split; [exact Hc |].
      right. apply partners_in in Hs. destruct Hs as [Hin Hm].
      exists s. auto.
Qed.

End JoinOnPostcode.

(* ================================================================== *)
(** ** The attribute stage *)

Lemma exec_all_app (l1 l2 : list stmt) (d d' : database) :
  exec_all (l1 ++ l2) d = inr d' ->
  exists dm, exec_all l1 d = inr dm /\ exec_all l2 dm = inr d'.
Proof.
  revert d. induction l1 as [| s l1 IH]; intros d; cbn.
  - eauto.
  - destruct (execute s None d) as [e | d1]; [discriminate | apply IH].
Qed.

Lemma statements_app (b1 b2 : batch) :
  statements (b1 ++ b2) = statements b1 ++ statements b2.
Proof. apply concat_app. Qed.

(** The converter writes to its layer's table only. *)
Lemma converter_frame (c : ogr2ogr) (w : world) (t' : string) :
  (nln c =? t') = false ->
  get_table (converter c w) t' = get_table (db w) t'.
Proof.
  intros Hne. unfold converter.
  destruct (workdir w) as [dd |]; [| reflexivity].
  destruct (resolve_source dd _ _) as [e |]; [| reflexivity].
  destruct (layer_of e) as [ly |]; [| reflexivity].
  destruct (server_up w && _); [| reflexivity].
  unfold append_layer. apply get_set_other. exact Hne.
Qed.

(** The loop of [parse_info] over the attribute files. *)
Lemma attribute_loop (z : string) (fs : list string) (w : world) :
  exists w1,
    for_each fs
      (fun csv_file =>
         print ("Parsing Postcode >> " ++ csv_file)%string ;;
         os_system (mkOgr 1 [z; csv_file] "postcode_staging" None true None))
      w = (inr tt, w1)
    /\ (forall t', ("postcode_staging" =? t') = false ->
                   get_table (db w1) t' = get_table (db w) t')
    /\ sql_log w1 = sql_log w
    /\ server_up w1 = server_up w.
Proof.
  revert w. induction fs as [| f fs IH]; intros w.
  - exists w. cbn. auto.
  - cbn [for_each]. unfold bind at 1 2. unfold print at 1, os_system at 1, modify.
    match goal with
    | |- context [for_each fs ?body ?w0] =>
        destruct (IH w0) as (w1 & Hrun & Hot & Hlog & Hup)
    end.
    exists w1. split; [exact Hrun |].
    split; [| split; [rewrite Hlog; reflexivity | rewrite Hup; reflexivity]].
    intros t' Hne. rewrite (Hot t' Hne).
    cbn [db with_system_log with_db].
    rewrite converter_frame by exact Hne. reflexivity.
Qed.

(** What the first part of [parse_info] leaves when it returns. *)
Lemma info_ingest_ok (zf hf : option string) (w w1 : world)
  (cols : list string) :
  info_ingest globals_with_loader (instance zf hf) w = (inr cols, w1) ->
  (forall t', ("postcode_staging" =? t') = false ->
              get_table (db w1) t' = get_table (db w) t')
  /\ sql_log w1 = sql_log w ++ [DropTable true "postcode_staging"].
Proof.
  unfold info_ingest. intros Hrun.
  apply bind_ok in Hrun. destruct Hrun as (h & w0 & Hattr & Hrun).
  apply attr_frame in Hattr. subst w0.
  apply bind_ok in Hrun. destruct Hrun as (hp & w0 & Hpath & Hrun).
  apply path_div_frame in Hpath. subst w0.
  apply bind_ok in Hrun. destruct Hrun as (content & w0 & Hopen & Hrun).
  apply open_text_frame in Hopen. subst w0.
  apply bind_ok in Hrun. destruct Hrun as (cols0 & w0 & Hcols & Hrun).
  unfold of_result in Hcols. inversion Hcols; subst w0. clear Hcols.
  apply bind_ok in Hrun. destruct Hrun as (z & w0 & Hattr & Hrun).
  apply attr_frame in Hattr. subst w0.
  apply bind_ok in Hrun. destruct Hrun as (zp & w0 & Hpath & Hrun).
  apply path_div_frame in Hpath. subst w0.
  apply bind_ok in Hrun. destruct Hrun as (a & w0 & Hzip & Hrun).
  apply zip_open_frame in Hzip. subst w0.
  apply bind_ok in Hrun. destruct Hrun as (v & w2 & Hdrop & Hrun).
  apply loader_ok, exec_sql_ok in Hdrop.
  destruct Hdrop as (Hup & X & Lg & E).
  rewrite exec_all_lexed in X by reflexivity.
  cbn [statements concat app run_all instance staging_table init] in X.
  destruct (run (DropTable true "postcode_staging") None (db w))
    as [| d1] eqn:D1; [discriminate |].
  inversion X as [Hd1]. clear X.
  apply run_drop in D1. destruct D1 as (_ & O1 & _).
  apply bind_ok in Hrun. destruct Hrun as ([] & w3 & Hloop & Hrun).
  inversion Hrun; subst w3 cols0. clear Hrun.
  cbn [instance staging_table init] in Hloop.
  match type of Hloop with
  | for_each ?fs _ _ = _ =>
      destruct (attribute_loop z fs w2) as (w1' & Hl & Hot & Hlog & _)
  end.
  rewrite Hl in Hloop. inversion Hloop; subst w1'.
  split.
  - intros t' Hne. rewrite (Hot t' Hne), <- Hd1. auto.
  - rewrite Hlog, Lg. reflexivity.
Qed.

(** The renames of the plan touch the staging table only. *)
Lemma renames_frame (zf hf : option string) (cols : list string) (k : nat)
  (d d' : database) :
  exec_all (statements (plan_renames (instance zf hf) k cols)) d = inr d' ->
  forall t', ("postcode_staging" =? t') = false ->
             get_table d' t' = get_table d t'.
Proof.
  revert k d. induction cols as [| c cols IH]; intros k d.
  - cbn. intros H; inversion H; subst. reflexivity.
  - unfold plan_renames. cbn [List.length seq combine map statements concat
                               app exec_all fst snd instance staging_table init].
    destruct (execute _ None d) as [e | d1] eqn:Hx; [discriminate |].
    intros Hrest t' Hne.
    change (exec_all (statements (plan_renames (instance zf hf) (S k) cols)) d1
            = inr d') in Hrest.
    rewrite (IH _ _ Hrest t' Hne).
    unfold execute in Hx. cbn [lex_stmt] in Hx.
    change (ident_of "postcode_staging") with (Some "postcode_staging") in Hx.
    destruct (ident_of _) as [o |]; [| discriminate].
    destruct (ident_of (lower c)) as [n |]; [| discriminate].
    apply run_rename in Hx. destruct Hx as (_ & _ & _ & Hot). auto.
Qed.

Lemma lex_list_app {A : Type} (f : A -> option A) (l1 l2 l' : list A) :
  lex_list f (l1 ++ l2) = Some l' ->
  exists l1' l2', l' = l1' ++ l2'
                  /\ lex_list f l1 = Some l1' /\ lex_list f l2 = Some l2'.
Proof.
  revert l'. induction l1 as [| x l1 IH]; intros l'; cbn.
  - intros H. exists [], l'. auto.
  - destruct (f x) as [x' |]; [| discriminate].
    destruct (lex_list f (l1 ++ l2)) as [r |] eqn:Hr; [| discriminate].
    intros H; inversion H; subst.
    destruct (IH r eq_refl) as (l1' & l2' & -> & H1 & H2).
    rewrite H1. exists (x' :: l1'), l2'. auto.
Qed.

(** Read by the server, the attribute part of the select list is still
    a list of columns of the staging table. *)
Lemma lex_kept (names : list string) (l' : list colref) :
  lex_list lex_colref (map (QCol "postcode_staging") names) = Some l' ->
  exists names', l' = map (QCol "postcode_staging") names'.
Proof.
  revert l'. induction names as [| n names IH]; intros l'; cbn [map lex_list].
  - intros H; inversion H. exists []. reflexivity.
  - cbn [lex_colref].
    change (ident_of "postcode_staging") with (Some "postcode_staging").
    destruct (ident_of n) as [n' |]; [| discriminate].
    destruct (lex_list lex_colref _) as [r |]; [| discriminate].
    intros H; inversion H; subst.
    destruct (IH r eq_refl) as (names' & ->).
    exists (n' :: names'). reflexivity.
Qed.

Lemma set_col_type_names c ty cols :
  map fst (set_col_type c ty cols) = map fst cols.
Proof.
  induction cols as [| [c' ty'] cols IH]; cbn; [reflexivity |].
  destruct (c' =? c); cbn; [reflexivity | rewrite IH; reflexivity].
Qed.

(** Type changes on [t] keep its rows, its column names and its key, and
    leave the other tables alone. *)
Lemma run_all_alters (t : string) (l : list stmt) (d d' : database)
  (T : table) :
  forallb (alters t) l = true ->
  run_all l d = inr d' ->
  get_table d t = Some T ->
  (exists T', get_table d' t = Some T'
              /\ rows T' = rows T
              /\ map fst (columns T') = map fst (columns T)
              /\ pkey T' = pkey T)
  /\ (forall t', (t =? t') = false -> get_table d' t' = get_table d t').
Proof.
  revert d T. induction l as [| s l IH]; intros d T Hall Hrun Hg.
  - cbn in Hrun. inversion Hrun; subst. split; [exists T; auto | auto].
  - cbn [forallb] in Hall. apply andb_prop in Hall. destruct Hall as [Hs Hl].
    destruct s; try discriminate. cbn in Hs. apply String.eqb_eq in Hs. subst t0.
    cbn [run_all] in Hrun.
    destruct (run (AlterColumnType t c ty using_cast) None d) as [| d1] eqn:Hx;
      [discriminate |].
    apply run_alter_type in Hx. destruct Hx as (T0 & Hg0 & Hg1 & Hot).
    rewrite Hg in Hg0. inversion Hg0; subst T0.
    destruct (IH d1 _ Hl Hrun Hg1) as ((T' & Hg' & Hr & Hn & Hp) & Hot').
    cbn [rows columns pkey] in Hr, Hn, Hp.
    rewrite set_col_type_names in Hn.
    split; [exists T'; auto |].
    intros t' Hne. rewrite (Hot' t' Hne). auto.
Qed.

(** The statements [parse_info] sends after the renames. *)
Lemma merge_statements (zf hf : option string) (fields : list colref) :
  statements (merge_commands (instance zf hf) fields)
  = [DropTable true "postcode";
     CreateTableAs false "postcode" fields
       (RightJoin "postcode_staging" "postcode_polygons"
          (QCol "postcode_polygons" "postcode")
          (QCol "postcode_staging" "postcode"))]
    ++ merge_casts (instance zf hf)
    ++ [AddPrimaryKey "postcode" "id";
        DropTable false "postcode_polygons";
        DropTable false "postcode_staging"].
Proof. reflexivity. Qed.

(** What [parse_info] has done when it returns. *)
Lemma info_result (zf hf : option string) (w w' : world)
  (G : table) :
  parse_info globals_with_loader (instance zf hf) w = (inr tt, w') ->
  get_table (db w) "postcode_polygons" = Some G ->
  exists (cols : list string) (dj : database) (S T : table),
    fst (info_ingest globals_with_loader (instance zf hf) w) = inr cols
    /\ exec_all (statements (plan_renames (instance zf hf) 0 cols))
         (db (snd (info_ingest globals_with_loader (instance zf hf) w)))
       = inr dj
    /\ get_table dj "postcode_staging" = Some S
    /\ get_table dj "postcode_polygons" = Some G
    /\ get_table (db w') "postcode" = Some T
    /\ pkey T = Some "id"
    /\ right_joined S G T
    /\ get_table (db w') "postcode_polygons" = None
    /\ get_table (db w') "postcode_staging" = None
    /\ sql_log w'
       = sql_log w
         ++ [DropTable true "postcode_staging"]
         ++ statements (plan_renames (instance zf hf) 0 cols)
         ++ [DropTable true "postcode";
             CreateTableAs false "postcode"
               (snd (mapping_plan (instance zf hf) cols))
               (RightJoin "postcode_staging" "postcode_polygons"
                  (QCol "postcode_polygons" "postcode")
                  (QCol "postcode_staging" "postcode"))]
         ++ merge_casts (instance zf hf)
         ++ [AddPrimaryKey "postcode" "id";
             DropTable false "postcode_polygons";
             DropTable false "postcode_staging"]
    /\ existsb is_drop (merge_casts (instance zf hf)) = false.
Proof.
  intros Hrun HG. unfold parse_info in Hrun.
  apply bind_ok in Hrun. destruct Hrun as (cols & w1 & Hing & Hrun).
  rewrite Hing. cbn [fst snd].
  destruct (info_ingest_ok _ _ _ _ _ Hing) as (F1 & L1).
  apply bind_ok in Hrun. destruct Hrun as ([] & w2 & Hp & Hrun).
  unfold print, modify in Hp. inversion Hp; subst w2. clear Hp.
  apply bind_ok in Hrun. destruct Hrun as (v & w3 & Hx & Hrun).
  inversion Hrun; subst w3. clear Hrun.
  apply loader_ok, exec_sql_ok in Hx.
  destruct Hx as (Hup & X & L2 & E).
  cbn [db sql_log with_stdout] in X, L2.
  unfold info_commands in X, L2. rewrite mapping_plan_spec in X, L2.
  cbn [fst snd] in X, L2. rewrite statements_app in X, L2.
  apply exec_all_app in X. destruct X as (dj & Xr & Xm).
  pose proof (renames_frame _ _ _ _ _ _ Xr) as F2.
  rewrite merge_statements in Xm, L2.
  set (fields := [QCol (geom_table (instance zf hf)) "id";
                  QCol (geom_table (instance zf hf)) "postcode";
                  QCol (geom_table (instance zf hf)) "pc_area"]
                 ++ plan_kept (instance zf hf) cols
                 ++ [QCol (geom_table (instance zf hf)) "polygon"]) in *.
  (* the drop of an earlier target table *)
  cbn [app exec_all] in Xm.
  destruct (execute (DropTable true "postcode") None dj) as [| d1] eqn:D1;
    [discriminate |].
  unfold execute in D1.
  change (lex_stmt (DropTable true "postcode"))
    with (Some (DropTable true "postcode")) in D1.
  apply run_drop in D1. destruct D1 as (N1 & O1 & _).
  (* the join *)
  destruct (execute (CreateTableAs false "postcode" fields _) None d1)
    as [| d2] eqn:D2; [discriminate |].
  unfold execute in D2.
  destruct (lex_stmt _) as [s' |] eqn:Hlex; [| discriminate].
  cbn [lex_stmt] in Hlex.
  change (ident_of "postcode") with (Some "postcode") in Hlex.
  change (lex_from _)
    with (Some (RightJoin "postcode_staging" "postcode_polygons"
                  (QCol "postcode_polygons" "postcode")
                  (QCol "postcode_staging" "postcode"))) in Hlex.
  destruct (lex_list lex_colref fields) as [fields' |] eqn:Hf;
    [| discriminate].
  inversion Hlex; subst s'. clear Hlex.
  unfold fields in Hf. cbn [geom_table instance init] in Hf.
  apply (lex_list_app _ [_; _; _]) in Hf.
  destruct Hf as (k3 & rest & -> & Hk3 & Hrest).
  vm_compute in Hk3. inversion Hk3; subst k3. clear Hk3.
  apply lex_list_app in Hrest.
  destruct Hrest as (kept' & k1 & -> & Hkept & Hk1).
  vm_compute in Hk1. inversion Hk1; subst k1. clear Hk1.
  unfold plan_kept in Hkept. cbn [staging_table instance init] in Hkept.
  apply lex_kept in Hkept. destruct Hkept as (names' & ->).
  apply run_create_as in D2. destruct D2 as (ocols & rws & Hsel & G2 & O2).
  specialize (G2 N1).
  unfold eval_select in Hsel.
  destruct (get_table d1 "postcode_staging") as [S |] eqn:GS;
    [| discriminate].
  destruct (get_table d1 "postcode_polygons") as [G' |] eqn:GG;
    [| destruct S; discriminate].
  change ("postcode_staging" =? "postcode_polygons") with false in Hsel.
  destruct (resolve_all _ _) as [| ss] eqn:Hss; [discriminate |].
  destruct (resolve_join _ _ S G' (QCol "postcode_polygons" "postcode"))
    as [| a] eqn:Ha; [discriminate |].
  destruct (resolve_join _ _ S G' (QCol "postcode_staging" "postcode"))
    as [| b] eqn:Hb; [discriminate |].
  unfold check_out_names in Hsel.
  destruct (first_dup (map slot_name ss)) eqn:Hnd; [discriminate |].
  inversion Hsel; subst ocols rws. clear Hsel.
  assert (G' = G).
  { rewrite O1 in GG by reflexivity. rewrite F2 in GG by reflexivity.
    rewrite F1 in GG by reflexivity. congruence. }
  subst G'.
  rewrite O1 in GS by reflexivity.
  (* the type changes, the key and the final drops *)
  apply exec_all_app in Xm. destruct Xm as (d3 & Xc & Xf).
  rewrite exec_all_lexed in Xc by reflexivity.
  destruct (run_all_alters "postcode" (merge_casts (instance zf hf)) d2 d3 _
              eq_refl Xc G2)
    as ((T3 & G3 & R3 & C3 & P3) & O3).
  cbn [rows columns pkey] in R3, C3, P3.
  rewrite exec_all_lexed in Xf by reflexivity. cbn [run_all] in Xf.
  destruct (run (AddPrimaryKey "postcode" "id") None d3) as [| d4] eqn:D4;
    [discriminate |].
  destruct (run (DropTable false "postcode_polygons") None d4)
    as [| d5] eqn:D5; [discriminate |].
  destruct (run (DropTable false "postcode_staging") None d5)
    as [| d6] eqn:D6; [discriminate |].
  inversion Xf as [Hd6]. clear Xf.
  apply run_primary_key in D4. destruct D4 as (T4 & G4 & G4' & O4).
  rewrite G3 in G4. inversion G4; subst T4. clear G4.
  apply run_drop in D5. destruct D5 as (N5 & O5 & _).
  apply run_drop in D6. destruct D6 as (N6 & O6 & _).
  exists cols, dj, S, (mkTable (columns T3) (rows T3) (Some "id")).
  split; [reflexivity |]. split; [exact Xr |]. split; [exact GS |].
  split; [rewrite F2, F1 by reflexivity; exact HG |].
  split; [rewrite <- Hd6, O6, O5 by reflexivity; exact G4' |].
  split; [reflexivity |].
  split.
  { apply (join_is_right_joined "postcode_staging" "postcode_polygons" S G
             names' ss a b eq_refl Hss Ha Hb Hnd).
    - cbn [columns]. exact C3.
    - cbn [rows]. exact R3. }
  split; [rewrite <- Hd6, O6 by reflexivity; exact N5 |].
  split; [rewrite <- Hd6; exact N6 |].
  split; [| reflexivity].
  rewrite L2, L1, mapping_plan_spec. cbn [snd]. subst fields.
  rewrite <- app_assoc. reflexivity.
Qed.



(* ================================================================== *)
(** ** The vertical-street stage always completes *)

Lemma str_of_nat_inj (n m : nat) : str_of_nat n = str_of_nat m -> n = m.
Proof.
  unfold str_of_nat. intros H.
  apply (f_equal NilZero.uint_of_string) in H.
  assert (Hn : forall k, Nat.to_uint k <> Decimal.Nil).
  { intros k Hk. pose proof (Unsigned.to_of (Nat.to_uint k)) as E.
    rewrite Unsigned.of_to in E. rewrite Hk in E at 2. cbn in E.
    rewrite Hk in E. discriminate. }
  rewrite !NilZero.usu in H by apply Hn.
  inversion H. apply Unsigned.to_uint_inj. assumption.
Qed.

Lemma numbered_ids (k : nat) (rs : list (list datum)) :
  map (cell 0) (numbered k rs)
  = map (fun i => Some (str_of_nat (S i))) (seq k (List.length rs)).
Proof.
  revert k. induction rs as [| r rs IH]; intros k; cbn; [reflexivity |].
  f_equal. apply IH.
Qed.

Lemma serial_ids_not_null (k n : nat) :
  existsb (datum_eqb None)
    (map (fun i => Some (str_of_nat (S i))) (seq k n)) = false.
Proof. revert k. induction n as [| n IH]; intros k; cbn; auto. Qed.

Lemma serial_ids_distinct (k n : nat) :
  nodup_datum (map (fun i => Some (str_of_nat (S i))) (seq k n)) = true.
Proof.
  revert k. induction n as [| n IH]; intros k; cbn [seq map nodup_datum];
    [reflexivity |].
  rewrite IH, andb_true_r. apply negb_true_iff.
  destruct (existsb _ _) eqn:E; [| reflexivity].
  apply existsb_exists in E. destruct E as (x & Hx & He).
  apply in_map_iff in Hx. destruct Hx as (j & <- & Hj).
  apply in_seq in Hj. cbn in He. apply String.eqb_eq in He.
  apply str_of_nat_inj in He. lia.
Qed.

Lemma street_loop_returns (a : archive) (fs : list string) (w : world) :
  incl fs (namelist a) ->
  server_up w = true ->
  exists w',
    for_each fs
      (fun txt_file =>
         txt <- zip_entry a txt_file ;;
         call_global globals_with_loader "copy_from_csv"
           [PySql [CopyFromStdin "vstreet_table"]; PyStream (stream_of txt)] ;;
         ret tt) w = (inr tt, w').
Proof.
  revert w. induction fs as [| f fs IH]; intros w Hin Hup.
  - exists w. reflexivity.
  - cbn [for_each]. unfold bind at 1 2. unfold zip_entry.
    destruct (lookup_listed f a (Hin f (or_introl eq_refl))) as [e ->].
    cbn [ret]. rewrite call_copy_with_loader. unfold bind at 1 2.
    destruct (copy_from_csv_result "vstreet_table" (stream_of e) w
                eq_refl Hup) as (w1 & -> & Henv & _).
    cbn [ret]. apply IH.
    + intros x Hx. apply Hin. right. exact Hx.
    + destruct Henv as (_ & Hs & _). congruence.
Qed.

Lemma loader_run (b : batch) (w : world) (d : database) :
  server_up w = true ->
  run_all (statements b) (db w) = inr d ->
  lex_list lex_stmt (statements b) = Some (statements b) ->
  exists w',
    (call_global globals_with_loader "exec_sql_statements" [PyTuple b] w
     = (inr PyNone, w'))
    /\ db w' = d
    /\ server_up w' = true.
Proof.
  intros Hup Hrun Hlex. rewrite <- exec_all_lexed in Hrun by exact Hlex.
  destruct (exec_sql_run b w d Hup Hrun) as (w' & Hx & Hd & _ & He).
  exists w'. rewrite call_loader. unfold bind. rewrite Hx.
  split; [reflexivity |]. split; [exact Hd |].
  destruct He as (_ & Hs & _). congruence.
Qed.

Ltac open_batch :=
  cbn [statements vstreets_drop vstreets_create vstreets_clean vstreets_final
         instance vstreet_table vstreet_target init concat app run_all].

Lemma bind_run {S A B : Type} (m : M S A) (k : A -> M S B) (s s1 : S)
  (a : A) :
  m s = (inr a, s1) -> (x <- m ;; k x) s = k a s1.
Proof. intros H. unfold bind. rewrite H. reflexivity. Qed.

(** With the archive readable and the server reachable, [parse_vstreets]
    returns normally, whatever the store holds. *)
Lemma vstreets_returns (hf : option string) (z : string) (a : archive)
  (w : world) :
  zip_open z w = (inr a, w) ->
  server_up w = true ->
  exists w',
    parse_vstreets globals_with_loader (instance (Some z) hf) w = (inr tt, w').
Proof.
  intros Hzip Hup. unfold parse_vstreets.
  rewrite (bind_run _ _ w w z) by reflexivity.
  rewrite (bind_run _ _ w w z) by reflexivity.
  rewrite (bind_run _ _ _ _ _ Hzip).
  (* the two drops *)
  destruct (run (DropTable true "vstreet_table") None (db w)) as [| d1] eqn:D1.
  { cbn in D1. destruct (get_table (db w) "vstreet_table"); discriminate. }
  destruct (run (DropTable true "vstreetlookup") None d1) as [| d2] eqn:D2.
  { cbn in D2. destruct (get_table d1 "vstreetlookup"); discriminate. }
  destruct (loader_run (vstreets_drop (instance (Some z) hf)) w d2 Hup)
    as (w1 & H1 & Hd1 & Hup1);
    [open_batch; rewrite D1, D2; reflexivity | reflexivity |].
  rewrite (bind_run _ _ _ _ _ H1).
  apply run_drop in D1. destruct D1 as (N1 & O1 & _).
  apply run_drop in D2. destruct D2 as (N2 & O2 & _).
  (* the staging table *)
  assert (D3 : run (CreateTable "vstreet_table" street_columns) None (db w1)
               = inr (set_table (db w1) "vstreet_table"
                        (mkTable street_columns [] None))).
  { cbn. rewrite Hd1, O2, N1 by reflexivity. reflexivity. }
  destruct (loader_run (vstreets_create (instance (Some z) hf)) w1
              (set_table (db w1) "vstreet_table"
                 (mkTable street_columns [] None)) Hup1)
    as (w2 & H2 & Hd2 & Hup2);
    [open_batch; fold street_columns; rewrite D3; reflexivity | reflexivity |].
  rewrite (bind_run _ _ _ _ _ H2).
  (* the copies *)
  destruct (street_loop_returns a (street_files a) w2) as (w3 & Hloop);
    [apply incl_filter | exact Hup2 |].
  assert (G2 : get_table (db w2) "vstreet_table"
               = Some (mkTable street_columns [] None))
    by (rewrite Hd2; apply get_set_same).
  destruct (street_loop a _ w2 w3 _ Hloop Hup2 G2 eq_refl eq_refl)
    as (G3 & O3 & _ & E3).
  cbn [rows pkey app] in G3.
  assert (Hup3 : server_up w3 = true)
    by (destruct E3 as (_ & Hs & _); congruence).
  rewrite (bind_run _ _ _ _ _ Hloop).
  (* the serial column, the projection and the key *)
  set (R := flat_map (fun f => accepted (entry_stream a f)) _) in G3.
  assert (N3 : get_table (db w3) "vstreetlookup" = None).
  { rewrite O3 by reflexivity. rewrite Hd2.
    rewrite get_set_other by reflexivity. rewrite Hd1. exact N2. }
  assert (D4 : exists d4,
             run_all (statements (vstreets_clean (instance (Some z) hf)))
               (db w3) = inr d4
             /\ get_table d4 "vstreet_table"
                = Some (mkTable (street_columns ++ [("id", TBigSerial)])
                          (extend_rows TBigSerial 0 R) None)).
  { open_batch. cbn [run]. rewrite G3. cbn [columns rows pkey].
    change (col_index "id" street_columns) with (@None nat).
    match goal with
    | |- context [set_table ?d ?t ?T] => set (d5 := set_table d t T)
    end.
    assert (G5 : get_table d5 "vstreet_table"
                 = Some (mkTable (street_columns ++ [("id", TBigSerial)])
                           (extend_rows TBigSerial 0 R) None))
      by apply get_set_same.
    assert (N5 : get_table d5 "vstreetlookup" = None)
      by (unfold d5; rewrite get_set_other by reflexivity; exact N3).
    unfold eval_select. rewrite G5.
    cbn -[get_table set_table extend_rows].
    rewrite N5.
    match goal with
    | |- context [set_table d5 ?t ?T] => set (d6 := set_table d5 t T)
    end.
    assert (G6 : get_table d6 "vstreetlookup" = Some _) by apply get_set_same.
    rewrite G6. cbn -[get_table set_table extend_rows].
    rewrite project_numbered by apply street_rows_pairs_gen.
    rewrite numbered_ids, serial_ids_not_null, serial_ids_distinct.
    eexists. split; [reflexivity |].
    rewrite get_set_other by reflexivity.
    unfold d6. rewrite get_set_other by reflexivity. exact G5. }
  destruct D4 as (d4 & D4 & G4).
  destruct (loader_run (vstreets_clean (instance (Some z) hf)) w3 d4 Hup3 D4)
    as (w4 & H4 & Hd4 & Hup4); [reflexivity |].
  rewrite (bind_run _ _ _ _ _ H4).
  (* the drop of the staging table *)
  destruct (loader_run (vstreets_final (instance (Some z) hf)) w4
              (del_table (db w4) "vstreet_table") Hup4)
    as (w5 & H5 & _ & _); [| reflexivity |].
  { open_batch. cbn [run]. rewrite Hd4, G4. reflexivity. }
  rewrite (bind_run _ _ _ _ _ H5).
  exists w5. reflexivity.
Qed.

Lemma fitting_record_ok (r : list datum) :
  forallb (fits 8) r = true ->
  record_ok street_columns r = (List.length r =? 2)%nat.
Proof.
  assert (Hc : forall v, fits 8 v = true -> conforms (TVarchar 8) v = true)
    by (intros [s |] H; exact H).
  destruct r as [| p [| v [| x r]]]; cbn [forallb]; intro H;
    unfold street_columns; cbn [record_ok List.length Nat.eqb].
  - reflexivity.
  - apply andb_false_r.
  - apply andb_prop in H. destruct H as (Hp, H).
    apply andb_prop in H. destruct H as (Hv, _).
    rewrite (Hc p Hp), (Hc v Hv). reflexivity.
  - rewrite !andb_false_r. reflexivity.
Qed.

Lemma fitting_records_ok (recs : list (list datum)) :
  (forall r, In r recs -> forallb (fits 8) r = true) ->
  forallb (record_ok street_columns) recs
  = forallb (fun r => (List.length r =? 2)%nat) recs.
Proof.
  induction recs as [| r recs IH]; intro H; [reflexivity |].
  cbn [forallb]. rewrite (fitting_record_ok r) by (apply H; left; reflexivity).
  rewrite IH by (intros x Hx; apply H; right; exact Hx). reflexivity.
Qed.

(** C10: with the archive readable, the server reachable and no field of
    the street files longer than the eight characters of its column,
    [parse_vstreets] returns, and then [vstreetlookup] has the columns
    (id, postcode, vstreet_ref) with its primary key on id; its rows are
    the records of the street files of the archive (entries ending in
    [.TXT] under [Polygons/Data/VERTICAL_STREETS]) in archive order,
    numbered 1, 2, ... in that order, a file being stored as a whole when
    each of its records has two fields and not at all otherwise; the
    staging table is gone.  The server received, in this order: the two
    drops, the creation of the two-column staging table, one copy per
    file, the serial column, the projection, the primary key, the drop of
    the staging table.  The converter was not run. *)
Theorem vstreets_builds_lookup (hf : option string) (z : string)
  (a : archive) (w : world) :
  zip_open z w = (inr a, w) ->
  server_up w = true ->
  street_fields_fit a ->
  exists w',
    parse_vstreets globals_with_loader (instance (Some z) hf) w = (inr tt, w')
    /\ get_table (db w') "vstreetlookup"
       = Some (mkTable [("id", TBigSerial); ("postcode", TVarchar 8);
                        ("vstreet_ref", TVarchar 8)]
                 (numbered 0 (street_rows a)) (Some "id"))
    /\ get_table (db w') "vstreet_table" = None
    /\ sql_log w'
       = sql_log w
         ++ [DropTable true "vstreet_table"; DropTable true "vstreetlookup";
             CreateTable "vstreet_table" street_columns]
         ++ street_copies a
         ++ [AddColumn "vstreet_table" "id" TBigSerial;
             CreateTableAs false "vstreetlookup"
               [Col "id"; Col "postcode"; Col "vstreet_ref"]
               (FromTable "vstreet_table");
             AddPrimaryKey "vstreetlookup" "id";
             DropTable false "vstreet_table"]
    /\ system_log w' = system_log w
    /\ street_rows a
       = flat_map
           (fun f =>
              if forallb (fun r => (List.length r =? 2)%nat)
                   (entry_stream a f)
              then entry_stream a f else [])
           (street_files a).
Proof.
  intros Hzip Hup Hfit.
  destruct (vstreets_returns hf z a w Hzip Hup) as (w' & Hrun).
  exists w'. split; [exact Hrun |].
  destruct (vstreets_result _ _ _ _ Hrun)
    as (z' & a' & Hz & Hzip' & Ht & Hs & Hl & Hc).
  inversion Hz; subst z'. rewrite Hzip in Hzip'. inversion Hzip'; subst a'.
  split; [exact Ht |]. split; [exact Hs |]. split; [exact Hl |].
  split; [exact Hc |].
  unfold street_rows. unfold street_fields_fit in Hfit. clear - Hfit.
  revert Hfit. generalize (street_files a). intro fs.
  induction fs as [| f fs IH]; intro Hfit; [reflexivity |].
  cbn [flat_map]. rewrite IH by (intros g r Hg; apply Hfit; right; exact Hg).
  unfold accepted. rewrite (fitting_records_ok (entry_stream a f)).
  - reflexivity.
  - intros r Hr. apply (Hfit f r); [left; reflexivity | exact Hr].
Qed.

Lemma vstreets_builds_lookup_witness :
  zip_open "codepoint.zip" Samples.sample_world
  = (inr Samples.sample_archive, Samples.sample_world)
  /\ server_up Samples.sample_world = true
  /\ street_fields_fit Samples.sample_archive
  /\ exists w',
       parse_vstreets globals_with_loader
         (instance (Some "codepoint.zip") (Some "headers.csv"))
         Samples.sample_world = (inr tt, w')
       /\ get_table (db w') "vstreetlookup"
          = Some (mkTable [("id", TBigSerial); ("postcode", TVarchar 8);
                           ("vstreet_ref", TVarchar 8)]
                    [[Some "1"; Some "AB1 2CD"; Some "VS01"];
                     [Some "2"; Some "AB1 2CE"; Some "VS02"]]
                    (Some "id")).
Proof.
  assert (Hfit : street_fields_fit Samples.sample_archive).
  { intros f r Hf Hr. vm_compute in Hf. destruct Hf as [<- | []].
    vm_compute in Hr. destruct Hr as [<- | [<- | []]]; reflexivity. }
  split; [reflexivity |]. split; [reflexivity |]. split; [exact Hfit |].
  destruct (vstreets_builds_lookup (Some "headers.csv") "codepoint.zip"
              Samples.sample_archive Samples.sample_world eq_refl eq_refl
              Hfit)
    as (w' & Hrun & Ht & _).
  exists w'. split; [exact Hrun |]. rewrite Ht. reflexivity.
Defined.

(* ================================================================== *)
(** ** The drops of the attribute stage, in every run *)

(** In a list that starts with statements none of which is an
    unconditional drop, followed by a statement [c] that is not one
    either, an unconditional drop comes after [c]. *)
Lemma drop_after (A rest l tail pre post : list stmt) (c : stmt) (t : string) :
  (forall t', ~ In (DropTable false t') A) ->
  (forall t', c <> DropTable false t') ->
  A ++ c :: rest = l ++ tail ->
  l = pre ++ DropTable false t :: post ->
  In c pre.
Proof.
  intros HA Hc Hfull ->. rewrite <- app_assoc in Hfull. cbn in Hfull.
  apply app_eq_app in Hfull.
  destruct Hfull as (m & [(HAm & Hm) | (Hpm & Hm)]).
  - destruct m as [| x m].
    + cbn in Hm. inversion Hm as [[Hx Hr]]. exfalso. symmetry in Hx.
      exact (Hc t Hx).
    + cbn in Hm. inversion Hm; subst x.
      exfalso. apply (HA t). rewrite HAm. apply in_or_app. right. left.
      reflexivity.
  - destruct m as [| x m].
    + cbn in Hm. inversion Hm as [[Hx Hr]]. exfalso. exact (Hc t Hx).
    + cbn in Hm. inversion Hm; subst x. rewrite Hpm.
      apply in_or_app. right. left. reflexivity.
Qed.

Lemma renames_no_drop (self : PostcodeParser) (k : nat) (cols : list string)
  (t : string) :
  ~ In (DropTable false t) (statements (plan_renames self k cols)).
Proof.
  unfold plan_renames, statements.
  revert k. induction cols as [| c cols IH]; intros k; cbn; [tauto |].
  intros [H | H]; [discriminate | exact (IH _ H)].
Qed.

(** What the first part of [parse_info] has sent when it raises:
    nothing. *)
Lemma info_ingest_fail (zf hf : option string) (w w1 : world) (e : exn) :
  info_ingest globals_with_loader (instance zf hf) w = (inl e, w1) ->
  sql_log w1 = sql_log w.
Proof.
  unfold info_ingest, bind. cbn [instance base_path path_div].
  unfold ret at 1 2.
  destruct (attr "header_file" _ w) as [[| h] w0] eqn:H1;
    apply attr_frame in H1; subst w0; [intros H; inversion H; reflexivity |].
  destruct (open_text h w) as [[| c] w0] eqn:H2;
    apply open_text_frame in H2; subst w0;
    [intros H; inversion H; reflexivity |].
  unfold of_result.
  destruct (header_columns c) as [| cols];
    [intros H; inversion H; reflexivity |].
  destruct (attr "zip_file" _ w) as [[| z] w0] eqn:H3;
    apply attr_frame in H3; subst w0; [intros H; inversion H; reflexivity |].
  destruct (zip_open z w) as [[| a] w0] eqn:H4;
    apply zip_open_frame in H4; subst w0;
    [intros H; inversion H; reflexivity |].
  rewrite call_loader. unfold bind.
  destruct (exec_sql_statements _ w) as [[e0 | []] w2] eqn:H5.
  - intros H; inversion H; subst. apply exec_sql_fail in H5.
    destruct H5 as [(_ & _ & ->) | (_ & pre & s & post & pe & Hl & _ & _ & _ & Hlog & _)];
      [reflexivity |].
    destruct pre as [| p [| q pre]]; cbn in Hl; try discriminate.
    rewrite Hlog, app_nil_r. reflexivity.
  - cbn [ret instance staging_table init].
    match goal with
    | |- context [for_each ?fs ?body w2] =>
        destruct (attribute_loop z fs w2) as (w3 & Hl & _);
        replace (for_each fs body w2) with (@inr exn unit tt, w3)
          by (symmetry; exact Hl)
    end.
    discriminate.
Qed.

(** In every run of [parse_info], whatever its outcome, the server is
    told to drop the geometry table or the populated staging table only
    after it has been told, with success, to create the target table. *)
Lemma info_drops_after_create (zf hf : option string) (w w' : world)
  (r : exn + unit) :
  parse_info globals_with_loader (instance zf hf) w = (r, w') ->
  exists l,
    sql_log w' = sql_log w ++ l
    /\ forall t pre post,
         l = pre ++ DropTable false t :: post ->
         exists fields frm, In (CreateTableAs false "postcode" fields frm) pre.
Proof.
  unfold parse_info. unfold bind at 1.
  destruct (info_ingest _ _ w) as [[e | cols] w1] eqn:Hing.
  - intros H; inversion H; subst. exists [].
    rewrite app_nil_r. split; [eapply info_ingest_fail; eauto |].
    intros t [| x pre] post Hl; discriminate.
  - destruct (info_ingest_ok _ _ _ _ _ Hing) as (_ & L1).
    unfold bind at 1. unfold print at 1, modify.
    unfold bind at 1. rewrite call_loader. unfold bind at 1.
    set (w2 := with_stdout _ w1).
    assert (L2 : sql_log w2 = sql_log w ++ [DropTable true "postcode_staging"])
      by exact L1.
    set (full := statements (info_commands (instance zf hf) cols)).
    assert (Hshape : forall l tail t pre post,
               full = l ++ tail ->
               [DropTable true "postcode_staging"] ++ l
               = pre ++ DropTable false t :: post ->
               exists fields frm,
                 In (CreateTableAs false "postcode" fields frm) pre).
    { intros l tail t pre post Hfull Hl.
      unfold full, info_commands in Hfull.
      rewrite mapping_plan_spec in Hfull. cbn [fst snd] in Hfull.
      rewrite statements_app, merge_statements in Hfull.
      eexists. eexists.
      eapply (drop_after
                ([DropTable true "postcode_staging"]
                 ++ statements (plan_renames (instance zf hf) 0 cols)
                 ++ [DropTable true "postcode"]));
        [| | | exact Hl].
      - intros t' Hin. cbn in Hin. destruct Hin as [Hin | Hin];
          [discriminate |].
        apply in_app_or in Hin. destruct Hin as [Hin | [Hin | []]];
          [exact (renames_no_drop _ _ _ _ Hin) | discriminate].
      - intros t'. discriminate.
      - cbn [app]. f_equal. rewrite <- Hfull, <- app_assoc. reflexivity. }
    destruct (exec_sql_statements _ w2) as [[e | []] w3] eqn:Hx.
    + intros H; inversion H; subst. apply exec_sql_fail in Hx.
      destruct Hx as [(_ & _ & ->) | (_ & pre0 & s & post0 & pe & Hl & _ & _ & _ & Hlog & _)].
      * exists [DropTable true "postcode_staging"]. split; [exact L2 |].
        intros t [| x [| y pre]] post Hl; cbn in Hl; discriminate.
      * exists ([DropTable true "postcode_staging"] ++ pre0).
        split; [rewrite Hlog, L2, <- app_assoc; reflexivity |].
        intros t pre post Heq.
        apply (Hshape pre0 (s :: post0) t pre post Hl Heq).
    + intros H; inversion H; subst. apply exec_sql_ok in Hx.
      destruct Hx as (_ & _ & Hlog & _).
      exists ([DropTable true "postcode_staging"] ++ full).
      split; [rewrite Hlog, L2, <- app_assoc; reflexivity |].
      intros t pre post Heq.
      apply (Hshape full [] t pre post); [rewrite app_nil_r; reflexivity |].
      exact Heq.
Qed.

(** C8: in every run of [parse_info] the geometry table and the populated
    staging table are dropped only after the target table has been
    created.  When [parse_info] returns, the target table [postcode] is
    the right join of the attribute staging table, read under the names of
    the plan, onto the geometry table as the stage found it, on the
    postcode: every geometry row is carried by a row of the target table,
    with NULL in every attribute column when no attribute row has its
    postcode; every row of the target table carries a geometry row, so
    that an attribute row whose postcode has no geometry row is in no row
    of it.  The two drops are then the last statements the server
    received, and both tables are gone. *)
Theorem info_builds_right_join (zf hf : option string) (w : world) :
  let outcome := parse_info globals_with_loader (instance zf hf) w in
  (exists l,
     sql_log (snd outcome) = sql_log w ++ l
     /\ forall t pre post,
          l = pre ++ DropTable false t :: post ->
          exists fields frm,
            In (CreateTableAs false "postcode" fields frm) pre)
  /\ (fst outcome = inr tt ->
      forall G : table,
        get_table (db w) "postcode_polygons" = Some G ->
        exists (cols : list string) (dj : database) (S T : table),
          fst (info_ingest globals_with_loader (instance zf hf) w) = inr cols
          /\ exec_all (statements (plan_renames (instance zf hf) 0 cols))
               (db (snd (info_ingest globals_with_loader (instance zf hf) w)))
             = inr dj
          /\ get_table dj "postcode_staging" = Some S
          /\ get_table dj "postcode_polygons" = Some G
          /\ get_table (db (snd outcome)) "postcode" = Some T
          /\ pkey T = Some "id"
          /\ right_joined S G T
          /\ get_table (db (snd outcome)) "postcode_polygons" = None
          /\ get_table (db (snd outcome)) "postcode_staging" = None
          /\ sql_log (snd outcome)
             = sql_log w
               ++ [DropTable true "postcode_staging"]
               ++ statements (plan_renames (instance zf hf) 0 cols)
               ++ [DropTable true "postcode";
                   CreateTableAs false "postcode"
                     (snd (mapping_plan (instance zf hf) cols))
                     (RightJoin "postcode_staging" "postcode_polygons"
                        (QCol "postcode_polygons" "postcode")
                        (QCol "postcode_staging" "postcode"))]
               ++ merge_casts (instance zf hf)
               ++ [AddPrimaryKey "postcode" "id";
                   DropTable false "postcode_polygons";
                   DropTable false "postcode_staging"]).
Proof.
  cbv zeta.
  destruct (parse_info globals_with_loader (instance zf hf) w) as [r w']
    eqn:Hrun.
  cbn [fst snd]. split.
  - eapply info_drops_after_create. exact Hrun.
  - intros -> G HG.
    destruct (info_result zf hf w w' G Hrun HG)
      as (cols & dj & S & T & H1 & H2 & H3 & H4 & H5 & H6 & H7 & H8 & H9
          & H10 & _).
    exists cols, dj, S, T. auto 12.
Qed.

Lemma info_builds_right_join_witness :
  exists G S T,
    get_table (db Samples.join_world) "postcode_polygons" = Some G
    /\ rows G = [[Some "1"; Some "AB1 2CD"; Some "AB"; Some "POLYGON-1"];
                 [Some "2"; Some "AB1 2CE"; Some "AB"; Some "POLYGON-2"]]
    /\ get_table
         (db (snd (parse_info globals_with_loader
                     (instance (Some "codepoint.zip") (Some "headers.csv"))
                     Samples.join_world)))
         "postcode" = Some T
    /\ right_joined S G T
    /\ rows T
       = [[Some "1"; Some "AB1 2CD"; Some "AB";
           None; None; None; None; None; None; None; None; None; None; None;
           None; None; None; None; Some "POLYGON-1"];
          [Some "2"; Some "AB1 2CE"; Some "AB";
           Some "10"; Some "N"; Some "3"; Some "2"; Some "1"; Some "0";
           Some "3"; Some "0"; Some "S92000003"; Some "S08000020";
           Some "S080"; None; Some "S12000033"; Some "S13002842"; Some "S";
           Some "POLYGON-2"]].
Proof.
  assert (HG : exists G,
             get_table (db Samples.join_world) "postcode_polygons" = Some G
             /\ rows G
                = [[Some "1"; Some "AB1 2CD"; Some "AB"; Some "POLYGON-1"];
                   [Some "2"; Some "AB1 2CE"; Some "AB"; Some "POLYGON-2"]])
    by (eexists; split; vm_compute; reflexivity).
  destruct HG as (G & HG & HR).
  assert (H : fst (parse_info globals_with_loader
                     (instance (Some "codepoint.zip") (Some "headers.csv"))
                     Samples.join_world) = inr tt)
    by (vm_compute; reflexivity).
  destruct (info_builds_right_join (Some "codepoint.zip") (Some "headers.csv")
              Samples.join_world) as [_ Hjoin].
  destruct (Hjoin H G HG)
    as (cols & dj & S & T & _ & _ & _ & _ & HT & _ & HJ & _).
  exists G, S, T.
  split; [exact HG |]. split; [exact HR |]. split; [exact HT |].
  split; [exact HJ |].
  vm_compute in HT. inversion HT. reflexivity.
Defined.

(* ================================================================== *)
(** ** The directory listing, the header file and the cleanup *)

Lemma scan_listing_snoc (names : list string) (x : string)
  (self : PostcodeParser) :
  scan_listing (names ++ [x]) self
  = (let s := scan_listing names self in
     let s := if endswith x ".zip" then set_zip_file x s else s in
     if endswith x ".csv" then set_header_file x s else s).
Proof. unfold scan_listing. rewrite fold_left_app. reflexivity. Qed.

Lemma last_item_filter_snoc (p : string -> bool) (l : list string)
  (x : string) :
  last_item (filter p (l ++ [x]))
  = if p x then Some x else last_item (filter p l).
Proof.
  rewrite filter_app. cbn. destruct (p x).
  - apply last_item_app.
  - rewrite app_nil_r. reflexivity.
Qed.

Lemma scan_listing_files (names : list string) (self : PostcodeParser) :
  zip_file (scan_listing names self)
  = match last_item (filter (fun n => endswith n ".zip") names) with
    | Some z => Some z
    | None => zip_file self
    end
  /\ header_file (scan_listing names self)
     = match last_item (filter (fun n => endswith n ".csv") names) with
       | Some h => Some h
       | None => header_file self
       end.
Proof.
  induction names as [| x names IH] using rev_ind.
  - cbn. split; reflexivity.
  - rewrite scan_listing_snoc, !last_item_filter_snoc. cbv zeta.
    destruct IH as (Hz & Hh).
    destruct (endswith x ".zip"), (endswith x ".csv");
      cbn [zip_file header_file set_zip_file set_header_file];
      split; first [assumption | reflexivity].
Qed.

Lemma scan_listing_tables (names : list string) (self : PostcodeParser) :
  base_path (scan_listing names self) = base_path self
  /\ staging_table (scan_listing names self) = staging_table self
  /\ geom_table (scan_listing names self) = geom_table self
  /\ target_table (scan_listing names self) = target_table self
  /\ vstreet_table (scan_listing names self) = vstreet_table self
  /\ vstreet_target (scan_listing names self) = vstreet_target self
  /\ folder_id (scan_listing names self) = folder_id self
  /\ team_drive_id (scan_listing names self) = team_drive_id self.
Proof.
  induction names as [| x names IH] using rev_ind.
  - cbn. repeat split; reflexivity.
  - rewrite scan_listing_snoc. cbv zeta.
    destruct IH as (H1 & H2 & H3 & H4 & H5 & H6 & H7 & H8).
    destruct (endswith x ".zip"), (endswith x ".csv");
      cbn [base_path staging_table geom_table target_table vstreet_table
             vstreet_target folder_id team_drive_id set_zip_file
             set_header_file];
      repeat split; assumption.
Qed.

Lemma filter_none {A : Type} (p : A -> bool) (l : list A) :
  (forall x, In x l -> p x = false) -> filter p l = [].
Proof. intro H. apply filter_nil_iff. exact H. Qed.

(** X1: the loop of [prepare] over the directory listing leaves in
    [zip_file] the last listed name that ends in [.zip] and in
    [header_file] the last one that ends in [.csv]; an attribute for which
    the listing has no such name keeps what it had, so that it stays
    unassigned on a fresh instance; none of the eight attributes that
    [__init__] assigns changes. *)
Theorem scan_listing_keeps_last_match (names : list string)
  (self : PostcodeParser) :
  zip_file (scan_listing names self)
  = match last_item (filter (fun n => endswith n ".zip") names) with
    | Some z => Some z
    | None => zip_file self
    end
  /\ header_file (scan_listing names self)
     = match last_item (filter (fun n => endswith n ".csv") names) with
       | Some h => Some h
       | None => header_file self
       end
  /\ base_path (scan_listing names self) = base_path self
  /\ staging_table (scan_listing names self) = staging_table self
  /\ geom_table (scan_listing names self) = geom_table self
  /\ target_table (scan_listing names self) = target_table self
  /\ vstreet_table (scan_listing names self) = vstreet_table self
  /\ vstreet_target (scan_listing names self) = vstreet_target self
  /\ folder_id (scan_listing names self) = folder_id self
  /\ team_drive_id (scan_listing names self) = team_drive_id self.
Proof.
  destruct (scan_listing_files names self) as (Hz & Hh).
  split; [exact Hz |]. split; [exact Hh |]. apply scan_listing_tables.
Qed.

(** X2: when the directory listing holds no name ending in [.zip], the
    instance the loop of [prepare] leaves has no [zip_file], and each
    ingestion stage raises before it has any effect, whatever the module
    binds: [parse_polys] and [parse_vstreets] raise AttributeError on
    [zip_file]; [parse_info] raises too, and with no name ending in [.csv]
    either it raises AttributeError on [header_file]. *)
Theorem stages_need_the_archive (g : globals) (names : list string)
  (w : world) :
  (forall n, In n names -> endswith n ".zip" = false) ->
  parse_polys g (scan_listing names init) w
  = (inl (AttributeError "zip_file"), w)
  /\ parse_vstreets g (scan_listing names init) w
     = (inl (AttributeError "zip_file"), w)
  /\ (exists e, parse_info g (scan_listing names init) w = (inl e, w))
  /\ ((forall n, In n names -> endswith n ".csv" = false) ->
      parse_info g (scan_listing names init) w
      = (inl (AttributeError "header_file"), w)).
Proof.
  intro Hzip.
  destruct (scan_listing_files names init) as (Hz & Hh).
  rewrite (filter_none _ _ Hzip) in Hz. cbn in Hz.
  split; [| split; [| split]].
  - unfold parse_polys, polys_ingest, bind. rewrite Hz. reflexivity.
  - unfold parse_vstreets, bind. rewrite Hz. reflexivity.
  - unfold parse_info, info_ingest, bind.
    destruct (header_file (scan_listing names init)) as [hf |];
      cbn [attr ret raise]; [| eexists; reflexivity].
    destruct (path_div _ hf w) as [[e | hp] w1] eqn:Hp;
      pose proof (path_div_frame _ _ _ _ _ Hp) as ->;
      [eexists; reflexivity |].
    destruct (open_text hp w) as [[e | c] w1] eqn:Ho;
      pose proof (open_text_frame _ _ _ _ Ho) as ->;
      [eexists; reflexivity |].
    unfold of_result.
    destruct (header_columns c) as [e | cols]; [eexists; reflexivity |].
    rewrite Hz. cbn [attr raise]. eexists; reflexivity.
  - intro Hcsv. rewrite (filter_none _ _ Hcsv) in Hh. cbn in Hh.
    unfold parse_info, info_ingest, bind. rewrite Hh. reflexivity.
Qed.

Lemma stages_need_the_archive_witness :
  parse_polys module_globals (scan_listing ["readme.txt"] init)
    Samples.sample_world
  = (inl (AttributeError "zip_file"), Samples.sample_world)
  /\ parse_info module_globals (scan_listing ["readme.txt"] init)
       Samples.sample_world
     = (inl (AttributeError "header_file"), Samples.sample_world).
Proof.
  assert (H : forall n, In n ["readme.txt"] -> endswith n ".zip" = false).
  { intros n [<- | []]. reflexivity. }
  destruct (stages_need_the_archive module_globals ["readme.txt"]
              Samples.sample_world H) as (Hp & _ & _ & Hi).
  split; [exact Hp |]. apply Hi.
  intros n [<- | []]. reflexivity.
Defined.

Lemma readlines_not_nil (c : string) :
  c <> EmptyString -> exists ls l, readlines c = ls ++ [l].
Proof.
  intro Hne. destruct c as [| ch c']; [congruence |].
  assert (Hr : readlines (String ch c') <> []).
  { cbn. destruct (Ascii.eqb ch newline); [discriminate |].
    destruct (readlines c'); discriminate. }
  destruct (exists_last Hr) as (ls & l & ->). eauto.
Qed.

Lemma split_not_nil (sep : ascii) (s : string) : split sep s <> [].
Proof.
  destruct s as [| c r]; cbn; [discriminate |].
  destruct (Ascii.eqb c sep); [discriminate |].
  destruct (split sep r); discriminate.
Qed.

(** X3: [parse_info] opens the header file at
    [self.base_path / self.header_file].  With [base_path] the [str] that
    [__init__] assigns it raises TypeError there, whatever the file
    holds; with a path object and an empty header file it raises
    IndexError, from [readlines()[-1]].  Both leave the world as it was,
    whatever the module binds.  A header file that is not empty always
    gives at least one column name. *)
Theorem empty_header_raises_IndexError (g : globals) (self : PostcodeParser)
  (w : world) (hf : string) (d : list (string * file_data)) (c : string) :
  header_file self = Some hf ->
  workdir w = Some d ->
  lookup hf d = Some (TextData c) ->
  (forall s, base_path self = StrObject s ->
             exists msg, parse_info g self w = (inl (TypeError msg), w))
  /\ (forall p, base_path self = PathObject p ->
                c = EmptyString ->
                parse_info g self w = (inl IndexError, w))
  /\ (c <> EmptyString ->
      exists name names, header_columns c = inr (name :: names)).
Proof.
  intros Hhf Hd Hc. split; [| split].
  - intros s Hb. eexists. unfold parse_info, info_ingest, bind.
    rewrite Hhf, Hb. reflexivity.
  - intros p Hb ->. unfold parse_info, info_ingest, bind.
    rewrite Hhf, Hb. cbn [attr path_div ret]. unfold open_text.
    rewrite Hd, Hc. reflexivity.
  - intro Hne. destruct (readlines_not_nil c Hne) as (ls & l & Hl).
    unfold header_columns. rewrite Hl, last_item_app.
    destruct (split "," l) as [| x xs] eqn:Hs;
      [exfalso; exact (split_not_nil _ _ Hs) |].
    eauto.
Qed.

Lemma empty_header_raises_IndexError_witness :
  parse_info module_globals Samples.sample_self
    (with_workdir (Some [("headers.csv", TextData EmptyString)])
       Samples.sample_world)
  = (inl IndexError,
     with_workdir (Some [("headers.csv", TextData EmptyString)])
       Samples.sample_world)
  /\ exists msg,
       parse_info module_globals
         (scan_listing (map fst Samples.sample_workdir) init)
         Samples.sample_world
       = (inl (TypeError msg), Samples.sample_world).
Proof.
  split.
  - destruct (empty_header_raises_IndexError module_globals
                Samples.sample_self
                (with_workdir (Some [("headers.csv", TextData EmptyString)])
                   Samples.sample_world)
                "headers.csv" [("headers.csv", TextData EmptyString)]
                EmptyString eq_refl eq_refl eq_refl) as (_ & H & _).
    apply (H DATASETS_DIR); reflexivity.
  - destruct (empty_header_raises_IndexError module_globals
                (scan_listing (map fst Samples.sample_workdir) init)
                Samples.sample_world
                "headers.csv" Samples.sample_workdir Samples.header_text
                eq_refl eq_refl eq_refl) as (H & _).
    apply (H DATASETS_DIR). reflexivity.
Defined.

Lemma cleanup_loop (base : string) (d : list (string * file_data))
  (w : world) :
  NoDup (map fst d) ->
  for_each (map fst d)
    (fun f => p <- path_div (PathObject base) f ;; os_remove p)
    (with_workdir (Some d) w)
  = (inr tt, with_workdir (Some []) w).
Proof.
  induction d as [| [f c] d IH]; intro Hn.
  - reflexivity.
  - cbn [map fst for_each]. unfold bind at 1 2. cbn [path_div ret].
    unfold os_remove at 1. cbn [workdir with_workdir lookup].
    rewrite String.eqb_refl.
    inversion Hn as [| x l Hnotin Hn']; subst.
    assert (Hr : remove f ((f, c) :: d) = d).
    { unfold remove. cbn [filter fst]. rewrite String.eqb_refl. cbn [negb].
      clear IH Hn Hn'. induction d as [| [f' c'] d IHd]; [reflexivity |].
      cbn [filter fst]. cbn [map fst] in Hnotin.
      destruct (f' =? f) eqn:E.
      - apply String.eqb_eq in E. subst. exfalso. apply Hnotin. left; reflexivity.
      - cbn [negb]. f_equal. apply IHd. intro H. apply Hnotin. right; exact H. }
    rewrite Hr.
    exact (IH Hn').
Qed.

(** X4: [cleanup] removes the files of the working directory one by one,
    each at [self.base_path / f].  With [base_path] a path object it
    returns normally and leaves the directory empty, the names of a
    directory being distinct, and nothing else of the world changes.
    With [base_path] the [str] that [__init__] assigns it raises TypeError
    at the first file and removes nothing.  On an empty directory it
    returns at once in both cases. *)
Theorem cleanup_empties_the_working_directory (self : PostcodeParser)
  (w : world) (d : list (string * file_data)) :
  workdir w = Some d ->
  NoDup (map fst d) ->
  (forall p, base_path self = PathObject p ->
             cleanup self w = (inr tt, with_workdir (Some []) w))
  /\ (forall s, base_path self = StrObject s ->
                d <> [] ->
                exists msg, cleanup self w = (inl (TypeError msg), w))
  /\ (d = [] -> cleanup self w = (inr tt, w)).
Proof.
  intros Hd Hn. split; [| split].
  - intros p Hb. unfold cleanup. unfold bind at 1. unfold os_listdir.
    rewrite Hd, Hb.
    replace w with (with_workdir (Some d) w) at 1
      by (destruct w; cbn in Hd; subst; reflexivity).
    apply cleanup_loop. exact Hn.
  - intros s Hb Hne. destruct d as [| [f c] d]; [congruence |].
    eexists. unfold cleanup, bind, os_listdir. rewrite Hd, Hb. reflexivity.
  - intros ->. unfold cleanup, bind, os_listdir. rewrite Hd. reflexivity.
Qed.

Lemma cleanup_empties_the_working_directory_witness :
  cleanup Samples.sample_self Samples.sample_world
  = (inr tt, with_workdir (Some []) Samples.sample_world)
  /\ exists msg,
       cleanup (scan_listing (map fst Samples.sample_workdir) init)
         Samples.sample_world
       = (inl (TypeError msg), Samples.sample_world).
Proof.
  assert (Hn : NoDup (map fst Samples.sample_workdir))
    by (repeat constructor; cbn; intuition discriminate).
  destruct (cleanup_empties_the_working_directory Samples.sample_self
              Samples.sample_world Samples.sample_workdir eq_refl Hn)
    as (H & _).
  split; [apply (H DATASETS_DIR); reflexivity |].
  destruct (cleanup_empties_the_working_directory
              (scan_listing (map fst Samples.sample_workdir) init)
              Samples.sample_world Samples.sample_workdir eq_refl Hn)
    as (_ & H' & _).
  apply (H' DATASETS_DIR); [reflexivity | discriminate].
Defined.

(* ================================================================== *)
(** ** Batches that stop, and the copy *)

(** The statement at which a list stops is determined by the list. *)
Lemma exec_all_stop_unique (pre pre' post post' : list stmt) (s s' : stmt)
  (d d1 d1' : database) (pe pe' : pg_error) :
  pre ++ s :: post = pre' ++ s' :: post' ->
  exec_all pre d = inr d1 -> execute s None d1 = inl pe ->
  exec_all pre' d = inr d1' -> execute s' None d1' = inl pe' ->
  pre = pre' /\ s = s' /\ d1 = d1' /\ pe = pe'.
Proof.
  revert pre' d. induction pre as [| p pre IH]; intros pre' d Hl He Hf He' Hf'.
  - cbn in He. inversion He; subst d1. destruct pre' as [| p' pre'].
    + cbn in Hl, He'. inversion Hl; subst. inversion He'; subst.
      rewrite Hf in Hf'. inversion Hf'. auto.
    + exfalso. cbn in Hl. inversion Hl; subst p'. cbn in He'.
      rewrite Hf in He'. discriminate.
  - destruct pre' as [| p' pre'].
    + exfalso. cbn in Hl. inversion Hl; subst p. cbn in He, He'.
      inversion He'; subst d1'. rewrite Hf' in He. discriminate.
    + cbn in Hl. inversion Hl as [[Hp Hrest]]. subst p'.
      cbn in He, He'. destruct (execute p None d) as [e | d2]; [discriminate |].
      destruct (IH pre' d2 Hrest He Hf He' Hf') as (-> & H2 & H3 & H4).
      auto.
Qed.

Lemma exec_all_stops (pre post : list stmt) (s : stmt) (d d1 : database)
  (pe : pg_error) :
  exec_all pre d = inr d1 -> execute s None d1 = inl pe ->
  exec_all (pre ++ s :: post) d = inl pe.
Proof.
  revert d. induction pre as [| p pre IH]; intros d He Hf; cbn in *.
  - inversion He; subst. rewrite Hf. reflexivity.
  - destruct (execute p None d); [discriminate |]. apply IH; assumption.
Qed.

(** The statement runner on a batch whose statement [s] is the first to
    fail: the statements before it stay applied, and the error of [s] is
    raised. *)
Lemma exec_sql_stops (b : batch) (w : world) (pre post : list stmt)
  (s : stmt) (d1 : database) (pe : pg_error) :
  server_up w = true ->
  statements b = pre ++ s :: post ->
  exec_all pre (db w) = inr d1 ->
  execute s None d1 = inl pe ->
  exists w',
    exec_sql_statements b w = (inl (DatabaseError pe), w')
    /\ db w' = d1
    /\ sql_log w' = sql_log w ++ pre
    /\ same_env w w'.
Proof.
  intros Hup Hl He Hf.
  destruct (exec_sql_statements b w) as [[e | []] w'] eqn:Hr.
  - apply exec_sql_fail in Hr.
    destruct Hr as [(Hd & _) | (_ & pre' & s' & post' & pe' & Hl' & He' & Hf' & -> & Hlog & Hs)];
      [congruence |].
    rewrite Hl in Hl'.
    destruct (exec_all_stop_unique _ _ _ _ _ _ _ _ _ _ _ Hl' He Hf He' Hf')
      as (-> & -> & -> & ->).
    exists w'. auto.
  - exfalso. apply exec_sql_ok in Hr. destruct Hr as (_ & Hx & _).
    rewrite Hl, (exec_all_stops _ post _ _ _ _ He Hf) in Hx. discriminate.
Qed.

(** X5: with the server reachable, [copy_from_csv] returns normally
    whatever the server makes of the statement it is given, and closes the
    connection it opened.  When the server accepts the statement, the
    store is the one the statement leaves and nothing is printed.  When
    the server refuses it, for whatever reason, the store is as before and
    the error is printed instead of raised: the caller cannot tell a
    refused file from a stored one. *)
Theorem copy_from_csv_prints_what_the_server_refuses (s : stmt)
  (recs : list (list datum)) (w : world) :
  server_up w = true ->
  exists w',
    copy_from_csv [s] recs w = (inr tt, w')
    /\ open_conns w'
       = filter (fun h => negb (h =? next_conn w)%nat) (open_conns w)
    /\ match execute s (Some recs) (db w) with
       | inr d =>
           db w' = d /\ stdout w' = stdout w
           /\ sql_log w' = sql_log w ++ [s]
       | inl e =>
           db w' = db w
           /\ stdout w' = stdout w ++ [Error (DatabaseError e)]
           /\ sql_log w' = sql_log w
       end.
Proof.
  intros Hup. unfold_copy. rewrite Hup. cbn [fst snd].
  unfold copy_expert, server_execute. cbn [db with_conns].
  destruct (execute s (Some recs) (db w)) as [e | d];
    cbn; eexists; (split; [reflexivity |]); cbn; rewrite Nat.eqb_refl; cbn;
    rewrite ?filter_twice; repeat split; reflexivity.
Qed.

Lemma copy_from_csv_prints_what_the_server_refuses_witness :
  exists w',
    copy_from_csv [CopyFromStdin "postcode_polygons"]
      [[Some "1"; Some "AB1 2CF"; Some "AB"; Some "POLYGON-3"]]
      Samples.after_polys = (inr tt, w')
    /\ db w' = db Samples.after_polys
    /\ stdout w'
       = stdout Samples.after_polys ++ [Error (DatabaseError UniqueViolation)].
Proof.
  destruct (copy_from_csv_prints_what_the_server_refuses
              (CopyFromStdin "postcode_polygons")
              [[Some "1"; Some "AB1 2CF"; Some "AB"; Some "POLYGON-3"]]
              Samples.after_polys eq_refl) as (w' & Hr & _ & Hc).
  exists w'. split; [exact Hr |].
  vm_compute in Hc. destruct Hc as (Hd & Ho & _).
  split; [exact Hd | exact Ho].
Defined.

(* ================================================================== *)
(** ** The mapping plan on any header *)

(** X6: the plan [parse_info] builds from any list of header tokens: one
    rename per token, in header order, from [field_(j+1)] to the token in
    lower case; and a select list made of the geometry table's id, postcode
    and pc_area, then the lower-cased tokens that are not among the four
    excluded names, in header order, as columns of the staging table, then
    the geometry table's polygon. *)
Theorem mapping_plan_follows_header_tokens (self : PostcodeParser)
  (cols : list string) :
  rename_pairs (fst (mapping_plan self cols))
  = map (fun jc => (("field_" ++ str_of_nat (fst jc + 1))%string,
                    lower (snd jc)))
        (combine (seq 0 (List.length cols)) cols)
  /\ List.length (fst (mapping_plan self cols)) = List.length cols
  /\ snd (mapping_plan self cols)
     = [QCol (geom_table self) "id"; QCol (geom_table self) "postcode";
        QCol (geom_table self) "pc_area"]
       ++ map (QCol (staging_table self))
            (filter (fun n => negb (mem n excluded)) (map lower cols))
       ++ [QCol (geom_table self) "polygon"].
Proof.
  rewrite mapping_plan_spec. cbn [fst snd]. split; [| split].
  - apply rename_pairs_plan.
  - unfold plan_renames. rewrite length_map, length_combine, length_seq.
    apply Nat.min_id.
  - reflexivity.
Qed.

(* ================================================================== *)
(** ** Indexing twice *)

Lemma run_create_index n sch t m c p d d' :
  run (CreateIndex n sch t m c p) None d = inr d' ->
  (exists T i, get_table d t = Some T /\ col_index c (columns T) = Some i)
  /\ tables d' = tables d
  /\ indexes d' = indexes d ++ [mkIndex n t m c p].
Proof.
  cbn -[get_table]. destruct (negb (sch =? "public")); [discriminate |].
  destruct (get_table d t) as [T |] eqn:HT; [| discriminate].
  destruct (col_index c (columns T)) as [i |] eqn:Hc; [| discriminate].
  destruct (_ || _); [discriminate |].
  intro H; inversion H; subst. cbn [tables indexes].
  split; [exists T, i; split; [reflexivity | exact Hc] |].
  split; reflexivity.
Qed.

(** X7: [index_tables] cannot run twice.  A run that returns normally has
    added the seven indexes, under their literal names, and changed no
    table; a second run from the world it left fails on its first
    statement, the index name being taken, and changes nothing. *)
Theorem index_tables_cannot_run_twice (self : PostcodeParser) (w w' : world) :
  index_tables globals_with_loader self w = (inr tt, w') ->
  map ix_name (indexes (db w'))
  = map ix_name (indexes (db w))
    ++ ["core_postcode_polygon_id"; "core_postcode_postcode_36243775";
        "core_postcode_postcode_36243775_like";
        "core_vstreetlookup_postcode_4a092989";
        "core_vstreetlookup_postcode_4a092989_like";
        "core_vstreetlookup_vstreet_ref_b613262c";
        "core_vstreetlookup_vstreet_ref_b613262c_like"]
  /\ tables (db w') = tables (db w)
  /\ exists w'',
       index_tables globals_with_loader self w'
       = (inl (DatabaseError (DuplicateTable "core_postcode_polygon_id")), w'')
       /\ db w'' = db w'
       /\ sql_log w'' = sql_log w'.
Proof.
  intro H. unfold index_tables in H.
  apply bind_ok in H. destruct H as (v & w1 & H & Hret).
  inversion Hret; subst w1. clear Hret.
  apply loader_ok in H. apply exec_sql_ok in H.
  destruct H as (Hup & Hx & _ & (_ & Hup' & _)).
  rewrite exec_all_lexed in Hx by reflexivity.
  cbn [statements index_commands concat app run_all] in Hx.
  repeat match type of Hx with
  | match run ?s None ?d with _ => _ end = _ =>
      let d1 := fresh "d" in let E := fresh "E" in
      destruct (run s None d) as [? | d1] eqn:E; [discriminate |];
      apply run_create_index in E
  end.
  inversion Hx; subst d5. clear Hx.
  destruct E as ((T & i & HT & Hc) & Ht0 & Hi0).
  destruct E0 as (_ & Ht1 & Hi1). destruct E1 as (_ & Ht2 & Hi2).
  destruct E2 as (_ & Ht3 & Hi3). destruct E3 as (_ & Ht4 & Hi4).
  destruct E4 as (_ & Ht5 & Hi5). destruct E5 as (_ & Ht6 & Hi6).
  assert (Hix : indexes (db w')
                = indexes (db w)
                  ++ [mkIndex "core_postcode_polygon_id" "core_postcode"
                        Gist "polygon" false;
                      mkIndex "core_postcode_postcode_36243775"
                        "core_postcode" Btree "postcode" false;
                      mkIndex "core_postcode_postcode_36243775_like"
                        "core_postcode" Btree "postcode" true;
                      mkIndex "core_vstreetlookup_postcode_4a092989"
                        "core_vstreetlookup" Btree "postcode" false;
                      mkIndex "core_vstreetlookup_postcode_4a092989_like"
                        "core_vstreetlookup" Btree "postcode" true;
                      mkIndex "core_vstreetlookup_vstreet_ref_b613262c"
                        "core_vstreetlookup" Btree "vstreet_ref" false;
                      mkIndex "core_vstreetlookup_vstreet_ref_b613262c_like"
                        "core_vstreetlookup" Btree "vstreet_ref" true]).
  { rewrite Hi6, Hi5, Hi4, Hi3, Hi2, Hi1, Hi0. rewrite <- !app_assoc.
    reflexivity. }
  assert (Htb : tables (db w') = tables (db w)) by congruence.
  split; [rewrite Hix, map_app; reflexivity |].
  split; [exact Htb |].
  assert (Hfail : execute (CreateIndex "core_postcode_polygon_id" "public"
                             "core_postcode" Gist "polygon" false) None (db w')
                  = inl (DuplicateTable "core_postcode_polygon_id")).
  { unfold execute.
    change (lex_stmt _)
      with (Some (CreateIndex "core_postcode_polygon_id" "public"
                    "core_postcode" Gist "polygon" false)).
    cbn -[get_table existsb mem].
    unfold get_table in *. rewrite Htb, HT, Hc.
    rewrite Hix, existsb_app. cbn [existsb ix_name].
    rewrite String.eqb_refl. cbn. rewrite orb_true_r. reflexivity. }
  destruct (exec_sql_stops index_commands w' [] _ _ (db w') _
              ltac:(congruence) eq_refl eq_refl Hfail)
    as (w'' & Hr & Hd & Hl & _).
  exists w''. unfold index_tables, bind. rewrite call_loader. unfold bind.
  rewrite Hr. rewrite app_nil_r in Hl. auto.
Qed.

Lemma index_tables_cannot_run_twice_witness :
  exists w' w'',
    index_tables globals_with_loader Samples.sample_self Samples.core_world
    = (inr tt, w')
    /\ index_tables globals_with_loader Samples.sample_self w'
       = (inl (DatabaseError (DuplicateTable "core_postcode_polygon_id")), w'')
    /\ db w'' = db w'.
Proof.
  assert (H : index_tables globals_with_loader Samples.sample_self
                Samples.core_world
              = (inr tt,
                 snd (index_tables globals_with_loader Samples.sample_self
                        Samples.core_world)))
    by (vm_compute; reflexivity).
  destruct (index_tables_cannot_run_twice _ _ _ H)
    as (_ & _ & w'' & Hr & Hd & _).
  eexists. exists w''. split; [exact H |]. split; [exact Hr | exact Hd].
Defined.

(* ================================================================== *)
(** ** The geometry stage on any archive *)

Lemma drop_staging_call (w : world) :
  server_up w = true ->
  exists w1,
    call_global globals_with_loader "exec_sql_statements"
      [PyTuple [[DropTable true "postcode_staging"]]] w = (inr PyNone, w1)
    /\ get_table (db w1) "postcode_staging" = None
    /\ (forall t', ("postcode_staging" =? t') = false ->
                   get_table (db w1) t' = get_table (db w) t')
    /\ sql_log w1 = sql_log w ++ [DropTable true "postcode_staging"]
    /\ same_env w w1.
Proof.
  intro Hup.
  assert (Hx : exists d1,
             exec_all (statements [[DropTable true "postcode_staging"]]) (db w)
             = inr d1
             /\ get_table d1 "postcode_staging" = None
             /\ forall t', ("postcode_staging" =? t') = false ->
                           get_table d1 t' = get_table (db w) t').
  { rewrite exec_all_lexed by reflexivity. cbn [statements concat app run_all].
    destruct (run (DropTable true "postcode_staging") None (db w))
      as [e | d1] eqn:Hr.
    - exfalso. cbn -[get_table] in Hr.
      destruct (get_table (db w) "postcode_staging"); discriminate.
    - exists d1. split; [reflexivity |].
      apply run_drop in Hr. destruct Hr as (H1 & H2 & _). auto. }
  destruct Hx as (d1 & Hx & Hnone & Hfr).
  destruct (exec_sql_run _ _ _ Hup Hx) as (w1 & Hr & Hd & Hl & Hs).
  exists w1. rewrite call_loader. unfold bind. rewrite Hr. cbn [ret].
  subst d1. auto.
Qed.

Lemma append_layer_same (ly : layer) (t : string) (d1 d2 : database) :
  get_table d1 t = get_table d2 t ->
  get_table (append_layer ly t d1) t = get_table (append_layer ly t d2) t.
Proof.
  intro H. unfold append_layer. rewrite !get_set_same, H. reflexivity.
Qed.

Lemma append_layer_other (ly : layer) (t t' : string) (d : database) :
  (t =? t') = false ->
  get_table (append_layer ly t d) t' = get_table d t'.
Proof. intro H. unfold append_layer. apply get_set_other. exact H. Qed.

Lemma append_layers_same (lys : list layer) (t : string) (d1 d2 : database) :
  get_table d1 t = get_table d2 t ->
  get_table (fold_left (fun d ly => append_layer ly t d) lys d1) t
  = get_table (fold_left (fun d ly => append_layer ly t d) lys d2) t.
Proof.
  revert d1 d2. induction lys as [| ly lys IH]; intros d1 d2 H; cbn.
  - exact H.
  - apply IH. apply append_layer_same. exact H.
Qed.

Lemma append_layers_other (lys : list layer) (t t' : string) (d : database) :
  (t =? t') = false ->
  get_table (fold_left (fun d ly => append_layer ly t d) lys d) t'
  = get_table d t'.
Proof.
  intro Hne. revert d. induction lys as [| ly lys IH]; intro d; cbn.
  - reflexivity.
  - rewrite IH. apply append_layer_other. exact Hne.
Qed.

(** One converter run on a shapefile of a nested archive. *)
Lemma shape_converter (z n f : string) (d : list (string * file_data))
  (a b : archive) (w : world) :
  workdir w = Some d -> lookup z d = Some (ZipData a) ->
  lookup n a = Some (Nested b) -> server_up w = true ->
  converter (shape_command z n f) w
  = fold_left (fun d ly => append_layer ly "postcode_staging" d)
      (layers_at b f) (db w).
Proof.
  intros Hd Hz Hn Hup. unfold converter, shape_command, layers_at.
  cbn [vsizip_depth source nln append resolve_source].
  rewrite Hd, Hz, Hn, Hup.
  destruct (lookup f b) as [e |]; [| reflexivity].
  destruct (layer_of e); reflexivity.
Qed.

(** The inner loop of [parse_polys], over the shapefiles of one nested
    archive. *)
Lemma shape_loop (z n : string) (d : list (string * file_data))
  (a b : archive) (fs : list string) (w : world) :
  workdir w = Some d -> lookup z d = Some (ZipData a) ->
  lookup n a = Some (Nested b) -> server_up w = true ->
  exists w',
    for_each fs
      (fun file =>
         print ("Parsing Postcode >> " ++ file)%string ;;
         os_system (shape_command z n file)) w = (inr tt, w')
    /\ db w'
       = fold_left (fun d ly => append_layer ly "postcode_staging" d)
           (flat_map (layers_at b) fs) (db w)
    /\ system_log w' = system_log w ++ map (shape_command z n) fs
    /\ sql_log w' = sql_log w
    /\ workdir w' = workdir w
    /\ server_up w' = server_up w.
Proof.
  intros Hd Hz Hn. revert w Hd.
  induction fs as [| f fs IH]; intros w Hd Hup.
  - exists w. cbn. rewrite app_nil_r. auto 6.
  - cbn [for_each]. unfold bind at 1 2. unfold print at 1, os_system at 1, modify.
    set (w0 := with_stdout _ w).
    assert (Hd0 : workdir w0 = Some d) by exact Hd.
    assert (Hup0 : server_up w0 = true) by exact Hup.
    rewrite (shape_converter z n f d a b w0 Hd0 Hz Hn Hup0).
    set (w1 := with_system_log _ _).
    destruct (IH w1 Hd Hup) as (w' & Hr & Hdb & Hsys & Hsql & Hwd & Hsu).
    exists w'. split; [exact Hr |].
    split; [rewrite Hdb; cbn [flat_map]; rewrite fold_left_app; reflexivity |].
    split; [rewrite Hsys; cbn; rewrite <- app_assoc; reflexivity |].
    auto.
Qed.

Lemma last_item_cons {A : Type} (x y : A) (l : list A) :
  last_item (x :: y :: l) = last_item (y :: l).
Proof.
  unfold last_item. cbn [rev].
  destruct (rev l ++ [y]) as [| h r] eqn:E.
  - destruct (rev l); discriminate.
  - reflexivity.
Qed.

Lemma last_item_some {A : Type} (x : A) (l : list A) :
  exists y, last_item (x :: l) = Some y.
Proof.
  unfold last_item. cbn [rev].
  destruct (rev l ++ [x]) as [| h r] eqn:E.
  - destruct (rev l); discriminate.
  - exists h. reflexivity.
Qed.

(** The loop of [parse_polys] over nested archives. *)
Lemma nested_loop (z : string) (d : list (string * file_data)) (a : archive)
  (ns : list string) (w : world) :
  workdir w = Some d -> lookup z d = Some (ZipData a) ->
  server_up w = true ->
  (forall n, In n ns -> exists b, lookup n a = Some (Nested b)) ->
  exists w',
    for_each ns
      (fun z_file =>
         zp <- zip_entry a z_file ;;
         z_shp <- zip_open_entry zp ;;
         call_global globals_with_loader "exec_sql_statements"
           [PyTuple [[DropTable true "postcode_staging"]]] ;;
         for_each (filter (fun f => endswith f ".shp") (namelist z_shp))
           (fun file =>
              print ("Parsing Postcode >> " ++ file)%string ;;
              os_system (mkOgr 2 [z; z_file; file] "postcode_staging"
                           (Some "MULTIPOLYGON") true (Some "EPSG:4326")))) w
    = (inr tt, w')
    /\ sql_log w'
       = sql_log w ++ map (fun _ => DropTable true "postcode_staging") ns
    /\ system_log w'
       = system_log w
         ++ flat_map (fun n => map (shape_command z n) (shape_files a n)) ns
    /\ (forall t', ("postcode_staging" =? t') = false ->
                   get_table (db w') t' = get_table (db w) t')
    /\ get_table (db w') "postcode_staging"
       = match last_item ns with
         | Some n => staged (shape_layers a n)
         | None => get_table (db w) "postcode_staging"
         end
    /\ workdir w' = workdir w
    /\ server_up w' = true.
Proof.
  intros Hd Hz. revert w Hd.
  induction ns as [| n ns IH]; intros w Hd Hup Hall.
  - exists w. cbn. rewrite !app_nil_r. auto 8.
  - destruct (Hall n (or_introl eq_refl)) as (b & Hn).
    cbn [for_each]. unfold bind at 1. unfold bind at 1.
    unfold zip_entry at 1. rewrite Hn. cbn [ret]. unfold bind at 1.
    cbn [zip_open_entry ret]. unfold bind at 1.
    destruct (drop_staging_call w Hup) as (w1 & Hc & Hnone & Hfr1 & Hl1 & Hs1).
    rewrite Hc.
    destruct Hs1 as (Hwd1 & Hup1 & Hsys1).
    assert (Hd1 : workdir w1 = Some d) by congruence.
    assert (Hu1 : server_up w1 = true) by congruence.
    destruct (shape_loop z n d a b
                (filter (fun f => endswith f ".shp") (namelist b)) w1
                Hd1 Hz Hn Hu1)
      as (w2 & Hr2 & Hdb2 & Hsys2 & Hsql2 & Hwd2 & Hup2).
    fold (shape_command z n). 
    change (fun file : string =>
              print ("Parsing Postcode >> " ++ file)%string ;;
              os_system (mkOgr 2 [z; n; file] "postcode_staging"
                           (Some "MULTIPOLYGON") true (Some "EPSG:4326")))
      with (fun file : string =>
              print ("Parsing Postcode >> " ++ file)%string ;;
              os_system (shape_command z n file)).
    rewrite Hr2.
    assert (Hd2 : workdir w2 = Some d) by congruence.
    assert (Hu2 : server_up w2 = true) by congruence.
    destruct (IH w2 Hd2 Hu2 (fun m Hm => Hall m (or_intror Hm)))
      as (w' & Hr & Hsql & Hsys & Hfr & Hst & Hwd & Hup').
    exists w'. split; [exact Hr |].
    assert (Hstage2 : get_table (db w2) "postcode_staging"
                      = staged (shape_layers a n)).
    { rewrite Hdb2. unfold staged, shape_layers. rewrite Hn.
      apply append_layers_same. rewrite Hnone. reflexivity. }
    split; [rewrite Hsql, Hsql2, Hl1; cbn [map]; rewrite <- app_assoc;
            reflexivity |].
    split.
    { rewrite Hsys, Hsys2, Hsys1. cbn [flat_map]. unfold shape_files at 2.
      rewrite Hn, <- app_assoc. reflexivity. }
    split.
    { intros t' Hne. rewrite (Hfr t' Hne), Hdb2.
      rewrite (append_layers_other _ _ _ _ Hne). apply Hfr1. exact Hne. }
    split.
    { rewrite Hst. destruct ns as [| m ns'].
      - cbn. exact Hstage2.
      - rewrite last_item_cons.
        destruct (last_item_some m ns') as (y & ->). reflexivity. }
    split; [congruence | exact Hup'].
Qed.

Lemma zip_open_inv (z : string) (a : archive) (w w' : world) :
  zip_open z w = (inr a, w') ->
  exists d, workdir w = Some d /\ lookup z d = Some (ZipData a).
Proof.
  unfold zip_open. destruct (workdir w) as [d |]; [| discriminate].
  destruct (lookup z d) as [[c | b | ] |] eqn:Hl; try discriminate.
  intro H; inversion H; subst. eauto.
Qed.

(** X8: the loop of [parse_polys] on any readable archive whose entries
    ending in [.zip] are archives, with the server reachable: it returns
    normally, sends one [DROP TABLE IF EXISTS] of the staging table per
    nested archive and no other statement, runs the converter once per
    shapefile, nested archive by nested archive in archive order, and
    changes no table but the staging table. *)
Theorem polys_ingest_converts_every_shapefile (hf : option string)
  (z : string) (a : archive) (w : world) :
  zip_open z w = (inr a, w) ->
  server_up w = true ->
  (forall n, In n (nested_files a) -> exists b, lookup n a = Some (Nested b)) ->
  exists w',
    polys_ingest globals_with_loader (instance (Some z) hf) w = (inr tt, w')
    /\ sql_log w'
       = sql_log w
         ++ map (fun _ => DropTable true "postcode_staging") (nested_files a)
    /\ system_log w'
       = system_log w
         ++ flat_map (fun n => map (shape_command z n) (shape_files a n))
              (nested_files a)
    /\ (forall t', ("postcode_staging" =? t') = false ->
                   get_table (db w') t' = get_table (db w) t').
Proof.
  intros Hz Hup Hall.
  destruct (zip_open_inv _ _ _ _ Hz) as (d & Hd & Hl).
  destruct (nested_loop z d a (nested_files a) w Hd Hl Hup Hall)
    as (w' & Hr & Hsql & Hsys & Hfr & _).
  exists w'. split; [| auto].
  unfold polys_ingest, bind. cbn [instance zip_file base_path attr path_div ret staging_table init].
  rewrite Hz. exact Hr.
Qed.

Lemma polys_ingest_converts_every_shapefile_witness :
  exists w',
    polys_ingest globals_with_loader
      (instance (Some "codepoint.zip") (Some "headers.csv"))
      Samples.sample_world = (inr tt, w')
    /\ sql_log w'
       = [DropTable true "postcode_staging"; DropTable true "postcode_staging"]
    /\ system_log w'
       = [shape_command "codepoint.zip" "Polygons/Data/ab.zip" "AB.shp";
          shape_command "codepoint.zip" "Polygons/Data/ac.zip" "AC.shp"].
Proof.
  destruct (polys_ingest_converts_every_shapefile (Some "headers.csv")
              "codepoint.zip" Samples.sample_archive Samples.sample_world
              eq_refl eq_refl) as (w' & Hr & Hsql & Hsys & _).
  - intros n [<- | [<- | []]]; eexists; reflexivity.
  - exists w'. split; [exact Hr |]. split; [exact Hsql | exact Hsys].
Defined.

(** X9: on any readable archive whose entries ending in [.zip] are
    archives, with the server reachable, the staging table the loop of
    [parse_polys] leaves is made of the shapefiles of the last nested
    archive alone: it is the table obtained by appending their layers to a
    store that holds nothing, whatever the earlier nested archives hold
    and whatever the store held before. *)
Theorem staging_keeps_last_nested_archive_only (hf : option string)
  (z : string) (a : archive) (w : world) (ns : list string) (n : string) :
  zip_open z w = (inr a, w) ->
  server_up w = true ->
  (forall m, In m (nested_files a) -> exists b, lookup m a = Some (Nested b)) ->
  nested_files a = ns ++ [n] ->
  exists w',
    polys_ingest globals_with_loader (instance (Some z) hf) w = (inr tt, w')
    /\ get_table (db w') "postcode_staging" = staged (shape_layers a n).
Proof.
  intros Hz Hup Hall Hns.
  destruct (zip_open_inv _ _ _ _ Hz) as (d & Hd & Hl).
  destruct (nested_loop z d a (nested_files a) w Hd Hl Hup Hall)
    as (w' & Hr & _ & _ & _ & Hst & _).
  exists w'. split.
  - unfold polys_ingest, bind.
    cbn [instance zip_file base_path attr path_div ret staging_table init].
    rewrite Hz. exact Hr.
  - rewrite Hst, Hns, last_item_app. reflexivity.
Qed.

Lemma staging_keeps_last_nested_archive_only_witness :
  exists w',
    polys_ingest globals_with_loader
      (instance (Some "codepoint.zip") (Some "headers.csv"))
      Samples.sample_world = (inr tt, w')
    /\ option_map rows (get_table (db w') "postcode_staging")
       = Some [[Some "1"; Some "POLYGON-2"; Some "AB1 2CE"; Some "u";
                Some "AB"]].
Proof.
  destruct (staging_keeps_last_nested_archive_only (Some "headers.csv")
              "codepoint.zip" Samples.sample_archive Samples.sample_world
              ["Polygons/Data/ab.zip"] "Polygons/Data/ac.zip"
              eq_refl eq_refl) as (w' & Hr & Hst).
  - intros n [<- | [<- | []]]; eexists; reflexivity.
  - reflexivity.
  - exists w'. split; [exact Hr |]. rewrite Hst. reflexivity.
Defined.

(* ================================================================== *)
(** ** Invariants of loops and batches *)

Lemma for_each_invariant {B : Type} (P : world -> Prop) (l : list B)
  (body : B -> M world unit) :
  (forall x w r w1, In x l -> body x w = (r, w1) -> P w -> P w1) ->
  forall w r w1, for_each l body w = (r, w1) -> P w -> P w1.
Proof.
  induction l as [| x l IH]; intros Hb w r w1 Hr HP.
  - cbn in Hr. inversion Hr; subst. exact HP.
  - cbn [for_each] in Hr. unfold bind in Hr.
    destruct (body x w) as [[e | []] w2] eqn:Hx.
    + inversion Hr; subst. exact (Hb x w _ _ (or_introl eq_refl) Hx HP).
    + apply (IH (fun y w r w1 Hy => Hb y w r w1 (or_intror Hy)) w2 r w1 Hr).
      exact (Hb x w _ _ (or_introl eq_refl) Hx HP).
Qed.

Lemma exec_all_invariant (P : database -> Prop) (l : list stmt) :
  (forall s d d', In s l -> execute s None d = inr d' -> P d -> P d') ->
  forall d d', exec_all l d = inr d' -> P d -> P d'.
Proof.
  induction l as [| s l IH]; intros Hs d d' Hx HP.
  - cbn in Hx. inversion Hx; subst. exact HP.
  - cbn [exec_all] in Hx.
    destruct (execute s None d) as [e | d1] eqn:H1; [discriminate |].
    apply (IH (fun s' d d' Hin => Hs s' d d' (or_intror Hin)) d1 d' Hx).
    exact (Hs s d d1 (or_introl eq_refl) H1 HP).
Qed.

(** Whatever the statement runner does with a batch, the store it leaves
    is the one a prefix of the batch's statements produces: the whole
    batch when it returns normally. *)
Lemma loader_prefix (b : batch) (w w' : world) (r : exn + pyvalue) :
  call_global globals_with_loader "exec_sql_statements" [PyTuple b] w
  = (r, w') ->
  exists pre post,
    statements b = pre ++ post
    /\ exec_all pre (db w) = inr (db w')
    /\ ((exists v, r = inr v) -> post = [])
    /\ sql_log w' = sql_log w ++ pre
    /\ same_env w w'.
Proof.
  rewrite call_loader. unfold bind.
  destruct (exec_sql_statements b w) as [[e | []] w1] eqn:Hr; cbn [ret];
    intro H; inversion H; subst; clear H.
  - apply exec_sql_fail in Hr.
    destruct Hr as [(Hd & -> & ->) | (_ & pre & s & post & pe & Hl & He & Hf & -> & Hlog & Hs)].
    + exists [], (statements b). rewrite app_nil_r.
      split; [reflexivity |]. split; [reflexivity |].
      split; [intros (v & Hv); discriminate |].
      split; [reflexivity | repeat split].
    + exists pre, (s :: post). split; [exact Hl |]. split; [exact He |].
      split; [intros (v & Hv); discriminate |]. split; [exact Hlog | exact Hs].
  - apply exec_sql_ok in Hr. destruct Hr as (_ & He & Hlog & Hs).
    exists (statements b), []. rewrite app_nil_r.
    split; [reflexivity |]. split; [exact He |]. split; [reflexivity |].
    split; [exact Hlog | exact Hs].
Qed.

(** Tables other than the staging table, as a relation between stores. *)
Lemma drop_staging_frame (w w' : world) (r : exn + pyvalue) :
  call_global globals_with_loader "exec_sql_statements"
    [PyTuple [[DropTable true "postcode_staging"]]] w = (r, w') ->
  forall t', ("postcode_staging" =? t') = false ->
             get_table (db w') t' = get_table (db w) t'.
Proof.
  intro H. apply loader_prefix in H.
  destruct H as (pre & post & Hl & He & _ & _ & _).
  intros t' Hne.
  eapply (exec_all_invariant
            (fun d => get_table d t' = get_table (db w) t') pre);
    [| exact He | reflexivity].
  intros s d d' Hin Hx HP.
  assert (Hs : s = DropTable true "postcode_staging").
  { assert (Hin' : In s (statements [[DropTable true "postcode_staging"]]))
      by (rewrite Hl; apply in_or_app; left; exact Hin).
    destruct Hin' as [<- | []]. reflexivity. }
  subst s. unfold execute in Hx.
  change (lex_stmt _) with (Some (DropTable true "postcode_staging")) in Hx.
  apply run_drop in Hx. destruct Hx as (_ & Hfr & _).
  rewrite (Hfr t' Hne). exact HP.
Qed.

(** Whatever [polys_ingest] does, it touches no table but the staging
    table. *)
Lemma polys_ingest_frame (zf hf : option string) (w w' : world)
  (r : exn + unit) :
  polys_ingest globals_with_loader (instance zf hf) w = (r, w') ->
  forall t', ("postcode_staging" =? t') = false ->
             get_table (db w') t' = get_table (db w) t'.
Proof.
  intros H t' Hne. unfold polys_ingest, bind in H.
  destruct zf as [z |]; cbn [instance zip_file base_path attr path_div ret raise] in H;
    [| inversion H; reflexivity].
  destruct (zip_open z w) as [[e | a] w0] eqn:Hz;
    pose proof (zip_open_frame _ _ _ _ Hz) as ->;
    [inversion H; reflexivity |].
  eapply (for_each_invariant
            (fun w1 => get_table (db w1) t' = get_table (db w) t'));
    [| exact H | reflexivity].
  clear H r w'. intros n w1 r w2 _ Hb HP. unfold bind in Hb.
  unfold zip_entry in Hb.
  destruct (lookup n a) as [e |]; cbn [ret raise] in Hb;
    [| inversion Hb; subst; exact HP].
  destruct e as [fs fts | recs | b |]; cbn [zip_open_entry ret raise] in Hb;
    try (inversion Hb; subst; exact HP).
  destruct (call_global _ _ _ w1) as [[e | v] w3] eqn:Hc.
  - inversion Hb; subst. rewrite (drop_staging_frame _ _ _ Hc t' Hne). exact HP.
  - eapply (for_each_invariant
              (fun w4 => get_table (db w4) t' = get_table (db w) t'));
      [| exact Hb | rewrite (drop_staging_frame _ _ _ Hc t' Hne); exact HP].
    intros f w4 r4 w5 _ Hf HP4. unfold bind, print, os_system, modify in Hf.
    inversion Hf; subst. cbn [db with_system_log with_db].
    rewrite converter_frame by exact Hne. exact HP4.
Qed.

Lemma run_create_as_existing t sel frm d d' T :
  run (CreateTableAs true t sel frm) None d = inr d' ->
  get_table d t = Some T -> d' = d.
Proof.
  intros H HT. cbn -[get_table eval_select] in H.
  destruct (eval_select sel frm d) as [e | [cols rws]]; [discriminate |].
  rewrite HT in H. inversion H. reflexivity.
Qed.

Lemma run_primary_key_fresh t c d d' T :
  run (AddPrimaryKey t c) None d = inr d' ->
  get_table d t = Some T -> pkey T = None.
Proof.
  intros H HT. cbn -[get_table] in H. rewrite HT in H.
  destruct (col_index c (columns T)); [| discriminate].
  destruct (pkey T); [discriminate | reflexivity].
Qed.

(** The statements of the final batch of [parse_polys] keep the rows and
    the column names of a geometry table that exists. *)
Lemma polys_statement_keeps (zf hf : option string) (G : table) (s : stmt)
  (d d' : database) :
  In s (statements (polys_commands (instance zf hf))) ->
  execute s None d = inr d' ->
  (exists G', get_table d "postcode_polygons" = Some G'
              /\ rows G' = rows G
              /\ map fst (columns G') = map fst (columns G)) ->
  exists G', get_table d' "postcode_polygons" = Some G'
             /\ rows G' = rows G
             /\ map fst (columns G') = map fst (columns G).
Proof.
  intros Hin Hx (G1 & HG & Hrows & Hcols).
  cbn [statements polys_commands concat app instance staging_table geom_table
         init] in Hin.
  unfold execute in Hx.
  destruct Hin as [<- | [<- | [<- | [<- | [<- | [<- | []]]]]]].
  - change (lex_stmt _)
      with (Some (RenameColumn "postcode_staging" "ogc_fid" "id")) in Hx.
    apply run_rename in Hx. destruct Hx as (_ & _ & _ & Hfr).
    exists G1. rewrite (Hfr "postcode_polygons" eq_refl). auto.
  - change (lex_stmt _)
      with (Some (RenameColumn "postcode_staging" "wkb_geometry" "polygon"))
      in Hx.
    apply run_rename in Hx. destruct Hx as (_ & _ & _ & Hfr).
    exists G1. rewrite (Hfr "postcode_polygons" eq_refl). auto.
  - change (lex_stmt _)
      with (Some (CreateTableAs true "postcode_polygons"
                    [Col "id"; Col "postcode"; Col "pc_area"; Col "polygon"]
                    (FromTable "postcode_staging"))) in Hx.
    rewrite (run_create_as_existing _ _ _ _ _ _ Hx HG). exists G1. auto.
  - change (lex_stmt _)
      with (Some (AddPrimaryKey "postcode_polygons" "id")) in Hx.
    apply run_primary_key in Hx. destruct Hx as (T & HT & HT' & _).
    rewrite HG in HT. inversion HT; subst T.
    eexists. split; [exact HT' |]. auto.
  - change (lex_stmt _)
      with (Some (AlterColumnType "postcode_polygons" "polygon" TGeography
                    false)) in Hx.
    apply run_alter_type in Hx. destruct Hx as (T & HT & HT' & _).
    rewrite HG in HT. inversion HT; subst T.
    eexists. split; [exact HT' |]. cbn [rows columns].
    rewrite set_col_type_names. auto.
  - change (lex_stmt _) with (Some (DropTable false "postcode_staging")) in Hx.
    apply run_drop in Hx. destruct Hx as (_ & Hfr & _).
    exists G1. rewrite (Hfr "postcode_polygons" eq_refl). auto.
Qed.

(** X10: [parse_polys] never rebuilds a geometry table that exists: in
    every run, however it ends, the table keeps its rows and its column
    names, the statement that would fill it being [CREATE TABLE IF NOT
    EXISTS]; and when the table has a primary key already, the run cannot
    return normally. *)
Theorem parse_polys_never_rebuilds_geometry (zf hf : option string)
  (w w' : world) (r : exn + unit) (G : table) :
  parse_polys globals_with_loader (instance zf hf) w = (r, w') ->
  get_table (db w) "postcode_polygons" = Some G ->
  (exists G', get_table (db w') "postcode_polygons" = Some G'
              /\ rows G' = rows G
              /\ map fst (columns G') = map fst (columns G))
  /\ (forall k, pkey G = Some k -> exists e, r = inl e).
Proof.
  intros H HG. unfold parse_polys in H. unfold bind at 1 in H.
  destruct (polys_ingest _ _ w) as [[e | []] w1] eqn:Hi.
  - inversion H; subst. split; [| eauto].
    exists G.
    rewrite (polys_ingest_frame _ _ _ _ _ Hi "postcode_polygons" eq_refl).
    auto.
  - pose proof (polys_ingest_frame _ _ _ _ _ Hi "postcode_polygons" eq_refl)
      as Hfr.
    unfold bind at 1 in H. unfold print at 1, modify in H.
    set (w2 := with_stdout _ w1) in H.
    assert (HG2 : get_table (db w2) "postcode_polygons" = Some G)
      by (subst w2; cbn [db with_stdout]; congruence).
    unfold bind in H.
    destruct (call_global _ _ _ w2) as [[e | v] w3] eqn:Hc;
      inversion H; subst; clear H;
      apply loader_prefix in Hc;
      destruct Hc as (pre & post & Hl & He & Hsucc & _ & _).
    + split; [| eauto].
      eapply (exec_all_invariant
                (fun d => exists G', get_table d "postcode_polygons" = Some G'
                                     /\ rows G' = rows G
                                     /\ map fst (columns G')
                                        = map fst (columns G)) pre);
        [| exact He | exists G; auto].
      intros s d d' Hin. apply (polys_statement_keeps zf hf).
      rewrite Hl. apply in_or_app. left. exact Hin.
    + split.
      * eapply (exec_all_invariant
                  (fun d => exists G', get_table d "postcode_polygons" = Some G'
                                       /\ rows G' = rows G
                                       /\ map fst (columns G')
                                          = map fst (columns G)) pre);
          [| exact He | exists G; auto].
        intros s d d' Hin. apply (polys_statement_keeps zf hf).
        rewrite Hl. apply in_or_app. left. exact Hin.
      * intros k Hk. exfalso.
        rewrite (Hsucc (ex_intro _ v eq_refl)), app_nil_r in Hl. subst pre.
        rewrite exec_all_lexed in He by reflexivity.
        cbn [statements polys_commands concat app instance staging_table
               geom_table init run_all] in He.
        destruct (run (RenameColumn _ _ _) None (db w2)) as [? | d1] eqn:E1;
          [discriminate |].
        destruct (run (RenameColumn _ _ _) None d1) as [? | d2] eqn:E2;
          [discriminate |].
        destruct (run (CreateTableAs _ _ _ _) None d2) as [? | d3] eqn:E3;
          [discriminate |].
        destruct (run (AddPrimaryKey _ _) None d3) as [? | d4] eqn:E4;
          [discriminate |].
        apply run_rename in E1. destruct E1 as (_ & _ & _ & F1).
        apply run_rename in E2. destruct E2 as (_ & _ & _ & F2).
        assert (HG3 : get_table d2 "postcode_polygons" = Some G).
        { rewrite (F2 "postcode_polygons" eq_refl),
            (F1 "postcode_polygons" eq_refl). exact HG2. }
        rewrite (run_create_as_existing _ _ _ _ _ _ E3 HG3) in E4.
        rewrite (run_primary_key_fresh _ _ _ _ _ E4 HG3) in Hk. discriminate.
Qed.

Lemma parse_polys_never_rebuilds_geometry_witness :
  exists e w',
    parse_polys globals_with_loader
      (instance (Some "codepoint.zip") (Some "headers.csv"))
      Samples.after_polys = (inl e, w')
    /\ option_map rows (get_table (db w') "postcode_polygons")
       = Some [[Some "1"; Some "AB1 2CE"; Some "AB"; Some "POLYGON-2"]].
Proof.
  destruct (parse_polys_never_rebuilds_geometry
              (Some "codepoint.zip") (Some "headers.csv")
              Samples.after_polys
              (snd (parse_polys globals_with_loader
                      (instance (Some "codepoint.zip") (Some "headers.csv"))
                      Samples.after_polys))
              (fst (parse_polys globals_with_loader
                      (instance (Some "codepoint.zip") (Some "headers.csv"))
                      Samples.after_polys))
              (mkTable [("id", TInteger); ("postcode", TText);
                        ("pc_area", TText); ("polygon", TGeography)]
                 [[Some "1"; Some "AB1 2CE"; Some "AB"; Some "POLYGON-2"]]
                 (Some "id")))
    as ((G' & HG' & Hrows & _) & Hfail).
  - apply surjective_pairing.
  - reflexivity.
  - destruct (Hfail "id" eq_refl) as (e & He).
    exists e. eexists. split.
    + rewrite (surjective_pairing (parse_polys _ _ _)). rewrite He. reflexivity.
    + rewrite HG'. cbn [option_map]. rewrite Hrows. reflexivity.
Defined.

(* ================================================================== *)
(** ** The geometry table on any archive *)

Lemma col_index_renamed (old new : string) (cols : list (string * sqltype)) :
  col_index new cols = None ->
  col_index new (rename_col old new cols) = col_index old cols.
Proof.
  induction cols as [| [c ty] cols IH]; intro H; [reflexivity |].
  cbn [col_index] in H. cbn [rename_col map fst snd col_index].
  destruct (c =? new) eqn:Hn; [discriminate |].
  destruct (col_index new cols) eqn:Hc; [discriminate |].
  destruct (c =? old) eqn:Ho; cbn [col_index fst snd].
  - rewrite String.eqb_refl. reflexivity.
  - rewrite Hn. fold (rename_col old new cols). rewrite (IH eq_refl).
    reflexivity.
Qed.

Lemma col_index_not_renamed (old new c : string)
  (cols : list (string * sqltype)) :
  (old =? c) = false -> (new =? c) = false ->
  col_index c (rename_col old new cols) = col_index c cols.
Proof.
  intros Ho Hn. induction cols as [| [c' ty] cols IH]; [reflexivity |].
  cbn [rename_col map fst snd col_index].
  destruct (c' =? old) eqn:E; cbn [col_index fst snd].
  - apply String.eqb_eq in E. subst c'. rewrite Hn, Ho.
    fold (rename_col old new cols). rewrite IH. reflexivity.
  - fold (rename_col old new cols). rewrite IH. reflexivity.
Qed.

Lemma run_rename_fresh t old new d d' T :
  run (RenameColumn t old new) None d = inr d' ->
  get_table d t = Some T ->
  col_index new (columns T) = None.
Proof.
  intros H HT. cbn -[get_table] in H. rewrite HT in H.
  destruct (col_index old (columns T)); [| discriminate].
  destruct (col_index new (columns T)); [discriminate | reflexivity].
Qed.

Lemma resolve_single_col t T c x :
  resolve_single t T (Col c) = inr x ->
  slot_name x = c /\ col_index c (columns T) = Some (slot_pos x)
  /\ slot_side x = OnRight.
Proof.
  cbn. intro H. apply resolve_in_spec in H. tauto.
Qed.

(** X11: on any readable archive whose entries ending in [.zip] are
    archives, with the server reachable and from a store without geometry
    table, a run of [parse_polys] that returns normally leaves a geometry
    table with one row per row of the staging table made of the last
    nested archive alone, carrying its feature id, postcode, area code and
    geometry.  Its columns are id, postcode, pc_area and polygon, its
    primary key is id, and the staging table is gone. *)
Theorem geometry_comes_from_last_nested_archive (hf : option string)
  (z : string) (a : archive) (w w' : world) (ns : list string) (n : string) :
  zip_open z w = (inr a, w) ->
  server_up w = true ->
  (forall m, In m (nested_files a) -> exists b, lookup m a = Some (Nested b)) ->
  nested_files a = ns ++ [n] ->
  get_table (db w) "postcode_polygons" = None ->
  parse_polys globals_with_loader (instance (Some z) hf) w = (inr tt, w') ->
  exists S G,
    staged (shape_layers a n) = Some S
    /\ get_table (db w') "postcode_polygons" = Some G
    /\ rows G
       = map (fun g => [field S "ogc_fid" g; field S "postcode" g;
                        field S "pc_area" g; field S "wkb_geometry" g])
           (rows S)
    /\ map fst (columns G) = ["id"; "postcode"; "pc_area"; "polygon"]
    /\ pkey G = Some "id"
    /\ get_table (db w') "postcode_staging" = None.
Proof.
  intros Hz Hup Hall Hns Hno H.
  destruct (zip_open_inv _ _ _ _ Hz) as (d & Hd & Hl).
  destruct (nested_loop z d a (nested_files a) w Hd Hl Hup Hall)
    as (w1 & Hr & _ & _ & Hfr & Hst & _).
  rewrite Hns, last_item_app in Hst.
  assert (Hi : polys_ingest globals_with_loader (instance (Some z) hf) w
               = (inr tt, w1)).
  { unfold polys_ingest, bind.
    cbn [instance zip_file base_path attr path_div ret staging_table init].
    rewrite Hz. exact Hr. }
  unfold parse_polys in H. rewrite (bind_run _ _ _ _ _ Hi) in H.
  unfold bind at 1 in H. unfold print at 1, modify in H.
  set (w2 := with_stdout _ w1) in H.
  apply bind_ok in H. destruct H as (v & w3 & Hc & Hret).
  inversion Hret; subst w3. clear Hret.
  apply loader_ok in Hc. apply exec_sql_ok in Hc.
  destruct Hc as (_ & He & _ & _).
  rewrite exec_all_lexed in He by reflexivity.
  cbn [statements polys_commands concat app instance staging_table
         geom_table init run_all] in He.
  change (db w2) with (db w1) in He.
  destruct (run (RenameColumn _ _ _) None (db w1)) as [? | d1] eqn:E1;
    [discriminate |].
  destruct (run (RenameColumn _ _ _) None d1) as [? | d2] eqn:E2;
    [discriminate |].
  destruct (run (CreateTableAs _ _ _ _) None d2) as [? | d3] eqn:E3;
    [discriminate |].
  destruct (run (AddPrimaryKey _ _) None d3) as [? | d4] eqn:E4;
    [discriminate |].
  destruct (run (AlterColumnType _ _ _ _) None d4) as [? | d5] eqn:E5;
    [discriminate |].
  destruct (run (DropTable _ _) None d5) as [? | d6] eqn:E6;
    [discriminate |].
  inversion He; subst d6. clear He.
  (* the two renames *)
  pose proof E1 as E1'. apply run_rename in E1'.
  destruct E1' as (S & HS & HS1 & F1).
  pose proof (run_rename_fresh _ _ _ _ _ _ E1 HS) as Hid.
  pose proof E2 as E2'. apply run_rename in E2'.
  destruct E2' as (S1 & HS1' & HS2 & F2).
  rewrite HS1 in HS1'. inversion HS1'; subst S1. clear HS1'.
  pose proof (run_rename_fresh _ _ _ _ _ _ E2 HS1) as Hpoly.
  cbn [columns rows] in HS2, Hpoly.
  (* the projection *)
  assert (Hg2 : get_table d2 "postcode_polygons" = None).
  { rewrite (F2 "postcode_polygons" eq_refl), (F1 "postcode_polygons" eq_refl).
    rewrite (Hfr "postcode_polygons" eq_refl). exact Hno. }
  apply run_create_as in E3. destruct E3 as (cols & rws & Hsel & HG3 & F3).
  specialize (HG3 Hg2).
  cbn -[get_table resolve_single] in Hsel. rewrite HS2 in Hsel.
  match type of Hsel with
  | context [resolve_single ?t ?T] => set (S2 := T) in Hsel
  end.
  destruct (resolve_single _ S2 (Col "id")) as [? | x1] eqn:R1;
    [discriminate |].
  destruct (resolve_single _ S2 (Col "postcode")) as [? | x2] eqn:R2;
    [discriminate |].
  destruct (resolve_single _ S2 (Col "pc_area")) as [? | x3] eqn:R3;
    [discriminate |].
  destruct (resolve_single _ S2 (Col "polygon")) as [? | x4] eqn:R4;
    [discriminate |].
  apply resolve_single_col in R1, R2, R3, R4.
  destruct R1 as (N1 & C1 & D1). destruct R2 as (N2 & C2 & D2).
  destruct R3 as (N3 & C3 & D3). destruct R4 as (N4 & C4 & D4).
  unfold check_out_names in Hsel. cbn [map] in Hsel.
  rewrite N1, N2, N3, N4 in Hsel.
  change (first_dup ["id"; "postcode"; "pc_area"; "polygon"])
    with (@None string) in Hsel.
  inversion Hsel; subst cols rws. clear Hsel.
  (* the primary key, the type of the polygon, the final drop *)
  apply run_primary_key in E4. destruct E4 as (G3 & HG3' & HG4 & F4).
  rewrite HG3 in HG3'. inversion HG3'; subst G3. clear HG3'.
  cbn [columns rows] in HG4.
  apply run_alter_type in E5. destruct E5 as (G4 & HG4' & HG5 & F5).
  rewrite HG4 in HG4'. inversion HG4'; subst G4. clear HG4'.
  cbn [columns rows pkey] in HG5.
  apply run_drop in E6. destruct E6 as (Hgone & F6 & _).
  exists S. eexists.
  split; [rewrite <- Hst; exact HS |].
  split; [rewrite (F6 "postcode_polygons" eq_refl); exact HG5 |].
  cbn [rows columns pkey].
  split.
  { apply map_ext. intro g. cbn [map]. unfold slot_value.
    rewrite D1, D2, D3, D4. unfold field.
    subst S2. cbn [columns] in C1, C2, C3, C4.
    rewrite (col_index_not_renamed "wkb_geometry" "polygon" "id") in C1
      by reflexivity.
    rewrite (col_index_renamed _ _ _ Hid) in C1.
    rewrite (col_index_not_renamed "wkb_geometry" "polygon" "postcode") in C2
      by reflexivity.
    rewrite (col_index_not_renamed "ogc_fid" "id" "postcode") in C2
      by reflexivity.
    rewrite (col_index_not_renamed "wkb_geometry" "polygon" "pc_area") in C3
      by reflexivity.
    rewrite (col_index_not_renamed "ogc_fid" "id" "pc_area") in C3
      by reflexivity.
    rewrite (col_index_renamed _ _ _ Hpoly) in C4.
    rewrite (col_index_not_renamed "ogc_fid" "id" "wkb_geometry") in C4
      by reflexivity.
    rewrite C1, C2, C3, C4. reflexivity. }
  split.
  { rewrite set_col_type_names. unfold out_columns. cbn [map fst].
    rewrite N1, N2, N3, N4. reflexivity. }
  split; [reflexivity | exact Hgone].
Qed.

Lemma geometry_comes_from_last_nested_archive_witness :
  exists S G,
    staged (shape_layers Samples.sample_archive "Polygons/Data/ac.zip")
    = Some S
    /\ get_table (db Samples.after_polys) "postcode_polygons" = Some G
    /\ rows G = [[Some "1"; Some "AB1 2CE"; Some "AB"; Some "POLYGON-2"]].
Proof.
  destruct (geometry_comes_from_last_nested_archive (Some "headers.csv")
              "codepoint.zip" Samples.sample_archive Samples.sample_world
              Samples.after_polys
              ["Polygons/Data/ab.zip"] "Polygons/Data/ac.zip"
              eq_refl eq_refl) as (S & G & HS & HG & Hrows & _).
  - intros n [<- | [<- | []]]; eexists; reflexivity.
  - reflexivity.
  - reflexivity.
  - vm_compute. reflexivity.
  - exists S, G. split; [exact HS |]. split; [exact HG |].
    rewrite Hrows. clear - HS. vm_compute in HS. inversion HS. reflexivity.
Defined.

(* ================================================================== *)
(** ** Archives without the expected files *)

Lemma loader_stops (b : batch) (w : world) (pre post : list stmt)
  (s : stmt) (d1 : database) (pe : pg_error) :
  server_up w = true ->
  statements b = pre ++ s :: post ->
  exec_all pre (db w) = inr d1 ->
  execute s None d1 = inl pe ->
  exists w',
    call_global globals_with_loader "exec_sql_statements" [PyTuple b] w
    = (inl (DatabaseError pe), w')
    /\ db w' = d1
    /\ sql_log w' = sql_log w ++ pre
    /\ same_env w w'.
Proof.
  intros Hup Hl He Hf.
  destruct (exec_sql_stops b w pre post s d1 pe Hup Hl He Hf)
    as (w' & Hr & H).
  exists w'. split; [| exact H].
  rewrite call_loader. unfold bind. rewrite Hr. reflexivity.
Qed.

(** X12: when the last nested archive holds no shapefile the converter
    can read, [parse_polys] raises at its first rename, the staging table
    being undefined, although the shapefiles of the earlier nested archives
    were handed to the converter; no table but the staging table
    changes. *)
Theorem parse_polys_fails_when_last_archive_has_no_shapefile
  (hf : option string) (z : string) (a : archive) (w : world)
  (ns : list string) (n : string) :
  zip_open z w = (inr a, w) ->
  server_up w = true ->
  (forall m, In m (nested_files a) -> exists b, lookup m a = Some (Nested b)) ->
  nested_files a = ns ++ [n] ->
  shape_layers a n = [] ->
  exists w',
    parse_polys globals_with_loader (instance (Some z) hf) w
    = (inl (DatabaseError (UndefinedTable "postcode_staging")), w')
    /\ system_log w'
       = system_log w
         ++ flat_map (fun m => map (shape_command z m) (shape_files a m))
              (nested_files a)
    /\ (forall t', ("postcode_staging" =? t') = false ->
                   get_table (db w') t' = get_table (db w) t').
Proof.
  intros Hz Hup Hall Hns Hempty.
  destruct (zip_open_inv _ _ _ _ Hz) as (d & Hd & Hl).
  destruct (nested_loop z d a (nested_files a) w Hd Hl Hup Hall)
    as (w1 & Hr & _ & Hsys & Hfr & Hst & _ & Hup1).
  rewrite Hns, last_item_app, Hempty in Hst.
  change (staged []) with (@None table) in Hst.
  assert (Hi : polys_ingest globals_with_loader (instance (Some z) hf) w
               = (inr tt, w1)).
  { unfold polys_ingest, bind.
    cbn [instance zip_file base_path attr path_div ret staging_table init].
    rewrite Hz. exact Hr. }
  unfold parse_polys. rewrite (bind_run _ _ _ _ _ Hi).
  unfold bind at 1. unfold print at 1, modify.
  set (w2 := with_stdout _ w1).
  assert (Hfail : execute (RenameColumn "postcode_staging" "ogc_fid" "id")
                    None (db w2)
                  = inl (UndefinedTable "postcode_staging")).
  { unfold execute.
    change (lex_stmt _)
      with (Some (RenameColumn "postcode_staging" "ogc_fid" "id")).
    cbn -[get_table]. change (db w2) with (db w1). rewrite Hst. reflexivity. }
  destruct (loader_stops (polys_commands (instance (Some z) hf)) w2 [] _ _
              (db w2) _ Hup1 eq_refl eq_refl Hfail)
    as (w3 & Hc & Hdb & _ & (_ & _ & Hsys3)).
  exists w3. unfold bind. rewrite Hc.
  split; [reflexivity |]. split; [rewrite Hsys3; exact Hsys |].
  intros t' Hne. rewrite Hdb. apply Hfr. exact Hne.
Qed.

Lemma parse_polys_fails_when_last_archive_has_no_shapefile_witness :
  exists w',
    parse_polys globals_with_loader
      (instance (Some "codepoint.zip") (Some "headers.csv"))
      Samples.hollow_world
    = (inl (DatabaseError (UndefinedTable "postcode_staging")), w')
    /\ system_log w'
       = [shape_command "codepoint.zip" "Polygons/Data/ab.zip" "AB.shp"].
Proof.
  destruct (parse_polys_fails_when_last_archive_has_no_shapefile
              (Some "headers.csv") "codepoint.zip" Samples.hollow_archive
              Samples.hollow_world
              ["Polygons/Data/ab.zip"] "Polygons/Data/docs.zip"
              eq_refl eq_refl) as (w' & Hr & Hsys & _).
  - intros n [<- | [<- | []]]; eexists; reflexivity.
  - reflexivity.
  - reflexivity.
  - exists w'. split; [exact Hr | exact Hsys].
Defined.

(* ================================================================== *)
(** ** The attribute files *)

Lemma attribute_converter (z f : string) (d : list (string * file_data))
  (a : archive) (w : world) :
  workdir w = Some d -> lookup z d = Some (ZipData a) ->
  server_up w = true ->
  converter (attribute_command z f) w
  = fold_left (fun d ly => append_layer ly "postcode_staging" d)
      (layers_at a f) (db w).
Proof.
  intros Hd Hz Hup. unfold converter, attribute_command, layers_at.
  cbn [vsizip_depth source nln append resolve_source].
  rewrite Hd, Hz, Hup.
  destruct (lookup f a) as [e |]; [| reflexivity].
  destruct (layer_of e); reflexivity.
Qed.

Lemma attribute_files_loop (z : string) (d : list (string * file_data))
  (a : archive) (fs : list string) (w : world) :
  workdir w = Some d -> lookup z d = Some (ZipData a) ->
  server_up w = true ->
  exists w',
    for_each fs
      (fun csv_file =>
         print ("Parsing Postcode >> " ++ csv_file)%string ;;
         os_system (attribute_command z csv_file)) w = (inr tt, w')
    /\ db w'
       = fold_left (fun d ly => append_layer ly "postcode_staging" d)
           (flat_map (layers_at a) fs) (db w)
    /\ system_log w' = system_log w ++ map (attribute_command z) fs
    /\ sql_log w' = sql_log w
    /\ server_up w' = server_up w.
Proof.
  intros Hd Hz. revert w Hd.
  induction fs as [| f fs IH]; intros w Hd Hup.
  - exists w. cbn. rewrite app_nil_r. auto 6.
  - cbn [for_each]. unfold bind at 1 2. unfold print at 1, os_system at 1, modify.
    set (w0 := with_stdout _ w).
    assert (Hd0 : workdir w0 = Some d) by exact Hd.
    assert (Hup0 : server_up w0 = true) by exact Hup.
    rewrite (attribute_converter z f d a w0 Hd0 Hz Hup0).
    set (w1 := with_system_log _ _).
    destruct (IH w1 Hd Hup) as (w' & Hr & Hdb & Hsys & Hsql & Hsu).
    exists w'. split; [exact Hr |].
    split; [rewrite Hdb; cbn [flat_map]; rewrite fold_left_app; reflexivity |].
    split; [rewrite Hsys; cbn; rewrite <- app_assoc; reflexivity |].
    split; [exact Hsql | exact Hsu].
Qed.

(** The first part of [parse_info] on a readable header file and
    archive. *)
Lemma info_ingest_run (z h c : string)
  (a : archive) (w : world) :
  open_text h w = (inr c, w) ->
  c <> EmptyString ->
  zip_open z w = (inr a, w) ->
  server_up w = true ->
  exists cols w',
    header_columns c = inr cols
    /\ info_ingest globals_with_loader (instance (Some z) (Some h)) w
       = (inr cols, w')
    /\ sql_log w' = sql_log w ++ [DropTable true "postcode_staging"]
    /\ system_log w'
       = system_log w ++ map (attribute_command z) (attribute_files a)
    /\ get_table (db w') "postcode_staging"
       = staged (flat_map (layers_at a) (attribute_files a))
    /\ (forall t', ("postcode_staging" =? t') = false ->
                   get_table (db w') t' = get_table (db w) t')
    /\ server_up w' = true.
Proof.
  intros Ho Hne Hz Hup.
  destruct (readlines_not_nil c Hne) as (ls & l & Hl).
  assert (Hh : header_columns c = inr (split "," l))
    by (unfold header_columns; rewrite Hl, last_item_app; reflexivity).
  destruct (zip_open_inv _ _ _ _ Hz) as (d & Hd & Hlz).
  destruct (drop_staging_call w Hup) as (w1 & Hc & Hnone & Hfr1 & Hl1 & Hs1).
  destruct Hs1 as (Hwd1 & Hup1 & Hsys1).
  assert (Hd1 : workdir w1 = Some d) by congruence.
  assert (Hu1 : server_up w1 = true) by congruence.
  destruct (attribute_files_loop z d a (attribute_files a) w1 Hd1 Hlz Hu1)
    as (w2 & Hr2 & Hdb2 & Hsys2 & Hsql2 & Hup2).
  exists (split "," l), w2. split; [exact Hh |].
  split.
  { unfold info_ingest.
    cbn [instance header_file zip_file base_path staging_table init].
    erewrite bind_run by reflexivity.
    erewrite bind_run by reflexivity.
    erewrite bind_run by exact Ho.
    erewrite bind_run by (unfold of_result; rewrite Hh; reflexivity).
    erewrite bind_run by reflexivity.
    erewrite bind_run by reflexivity.
    erewrite bind_run by exact Hz.
    erewrite bind_run by exact Hc.
    erewrite bind_run by exact Hr2.
    reflexivity. }
  split; [congruence |].
  split; [congruence |].
  split.
  { rewrite Hdb2. unfold staged. apply append_layers_same.
    rewrite Hnone. reflexivity. }
  split; [| congruence].
  intros t' Hn. rewrite Hdb2, (append_layers_other _ _ _ _ Hn).
  apply Hfr1. exact Hn.
Qed.


(** X13: the first part of [parse_info] on a readable header file that
    is not empty and a readable archive, with the server reachable: it
    returns the tokens of the header, sends one [DROP TABLE IF EXISTS] of
    the staging table, runs the converter once per entry that ends in
    [.csv] and starts with [Code-Point/Data/CSV], in archive order, and no
    other entry; the staging table it leaves holds the layers of all those
    files, appended to nothing; no other table changes. *)
Theorem info_ingest_stages_every_attribute_file (z h c : string)
  (a : archive) (w : world) :
  open_text h w = (inr c, w) ->
  c <> EmptyString ->
  zip_open z w = (inr a, w) ->
  server_up w = true ->
  exists cols w',
    header_columns c = inr cols
    /\ info_ingest globals_with_loader (instance (Some z) (Some h)) w
       = (inr cols, w')
    /\ sql_log w' = sql_log w ++ [DropTable true "postcode_staging"]
    /\ system_log w'
       = system_log w ++ map (attribute_command z) (attribute_files a)
    /\ get_table (db w') "postcode_staging"
       = staged (flat_map (layers_at a) (attribute_files a))
    /\ (forall t', ("postcode_staging" =? t') = false ->
                   get_table (db w') t' = get_table (db w) t').
Proof.
  intros Ho Hne Hz Hup.
  destruct (info_ingest_run z h c a w Ho Hne Hz Hup)
    as (cols & w' & H1 & H2 & H3 & H4 & H5 & H6 & _).
  exists cols, w'. auto 7.
Qed.

Lemma info_ingest_stages_every_attribute_file_witness :
  exists cols w',
    info_ingest globals_with_loader
      (instance (Some "codepoint.zip") (Some "headers.csv"))
      Samples.sample_world = (inr cols, w')
    /\ system_log w'
       = [attribute_command "codepoint.zip" "Code-Point/Data/CSV/ab.csv"]
    /\ option_map (fun T => List.length (rows T))
         (get_table (db w') "postcode_staging") = Some 2.
Proof.
  destruct (info_ingest_stages_every_attribute_file
              "codepoint.zip" "headers.csv" Samples.header_text
              Samples.sample_archive Samples.sample_world
              eq_refl ltac:(discriminate) eq_refl eq_refl)
    as (cols & w' & _ & Hr & _ & Hsys & Hst & _).
  exists cols, w'. split; [exact Hr |]. split; [exact Hsys |].
  rewrite Hst. reflexivity.
Defined.

(** X14: when the archive holds no attribute file under
    [Code-Point/Data/CSV] that the converter can read, [parse_info] raises
    at its first rename: a syntax error when the first header token is not
    a name, an undefined staging table otherwise.  It has sent the one
    drop of the staging table and nothing else, and no other table
    changes. *)
Theorem parse_info_fails_without_attribute_files (z h c : string)
  (a : archive) (w : world) :
  open_text h w = (inr c, w) ->
  c <> EmptyString ->
  zip_open z w = (inr a, w) ->
  server_up w = true ->
  flat_map (layers_at a) (attribute_files a) = [] ->
  exists pe w',
    parse_info globals_with_loader (instance (Some z) (Some h)) w
    = (inl (DatabaseError pe), w')
    /\ (pe = SyntaxError \/ pe = UndefinedTable "postcode_staging")
    /\ sql_log w' = sql_log w ++ [DropTable true "postcode_staging"]
    /\ (forall t', ("postcode_staging" =? t') = false ->
                   get_table (db w') t' = get_table (db w) t').
Proof.
  intros Ho Hne Hz Hup Hempty.
  destruct (info_ingest_run z h c a w Ho Hne Hz Hup)
    as (cols & w1 & Hcols & Hi & Hlog & _ & Hst & Hfr & Hup1).
  rewrite Hempty in Hst. change (staged []) with (@None table) in Hst.
  assert (Hc1 : exists c1 rest, cols = c1 :: rest).
  { destruct (readlines_not_nil c Hne) as (ls & l & Hl).
    unfold header_columns in Hcols. rewrite Hl, last_item_app in Hcols.
    inversion Hcols.
    destruct (split "," l) as [| c1 rest] eqn:Hs;
      [exfalso; exact (split_not_nil _ _ Hs) | eauto]. }
  destruct Hc1 as (c1 & rest & ->).
  unfold parse_info. rewrite (bind_run _ _ _ _ _ Hi).
  unfold bind at 1. unfold print at 1, modify.
  set (w2 := with_stdout _ w1).
  assert (Hfail : exists pe,
             execute (RenameColumn "postcode_staging"
                        ("field_" ++ str_of_nat (0 + 1))%string (lower c1))
               None (db w2) = inl pe
             /\ (pe = SyntaxError \/ pe = UndefinedTable "postcode_staging")).
  { unfold execute. cbn [lex_stmt].
    change (ident_of "postcode_staging") with (Some "postcode_staging").
    destruct (ident_of _) as [o |]; [| eauto].
    destruct (ident_of (lower c1)) as [m |]; [| eauto].
    cbn -[get_table]. change (db w2) with (db w1). rewrite Hst. eauto. }
  destruct Hfail as (pe & Hfail & Hpe).
  destruct (loader_stops
              (info_commands (instance (Some z) (Some h)) (c1 :: rest))
              w2 []
              (statements
                 (plan_renames (instance (Some z) (Some h)) 1 rest)
               ++ statements
                    (merge_commands (instance (Some z) (Some h))
                       (snd (mapping_plan (instance (Some z) (Some h))
                               (c1 :: rest)))))
              (RenameColumn "postcode_staging"
                 ("field_" ++ str_of_nat (0 + 1))%string (lower c1))
              (db w2) pe Hup1)
    as (w3 & Hc & Hdb & Hlog3 & _).
  { unfold info_commands. rewrite statements_app.
    rewrite mapping_plan_spec. cbn [fst snd]. reflexivity. }
  { reflexivity. }
  { exact Hfail. }
  exists pe, w3. unfold bind. rewrite Hc.
  split; [reflexivity |]. split; [exact Hpe |].
  split; [rewrite Hlog3, app_nil_r; exact Hlog |].
  intros t' Hn. rewrite Hdb. apply Hfr. exact Hn.
Qed.

Lemma parse_info_fails_without_attribute_files_witness :
  exists pe w',
    parse_info globals_with_loader
      (instance (Some "codepoint.zip") (Some "headers.csv"))
      Samples.misplaced_world = (inl (DatabaseError pe), w')
    /\ get_table (db w') "postcode" = None.
Proof.
  destruct (parse_info_fails_without_attribute_files
              "codepoint.zip" "headers.csv" Samples.header_text
              Samples.misplaced_archive Samples.misplaced_world
              eq_refl ltac:(discriminate) eq_refl eq_refl eq_refl)
    as (pe & w' & Hr & _ & _ & Hfr).
  exists pe, w'. split; [exact Hr |].
  rewrite (Hfr "postcode" eq_refl). reflexivity.
Defined.

(* ================================================================== *)
(** ** Header tokens the server cannot read *)

Lemma plan_renames_cons (self : PostcodeParser) (k : nat) (c : string)
  (cols : list string) :
  statements (plan_renames self k (c :: cols))
  = RenameColumn (staging_table self)
      ("field_" ++ str_of_nat (k + 1))%string (lower c)
    :: statements (plan_renames self (S k) cols).
Proof. reflexivity. Qed.

Lemma renames_need_names (self : PostcodeParser) (cols : list string)
  (k : nat) (d d' : database) :
  exec_all (statements (plan_renames self k cols)) d = inr d' ->
  forall c, In c cols -> exists n, ident_of (lower c) = Some n.
Proof.
  revert k d. induction cols as [| c cols IH]; intros k d Hx x Hin.
  - destruct Hin.
  - rewrite plan_renames_cons in Hx. cbn [exec_all] in Hx.
    destruct (execute _ None d) as [e | d1] eqn:H1; [discriminate |].
    destruct Hin as [<- | Hin]; [| exact (IH _ _ Hx x Hin)].
    unfold execute in H1. cbn [lex_stmt] in H1.
    destruct (ident_of (staging_table self)); [| discriminate].
    destruct (ident_of _); [| discriminate].
    destruct (ident_of (lower c)) as [n |]; [eauto | discriminate].
Qed.

Lemma plan_renames_shape (zf hf : option string) (cols : list string)
  (k : nat) (s : stmt) :
  In s (statements (plan_renames (instance zf hf) k cols)) ->
  exists o n, s = RenameColumn "postcode_staging" o n.
Proof.
  revert k. induction cols as [| c cols IH]; intros k Hin.
  - destruct Hin.
  - rewrite plan_renames_cons in Hin. destruct Hin as [<- | Hin].
    + eauto.
    + exact (IH _ Hin).
Qed.

Lemma rename_staging_frame (o n : string) (d d' : database) :
  execute (RenameColumn "postcode_staging" o n) None d = inr d' ->
  forall t', ("postcode_staging" =? t') = false ->
             get_table d' t' = get_table d t'.
Proof.
  unfold execute. cbn [lex_stmt].
  change (ident_of "postcode_staging") with (Some "postcode_staging").
  destruct (ident_of o); [| discriminate].
  destruct (ident_of n); [| discriminate].
  intro H. apply run_rename in H. destruct H as (_ & _ & _ & Hfr). exact Hfr.
Qed.

Lemma lower_blank (c : string) :
  all_chars is_space c = true -> lower c = c.
Proof.
  induction c as [| ch c IH]; [reflexivity |].
  cbn [all_chars lower]. intro H. apply andb_prop in H. destruct H as (Hs, Hr).
  rewrite (IH Hr). f_equal.
  unfold is_space in Hs. unfold lower_char.
  repeat (apply orb_prop in Hs; destruct Hs as [Hs | Hs]);
    apply Nat.eqb_eq in Hs; rewrite Hs; reflexivity.
Qed.

Lemma lstrip_blank (c : string) :
  all_chars is_space c = true -> lstrip c = EmptyString.
Proof.
  induction c as [| ch c IH]; [reflexivity |].
  cbn [all_chars lstrip]. intro H. apply andb_prop in H. destruct H as (Hs, Hr).
  rewrite Hs. exact (IH Hr).
Qed.

(** A blank token is not a name. *)
Lemma blank_not_a_name (c : string) :
  all_chars is_space c = true -> ident_of (lower c) = None.
Proof.
  intro H. rewrite (lower_blank c H). unfold ident_of, strip.
  rewrite (lstrip_blank c H). reflexivity.
Qed.

(** X15: a blank header token (an empty one, as after a trailing
    delimiter, or one made of blanks, tabs and line ends only) stops
    [parse_info]: whenever its first part has returned the tokens, the run
    raises during the renames, before the target table is dropped or
    created and before the geometry table is dropped. *)
Theorem blank_header_token_stops_parse_info (zf hf : option string)
  (w w1 : world) (cols : list string) (c : string) :
  info_ingest globals_with_loader (instance zf hf) w = (inr cols, w1) ->
  In c cols ->
  all_chars is_space c = true ->
  exists e w',
    parse_info globals_with_loader (instance zf hf) w = (inl e, w')
    /\ get_table (db w') "postcode" = get_table (db w) "postcode"
    /\ get_table (db w') "postcode_polygons"
       = get_table (db w) "postcode_polygons".
Proof.
  intros Hi Hin Hblank. pose proof (blank_not_a_name c Hblank) as Hbad.
  destruct (info_ingest_ok _ _ _ _ _ Hi) as (Hfr & _).
  unfold parse_info. rewrite (bind_run _ _ _ _ _ Hi).
  unfold bind at 1. unfold print at 1, modify.
  set (w2 := with_stdout _ w1).
  unfold bind.
  destruct (call_global _ _ _ w2) as [[e | v] w3] eqn:Hc;
    apply loader_prefix in Hc;
    destruct Hc as (pre & post & Hl & He & Hsucc & _ & _).
  - exists e, w3. split; [reflexivity |].
    unfold info_commands in Hl. rewrite mapping_plan_spec in Hl.
    cbn [fst snd] in Hl. rewrite statements_app in Hl.
    apply app_eq_app in Hl.
    destruct Hl as (l & [(Hren & Hpost) | (Hpre & Hmerge)]).
    + (* the batch stopped inside the renames *)
      assert (Hkeep : forall t', ("postcode_staging" =? t') = false ->
                                 get_table (db w3) t' = get_table (db w) t').
      { intros t' Hne.
        eapply (exec_all_invariant
                  (fun d => get_table d t' = get_table (db w) t') pre);
          [| exact He | exact (Hfr t' Hne)].
        intros s d d' Hs Hx HP.
        destruct (plan_renames_shape zf hf cols 0 s) as (o & n & ->).
        { rewrite Hren. apply in_or_app. left. exact Hs. }
        rewrite (rename_staging_frame _ _ _ _ Hx t' Hne). exact HP. }
      split; apply Hkeep; reflexivity.
    + (* every rename was accepted *)
      exfalso. rewrite Hpre in He. apply exec_all_app in He.
      destruct He as (dm & Hren & _).
      destruct (renames_need_names _ _ _ _ _ Hren c Hin) as (n & Hn).
      congruence.
  - exfalso. rewrite (Hsucc (ex_intro _ v eq_refl)), app_nil_r in Hl.
    subst pre.
    unfold info_commands in He. rewrite mapping_plan_spec in He.
    cbn [fst snd] in He. rewrite statements_app in He.
    apply exec_all_app in He. destruct He as (dm & Hren & _).
    destruct (renames_need_names _ _ _ _ _ Hren c Hin) as (n & Hn).
    congruence.
Qed.

Lemma blank_header_token_stops_parse_info_witness :
  header_columns "postcode,eastings," = inr ["postcode"; "eastings"; ""]
  /\ exists e w',
       parse_info globals_with_loader
         (instance (Some "codepoint.zip") (Some "headers.csv"))
         Samples.trailing_comma_world = (inl e, w')
       /\ get_table (db w') "postcode" = None.
Proof.
  split; [reflexivity |].
  destruct (blank_header_token_stops_parse_info
              (Some "codepoint.zip") (Some "headers.csv")
              Samples.trailing_comma_world
              (snd (info_ingest globals_with_loader
                      (instance (Some "codepoint.zip") (Some "headers.csv"))
                      Samples.trailing_comma_world))
              ["postcode"; "eastings"; ""] "")
    as (e & w' & Hr & Ht & _).
  - vm_compute. reflexivity.
  - right; right; left; reflexivity.
  - reflexivity.
  - exists e, w'. split; [exact Hr |]. rewrite Ht. reflexivity.
Defined.

(* ================================================================== *)
(** ** Running the attribute stage again *)

(** The join of [parse_info] needs the geometry table. *)
Lemma join_needs_geometry (fields : list colref) (d : database) :
  get_table d "postcode_polygons" = None ->
  exists e,
    execute (CreateTableAs false "postcode" fields
               (RightJoin "postcode_staging" "postcode_polygons"
                  (QCol "postcode_polygons" "postcode")
                  (QCol "postcode_staging" "postcode"))) None d = inl e.
Proof.
  intro Hno. unfold execute.
  destruct (lex_stmt _) as [s' |] eqn:Hlex; [| eauto].
  cbn [lex_stmt] in Hlex.
  change (ident_of "postcode") with (Some "postcode") in Hlex.
  change (lex_from _)
    with (Some (RightJoin "postcode_staging" "postcode_polygons"
                  (QCol "postcode_polygons" "postcode")
                  (QCol "postcode_staging" "postcode"))) in Hlex.
  destruct (lex_list lex_colref fields) as [fields' |]; [| discriminate].
  inversion Hlex; subst s'. cbn -[get_table]. rewrite Hno.
  destruct (get_table d "postcode_staging"); eauto.
Qed.

(** Without the geometry table [parse_info] cannot return normally. *)
Lemma info_needs_geometry (zf hf : option string) (w w' : world) :
  get_table (db w) "postcode_polygons" = None ->
  parse_info globals_with_loader (instance zf hf) w <> (inr tt, w').
Proof.
  intros Hno Hrun. unfold parse_info in Hrun.
  apply bind_ok in Hrun. destruct Hrun as (cols & w1 & Hing & Hrun).
  destruct (info_ingest_ok _ _ _ _ _ Hing) as (F1 & _).
  apply bind_ok in Hrun. destruct Hrun as ([] & w2 & Hp & Hrun).
  unfold print, modify in Hp. inversion Hp; subst w2. clear Hp.
  apply bind_ok in Hrun. destruct Hrun as (v & w3 & Hx & Hrun).
  inversion Hrun; subst w3. clear Hrun.
  apply loader_ok, exec_sql_ok in Hx.
  destruct Hx as (_ & X & _ & _).
  cbn [db with_stdout] in X.
  unfold info_commands in X. rewrite mapping_plan_spec in X.
  cbn [fst snd] in X. rewrite statements_app in X.
  apply exec_all_app in X. destruct X as (dj & Xr & Xm).
  pose proof (renames_frame _ _ _ _ _ _ Xr) as F2.
  rewrite merge_statements in Xm.
  cbn [app exec_all] in Xm.
  destruct (execute (DropTable true "postcode") None dj) as [| d1] eqn:D1;
    [discriminate |].
  unfold execute in D1.
  change (lex_stmt (DropTable true "postcode"))
    with (Some (DropTable true "postcode")) in D1.
  apply run_drop in D1. destruct D1 as (_ & O1 & _).
  assert (Hd1 : get_table d1 "postcode_polygons" = None).
  { rewrite O1 by reflexivity. rewrite F2 by reflexivity.
    rewrite F1 by reflexivity. exact Hno. }
  match type of Xm with
  | context [execute (CreateTableAs false "postcode" ?f _) None d1] =>
      destruct (join_needs_geometry f d1 Hd1) as (e & He)
  end.
  rewrite He in Xm. discriminate.
Qed.

(** After a run that returned normally the geometry table is gone. *)
Lemma info_drops_geometry (zf hf : option string) (w w' : world) :
  parse_info globals_with_loader (instance zf hf) w = (inr tt, w') ->
  get_table (db w') "postcode_polygons" = None.
Proof.
  intro Hrun.
  destruct (get_table (db w) "postcode_polygons") as [G |] eqn:HG.
  - destruct (info_result _ _ _ _ _ Hrun HG)
      as (cols & dj & S & T & _ & _ & _ & _ & _ & _ & _ & H & _).
    exact H.
  - exfalso. exact (info_needs_geometry _ _ _ _ HG Hrun).
Qed.

(** X16: [parse_info] cannot run twice: a run that returns normally has
    dropped the geometry table, and from the world it left a second run
    raises, the join having no geometry table to read. *)
Theorem parse_info_cannot_run_twice (zf hf : option string) (w w1 : world) :
  parse_info globals_with_loader (instance zf hf) w = (inr tt, w1) ->
  get_table (db w1) "postcode_polygons" = None
  /\ exists e w2,
       parse_info globals_with_loader (instance zf hf) w1 = (inl e, w2).
Proof.
  intro Hrun. pose proof (info_drops_geometry _ _ _ _ Hrun) as Hno.
  split; [exact Hno |].
  destruct (parse_info globals_with_loader (instance zf hf) w1)
    as [[e | []] w2] eqn:H2.
  - eauto.
  - exfalso. exact (info_needs_geometry _ _ _ _ Hno H2).
Qed.

Lemma parse_info_cannot_run_twice_witness :
  exists e w2,
    parse_info globals_with_loader
      (instance (Some "codepoint.zip") (Some "headers.csv"))
      Samples.after_info = (inl e, w2).
Proof.
  destruct (parse_info_cannot_run_twice
              (Some "codepoint.zip") (Some "headers.csv")
              Samples.after_polys Samples.after_info) as (_ & H).
  - vm_compute. reflexivity.
  - exact H.
Defined.

(* ================================================================== *)
(** ** Running the street stage again *)

(** Whatever [copy_from_csv] does, the files, the availability of the
    server and the converter runs are as before. *)
Lemma copy_from_csv_env (sql : command) (csv : list (list datum))
  (w w' : world) (r : exn + unit) :
  copy_from_csv sql csv w = (r, w') -> same_env w w'.
Proof.
  destruct (server_up w) eqn:Hup.
  - destruct (copy_from_csv_reachable sql csv w Hup)
      as (w1 & Hr & _ & Hs & Hd & Hl).
    rewrite Hr. intro H; inversion H; subst.
    repeat split; congruence.
  - unfold_copy. rewrite Hup. cbn.
    intro H; inversion H; subst. repeat split; reflexivity.
Qed.

Lemma loader_env (b : batch) (w w' : world) (r : exn + pyvalue) :
  call_global globals_with_loader "exec_sql_statements" [PyTuple b] w
  = (r, w') -> same_env w w'.
Proof.
  intro H. apply loader_prefix in H.
  destruct H as (_ & _ & _ & _ & _ & _ & Hs). exact Hs.
Qed.

Lemma street_loop_env (a : archive) (fs : list string) (w w' : world)
  (r : exn + unit) :
  for_each fs
    (fun txt_file =>
       txt <- zip_entry a txt_file ;;
       call_global globals_with_loader "copy_from_csv"
         [PySql [CopyFromStdin "vstreet_table"]; PyStream (stream_of txt)] ;;
       ret tt) w = (r, w') ->
  same_env w w'.
Proof.
  intro H.
  eapply (for_each_invariant (fun x => same_env w x));
    [| exact H | apply same_env_refl].
  clear. intros f x r y _ Hb Hx. unfold bind in Hb. unfold zip_entry in Hb.
  destruct (lookup f a) as [en |]; cbn [ret raise] in Hb;
    [| inversion Hb; subst; exact Hx].
  rewrite call_copy_with_loader in Hb. unfold bind in Hb.
  destruct (copy_from_csv _ _ x) as [[e | []] x1] eqn:Hc;
    apply copy_from_csv_env in Hc; cbn [ret] in Hb;
    inversion Hb; subst; exact (same_env_trans _ _ _ Hx Hc).
Qed.

Lemma vstreets_env (zf hf : option string) (w w' : world) (r : exn + unit) :
  parse_vstreets globals_with_loader (instance zf hf) w = (r, w') ->
  same_env w w'.
Proof.
  unfold parse_vstreets. unfold bind at 1.
  destruct zf as [z |];
    cbn [instance zip_file base_path attr path_div ret raise];
    [| intro H; inversion H; apply same_env_refl].
  unfold bind at 1. cbn [ret].
  unfold bind at 1.
  destruct (zip_open z w) as [[e | a] w0] eqn:Hz;
    pose proof (zip_open_frame _ _ _ _ Hz) as ->;
    [intro H; inversion H; apply same_env_refl |].
  unfold bind at 1.
  destruct (call_global _ _ _ w) as [[e | v1] w1] eqn:H1;
    apply loader_env in H1; [intro H; inversion H; subst; exact H1 |].
  unfold bind at 1.
  destruct (call_global _ _ _ w1) as [[e | v2] w2] eqn:H2;
    apply loader_env in H2;
    [intro H; inversion H; subst; exact (same_env_trans _ _ _ H1 H2) |].
  pose proof (same_env_trans _ _ _ H1 H2) as H12.
  unfold bind at 1.
  match goal with
  | |- context [for_each ?l ?body w2] =>
      destruct (for_each l body w2) as [[e | []] w3] eqn:H3
  end;
    apply street_loop_env in H3;
    pose proof (same_env_trans _ _ _ H12 H3) as H13;
    [intro H; inversion H; subst; exact H13 |].
  unfold bind at 1.
  destruct (call_global _ _ _ w3) as [[e | v4] w4] eqn:H4;
    apply loader_env in H4;
    [intro H; inversion H; subst; exact (same_env_trans _ _ _ H13 H4) |].
  unfold bind at 1.
  destruct (call_global _ _ _ w4) as [[e | v5] w5] eqn:H5;
    apply loader_env in H5; cbn [ret];
    intro H; inversion H; subst;
    exact (same_env_trans _ _ _ (same_env_trans _ _ _ H13 H4) H5).
Qed.

(** X17: [parse_vstreets] can run again: from the world a run that
    returned normally left, a second run returns normally and leaves the
    same lookup table, and no staging table of its own. *)
Theorem parse_vstreets_can_run_again (zf hf : option string)
  (w w1 : world) :
  parse_vstreets globals_with_loader (instance zf hf) w = (inr tt, w1) ->
  exists w2,
    parse_vstreets globals_with_loader (instance zf hf) w1 = (inr tt, w2)
    /\ get_table (db w2) "vstreetlookup" = get_table (db w1) "vstreetlookup"
    /\ get_table (db w2) "vstreet_table" = None.
Proof.
  intro H.
  pose proof (vstreets_env _ _ _ _ _ H) as (Hwd & Hup & _).
  destruct (vstreets_result _ _ _ _ H) as (z & a & -> & Hz & HT & _).
  assert (Hserver : server_up w = true).
  { unfold parse_vstreets in H.
    apply bind_ok in H. destruct H as (z' & wa & Ha & H).
    cbn in Ha. inversion Ha; subst z' wa. clear Ha.
    apply bind_ok in H. destruct H as (zp & wp & Hp & H).
    cbn in Hp. inversion Hp; subst zp wp. clear Hp.
    apply bind_ok in H. destruct H as (a' & wb & Hb & H).
    pose proof (zip_open_frame _ _ _ _ Hb) as ->.
    apply bind_ok in H. destruct H as (v & wc & Hc & _).
    apply loader_ok in Hc. apply exec_sql_ok in Hc. apply Hc. }
  destruct (zip_open_inv _ _ _ _ Hz) as (d & Hd & Hl).
  assert (Hz1 : zip_open z w1 = (inr a, w1))
    by (apply (zip_open_found z d); congruence).
  destruct (vstreets_returns hf z a w1 Hz1 ltac:(congruence)) as (w2 & H2).
  exists w2. split; [exact H2 |].
  destruct (vstreets_result _ _ _ _ H2) as (z' & a' & Hz' & Hza & HT2 & Hno & _).
  inversion Hz'; subst z'. rewrite Hz1 in Hza. inversion Hza; subst a'.
  split; [congruence | exact Hno].
Qed.

Lemma parse_vstreets_can_run_again_witness :
  exists w2,
    parse_vstreets globals_with_loader
      (instance (Some "codepoint.zip") (Some "headers.csv"))
      Samples.after_vstreets = (inr tt, w2)
    /\ get_table (db w2) "vstreetlookup"
       = get_table (db Samples.after_vstreets) "vstreetlookup".
Proof.
  destruct (parse_vstreets_can_run_again
              (Some "codepoint.zip") (Some "headers.csv")
              Samples.after_info Samples.after_vstreets)
    as (w2 & Hr & Ht & _).
  - vm_compute. reflexivity.
  - exists w2. split; [exact Hr | exact Ht].
Defined.
